(** * Fleet monitoring and sequential restart: a shallow embedding

    The development follows three pieces of the repository:

    - [backend/services/monitoring.js], first part: the health monitor
      ([monitorAllServers], [pingServer], [telnetServer]);
    - [backend/services/monitoring.js], second part: the restart service
      ([executeRestart], [pingServer], [executeSSHReboot]);
    - [src/pages/Scheduler.tsx]: the scheduling form ([handleSubmit],
      [getMinDateTime]) and the page around it;
    - the service's [startMonitoring] and [stopMonitoring], the
      dashboard page and the counters of its route, and the routes that
      delete a group and register a user.

    Effectful code is written in a small state-and-exception monad.  The
    collaborators the code talks to (child processes, sockets, the
    database, the mailer, the clock) are parameters: an environment record
    fixes how each of them answers, and every statement quantifies over
    all environments. *)

From Stdlib Require Import List String Ascii ZArith Lia Bool Arith.
From Stdlib Require Import Permutation Sorted DecimalString.
Import ListNotations.

Local Open Scope string_scope.
Local Open Scope Z_scope.
Local Open Scope list_scope.

Infix "+++" := String.append (right associativity, at level 60).

(* ================================================================== *)
(** ** JavaScript values shared by the services *)
(* ================================================================== *)

(** Template literals print integers in decimal. *)
Definition number_to_string (z : Z) : string :=
  NilZero.string_of_int (Z.to_int z).

(** [x || d] on a possibly missing string / number. *)
Definition or_string (x : option string) (d : string) : string :=
  match x with
  | Some s => if String.eqb s EmptyString then d else s
  | None => d
  end.

Definition or_number (x : option Z) (d : Z) : Z :=
  match x with
  | Some n => if n =? 0 then d else n
  | None => d
  end.

(** The [status] column of a server row. *)
Inductive Status := Online | Offline | Unknown.

Definition status_eqb (a b : Status) : bool :=
  match a, b with
  | Online, Online | Offline, Offline | Unknown, Unknown => true
  | _, _ => false
  end.

(** A row of the [Server] model, with the columns the sources read or
    write (seed.js, Servers.tsx, monitoring.js).  Dates are milliseconds
    since the epoch; a missing date is [None]. *)
Record Server := mkServer {
  id : Z;
  name : string;
  hostname : string;
  ipAddress : string;
  port : Z;
  sshPort : option Z;
  sshUser : option string;
  groupId : option Z;
  description : string;
  restartOrder : Z;
  restartDelay : Z;
  isActive : bool;
  status : Status;
  lastPing : option Z;
  lastTelnet : option Z
}.

(* ================================================================== *)
(** ** Child processes, sockets and promises *)
(* ================================================================== *)

(** What a spawned process (or a socket) does is a list of events, each
    with the time in milliseconds since the call at which it is
    delivered, in delivery order. *)
Inductive proc_event :=
| Stdout (data : string)
| Stderr (data : string)
| Close (code : option Z)          (* exit code, [None] is null *)
| ProcError (message : string).    (* the 'error' event *)

Definition process := list (Z * proc_event).

Inductive sock_event :=
| Connected
| SockError (message : string).

Definition socket_run := list (Z * sock_event).

(** The events as the handlers see them: the timer installed with
    [setTimeout(..., ceiling)] fires before the first event that is not
    delivered strictly before the ceiling. *)
Inductive tick (E : Type) :=
| Fired (e : E)
| Timer.
Arguments Fired {E} e.
Arguments Timer {E}.

Fixpoint timeline {E : Type} (ceiling : Z) (p : list (Z * E)) : list (tick E) :=
  match p with
  | [] => [Timer]
  | (t, e) :: rest =>
      if t <? ceiling then Fired e :: timeline ceiling rest
      else Timer :: map (fun te => Fired (snd te)) p
  end.

(** A promise settles once: later calls of resolve / reject are ignored. *)
Definition settle {R : Type} (promise : option R) (r : R) : option R :=
  match promise with
  | Some _ => promise
  | None => Some r
  end.

(** [code === n] on an exit code. *)
Definition code_is (n : Z) (code : option Z) : bool :=
  match code with
  | Some c => c =? n
  | None => false
  end.

Definition code_is_null (code : option Z) : bool :=
  match code with
  | Some _ => false
  | None => true
  end.

Definition code_to_string (code : option Z) : string :=
  match code with
  | Some c => number_to_string c
  | None => "null"
  end.

(** Outcome of an awaited call: it returns, or it throws an [Error] with
    the given message. *)
Inductive outcome (A : Type) :=
| Returned (a : A)
| Thrown (message : string).
Arguments Returned {A} a.
Arguments Thrown {A} message.

(* ================================================================== *)
(** ** The state-and-exception monad *)
(* ================================================================== *)

(** Effects performed before an exception is thrown stay performed. *)
Definition M (S A : Type) : Type := S -> outcome A * S.

Definition ret {S A : Type} (a : A) : M S A := fun st => (Returned a, st).

Definition bind {S A B : Type} (c : M S A) (k : A -> M S B) : M S B :=
  fun st =>
    match c st with
    | (Returned a, st') => k a st'
    | (Thrown m, st') => (Thrown m, st')
    end.

Definition throw {S A : Type} (message : string) : M S A :=
  fun st => (Thrown message, st).

Definition try_catch {S A : Type} (body : M S A) (handler : string -> M S A) : M S A :=
  fun st =>
    match body st with
    | (Returned a, st') => (Returned a, st')
    | (Thrown m, st') => handler m st'
    end.

Definition gets {S A : Type} (f : S -> A) : M S A := fun st => (Returned (f st), st).

Definition modify {S : Type} (f : S -> S) : M S unit := fun st => (Returned tt, f st).

Definition when {S : Type} (b : bool) (c : M S unit) : M S unit :=
  if b then c else ret tt.

Declare Scope js_scope.
Delimit Scope js_scope with js.
Notation "x <- c1 ;; c2" := (bind c1 (fun x => c2))
  (at level 61, c1 at next level, right associativity) : js_scope.
Notation "c1 ;; c2" := (bind c1 (fun _ => c2))
  (at level 61, right associativity) : js_scope.
Local Open Scope js_scope.

(* ================================================================== *)
(** ** The restart service *)
(* ================================================================== *)

Module Restart.

(** *** [pingServer] (pre-flight check, 5 s watchdog) *)

Definition ping_handler (promise : option bool) (e : tick proc_event) : option bool :=
  match e with
  | Fired (Close code) => settle promise (code_is 0 code)
  | Fired (ProcError _) => settle promise false
  | Fired _ => promise
  | Timer => settle promise false          (* ping.kill(); resolve(false) *)
  end.

Definition pingServer_promise (p : process) : option bool :=
  fold_left ping_handler (timeline 5000 p) None.

Definition pingServer (p : process) : bool :=
  match pingServer_promise p with
  | Some b => b
  | None => false
  end.

(** *** [executeSSHReboot] *)

Definition ssh_target (server : Server) : string :=
  or_string (sshUser server) "root" +++ "@" +++ hostname server.

Definition ssh_args (server : Server) : list string :=
  [ "-o"; "StrictHostKeyChecking=no";
    "-o"; "ConnectTimeout=10";
    "-o"; "ServerAliveInterval=5";
    "-o"; "ServerAliveCountMax=3";
    "-p"; number_to_string (or_number (sshPort server) 22);
    ssh_target server;
    "sudo reboot || reboot" ]%string.

Record ssh_session := mkSession {
  stdout : string;
  stderr : string;
  promise : option (outcome bool)
}.

Definition ssh_start : ssh_session :=
  {| stdout := EmptyString; stderr := EmptyString; promise := None |}.

Definition ssh_handler (s : ssh_session) (e : tick proc_event) : ssh_session :=
  match e with
  | Fired (Stdout data) =>
      {| stdout := stdout s +++ data; stderr := stderr s; promise := promise s |}
  | Fired (Stderr data) =>
      {| stdout := stdout s; stderr := stderr s +++ data; promise := promise s |}
  | Fired (Close code) =>
      if code_is 0 code || code_is_null code || code_is 255 code then
        {| stdout := stdout s; stderr := stderr s;
           promise := settle (promise s) (Returned true) |}
      else
        let errorMsg :=
          if String.eqb (stderr s) EmptyString
          then "SSH command failed with exit code " +++ code_to_string code
          else stderr s in
        {| stdout := stdout s; stderr := stderr s;
           promise := settle (promise s) (Thrown errorMsg) |}
  | Fired (ProcError message) =>
      {| stdout := stdout s; stderr := stderr s;
         promise := settle (promise s) (Thrown ("SSH connection failed: " +++ message)) |}
  | Timer =>                                  (* ssh.kill(); reject(...) *)
      {| stdout := stdout s; stderr := stderr s;
         promise := settle (promise s) (Thrown "SSH command timeout") |}
  end.

Definition ssh_ceiling : Z := 15000.

Definition executeSSHReboot_session (p : process) : ssh_session :=
  fold_left ssh_handler (timeline ssh_ceiling p) ssh_start.

Definition executeSSHReboot (server : Server) (p : process) : outcome bool :=
  match promise (executeSSHReboot_session p) with
  | Some r => r
  | None => Thrown "SSH command timeout"
  end.

(** *** The batch record and the events of a run *)

Inductive BatchStatus := Running | Completed | Failed.

Definition batch_status_string (s : BatchStatus) : string :=
  match s with
  | Running => "running"
  | Completed => "completed"
  | Failed => "failed"
  end.

(** Entries of [details.servers] and [details.errors]. *)
Record ServerEntry := mkServerEntry {
  entry_id : Z;
  entry_name : string;
  entry_hostname : string;
  entry_timestamp : Z          (* status is always 'success' *)
}.

Record ErrorEntry := mkErrorEntry {
  serverId : Z;
  serverName : string;
  error : string
}.

Record Details := mkDetails {
  servers : list ServerEntry;
  errors : list ErrorEntry
}.

(** The [details] column holds either the per-host lists or, after an
    uncaught error, [{ error: message }]. *)
Inductive LogDetails :=
| HostDetails (d : Details)
| ErrorDetail (message : string).

Record RestartLog := mkRestartLog {
  log_id : Z;
  log_status : BatchStatus;
  log_details : option LogDetails;
  endTime : option Z
}.

(** The argument of [restartLog.update]. *)
Record Patch := mkPatch {
  patch_status : BatchStatus;
  patch_details : LogDetails;
  patch_endTime : Z
}.

Definition apply_patch (p : Patch) (l : RestartLog) : RestartLog :=
  {| log_id := log_id l;
     log_status := patch_status p;
     log_details := Some (patch_details p);
     endTime := Some (patch_endTime p) |}.

Inductive Phase :=
| PhaseStarted
| PhaseRestarted
| PhaseError
| PhaseFinal (s : BatchStatus).

(** Payload of a 'restart-status' event. *)
Record RestartStatus := mkRestartStatus {
  rs_logId : Z;
  rs_serverId : option Z;
  rs_status : Phase;
  rs_message : string;
  rs_details : option Details
}.

Inductive LogLine :=
| Info (message : string)
| Error (message : string) (err : string).

(** Calls that leave the function, in program order. *)
Inductive event :=
| Log (l : LogLine)
| Ping (ip : string)              (* pingServer(server.ipAddress) *)
| Ssh (server : Server)           (* executeSSHReboot(server) *)
| Sleep (ms : Z)                  (* setTimeout(resolve, ms) *)
| Emit (m : RestartStatus)        (* io.emit('restart-status', m) *)
| Update (p : Patch).             (* restartLog.update(p) *)

(** How the outside answers during one run.  The loop makes at most one
    pre-flight and one reboot call per iteration, so the processes are
    indexed by the iteration; the store answers per request ([None]:
    accepted, [Some m]: rejected with message [m]); [now n] is the value
    of the [n]-th reading of the clock. *)
Record Env := mkEnv {
  ping_run : nat -> process;
  ssh_run : nat -> process;
  store_update : Patch -> option string;
  now : nat -> Z
}.

Record State := mkState {
  trace : list event;
  details : Details;
  restartLog : RestartLog;
  clock_reads : nat
}.

Definition record (e : event) : M State unit :=
  modify (fun st =>
    {| trace := trace st ++ [e]; details := details st;
       restartLog := restartLog st; clock_reads := clock_reads st |}).

Definition new_Date (env : Env) : M State Z :=
  fun st =>
    (Returned (now env (clock_reads st)),
     {| trace := trace st; details := details st;
        restartLog := restartLog st; clock_reads := S (clock_reads st) |}).

Definition set_details (d : Details) : M State unit :=
  modify (fun st =>
    {| trace := trace st; details := d;
       restartLog := restartLog st; clock_reads := clock_reads st |}).

Definition push_server (e : ServerEntry) : M State unit :=
  d <- gets details ;;
  set_details {| servers := servers d ++ [e]; errors := errors d |}.

Definition push_error (e : ErrorEntry) : M State unit :=
  d <- gets details ;;
  set_details {| servers := servers d; errors := errors d ++ [e] |}.

(** [if (io) io.emit('restart-status', m)]: the broadcast is fire and
    forget. *)
Definition emit (io : bool) (m : RestartStatus) : M State unit :=
  when io (record (Emit m)).

Definition await_ping (env : Env) (k : nat) (ip : string) : M State bool :=
  record (Ping ip) ;;
  ret (pingServer (ping_run env k)).

Definition await_ssh (env : Env) (k : nat) (server : Server) : M State bool :=
  record (Ssh server) ;;
  match executeSSHReboot server (ssh_run env k) with
  | Returned b => ret b
  | Thrown m => throw m
  end.

(** [await restartLog.update(p)] *)
Definition update (env : Env) (p : Patch) : M State unit :=
  record (Update p) ;;
  match store_update env p with
  | Some m => throw m
  | None =>
      modify (fun st =>
        {| trace := trace st; details := details st;
           restartLog := apply_patch p (restartLog st);
           clock_reads := clock_reads st |})
  end.

(** *** [servers.sort((a, b) => a.restartOrder - b.restartOrder)]

    [Array.prototype.sort] is stable; with a comparator that is a
    difference of integers its result is the stable sorted arrangement,
    computed here by insertion from the right. *)
Definition compare_restartOrder (a b : Server) : Z :=
  restartOrder a - restartOrder b.

Fixpoint insert {A : Type} (cmp : A -> A -> Z) (x : A) (l : list A) : list A :=
  match l with
  | [] => [x]
  | y :: rest => if cmp x y <=? 0 then x :: l else y :: insert cmp x rest
  end.

Fixpoint sort {A : Type} (cmp : A -> A -> Z) (l : list A) : list A :=
  match l with
  | [] => []
  | x :: rest => insert cmp x (sort cmp rest)
  end.

(** What the caller passes as [servers]: an array, or something on
    which calling [.sort] is a TypeError with the given message. *)
Inductive Argument :=
| Array (l : list Server)
| NotArray (typeError : string).

Definition sort_servers (servers : Argument) : M State (list Server) :=
  match servers with
  | Array l => ret (sort compare_restartOrder l)
  | NotArray typeError => throw typeError
  end.

(** *** [executeRestart] *)

(** One iteration of [for (const server of servers)]. *)
Definition restart_one (env : Env) (io : bool) (logId : Z) (k : nat) (server : Server)
  : M State unit :=
  try_catch
    (record (Log (Info ("Restarting server: " +++ name server +++ " (" +++ hostname server +++ ")"))) ;;
     pingResult <- await_ping env k (ipAddress server) ;;
     when (negb pingResult)
       (throw ("Server " +++ ipAddress server +++ " is not reachable via ping")) ;;
     await_ssh env k server ;;
     timestamp <- new_Date env ;;
     push_server {| entry_id := id server; entry_name := name server;
                    entry_hostname := hostname server; entry_timestamp := timestamp |} ;;
     emit io {| rs_logId := logId; rs_serverId := Some (id server);
                rs_status := PhaseRestarted;
                rs_message := "Server " +++ name server +++ " restart command sent successfully";
                rs_details := None |} ;;
     when (0 <? restartDelay server)
       (record (Log (Info ("Waiting " +++ number_to_string (restartDelay server)
                           +++ " seconds before next server..."))) ;;
        record (Sleep (restartDelay server * 1000))))
    (fun message =>
     record (Log (Error ("Failed to restart " +++ name server +++ ":") message)) ;;
     push_error {| serverId := id server; serverName := name server; error := message |} ;;
     emit io {| rs_logId := logId; rs_serverId := Some (id server);
                rs_status := PhaseError;
                rs_message := "Failed to restart " +++ name server +++ ": " +++ message;
                rs_details := None |}).

Fixpoint restart_loop (env : Env) (io : bool) (logId : Z) (k : nat) (l : list Server)
  : M State unit :=
  match l with
  | [] => ret tt
  | server :: rest =>
      restart_one env io logId k server ;;
      restart_loop env io logId (S k) rest
  end.

Definition final_status (d : Details) : BatchStatus :=
  if (List.length (errors d) =? 0)%nat then Completed else Failed.

Definition summary_message (s : BatchStatus) (d : Details) : string :=
  "Restart process " +++ batch_status_string s +++ ". "
  +++ number_to_string (Z.of_nat (List.length (servers d))) +++ " successful, "
  +++ number_to_string (Z.of_nat (List.length (errors d))) +++ " failed.".

(** The body of the outer [try] ... *)
Definition restart_all (env : Env) (servers : Argument) (io : bool) (logId : Z)
  : M State unit :=
  set_details {| servers := []; errors := [] |} ;;
  sorted <- sort_servers servers ;;
  emit io {| rs_logId := logId; rs_serverId := None; rs_status := PhaseStarted;
             rs_message := "Restart process initiated"; rs_details := None |} ;;
  restart_loop env io logId 0 sorted ;;
  d <- gets details ;;
  let status := final_status d in
  endT <- new_Date env ;;
  update env {| patch_status := status; patch_details := HostDetails d;
                patch_endTime := endT |} ;;
  emit io {| rs_logId := logId; rs_serverId := None; rs_status := PhaseFinal status;
             rs_message := summary_message status d; rs_details := Some d |}.

(** ... and its [catch (error)]. *)
Definition restart_failed (env : Env) (io : bool) (logId : Z) (message : string)
  : M State unit :=
  record (Log (Error "Restart process failed:" message)) ;;
  endT <- new_Date env ;;
  update env {| patch_status := Failed; patch_details := ErrorDetail message;
                patch_endTime := endT |} ;;
  emit io {| rs_logId := logId; rs_serverId := None; rs_status := PhaseFinal Failed;
             rs_message := "Restart process failed: " +++ message;
             rs_details := None |}.

Definition executeRestart (env : Env) (servers : Argument) (io : bool)
  : M State unit :=
  logId <- gets (fun st => log_id (restartLog st)) ;;
  try_catch (restart_all env servers io logId) (restart_failed env io logId).

(** A run starts from a batch record and nothing done yet. *)
Definition initial (l : RestartLog) : State :=
  {| trace := []; details := {| servers := []; errors := [] |};
     restartLog := l; clock_reads := 0 |}.

Definition run (env : Env) (servers : Argument) (l : RestartLog) (io : bool)
  : outcome unit * State :=
  executeRestart env servers io (initial l).

(** *** Observations on a trace *)

Definition pings (t : list event) : list string :=
  flat_map (fun e => match e with Ping ip => [ip] | _ => [] end) t.

Definition ssh_calls (t : list event) : list Server :=
  flat_map (fun e => match e with Ssh s => [s] | _ => [] end) t.

Definition sleeps (t : list event) : list Z :=
  flat_map (fun e => match e with Sleep ms => [ms] | _ => [] end) t.

Definition updates (t : list event) : list Patch :=
  flat_map (fun e => match e with Update p => [p] | _ => [] end) t.

(** The hosts of a batch with the number of their iteration. *)
Definition numbered (k : nat) (l : list Server) : list (nat * Server) :=
  combine (seq k (List.length l)) l.

(** What the [k]-th iteration meets: [None] when the restart command
    went through, otherwise the message of the error that the iteration
    catches. *)
Definition host_failure (env : Env) (k : nat) (server : Server) : option string :=
  if pingServer (ping_run env k) then
    match executeSSHReboot server (ssh_run env k) with
    | Returned _ => None
    | Thrown m => Some m
    end
  else Some ("Server " +++ ipAddress server +++ " is not reachable via ping").

(** The diagnostic output collected from a session's events. *)
Definition captured_stderr (p : process) : string :=
  fold_left (fun acc te => match snd te with
                           | Stderr data => acc +++ data
                           | _ => acc
                           end) p EmptyString.

(** No completion yet: only output, delivered before the ceiling. *)
Definition quiet (ceiling : Z) (te : Z * proc_event) : bool :=
  (fst te <? ceiling) &&
  match snd te with
  | Stdout _ | Stderr _ => true
  | Close _ | ProcError _ => false
  end.

(** The first event, if any, is not delivered before the ceiling. *)
Definition starts_late (ceiling : Z) (p : process) : bool :=
  match p with
  | [] => true
  | (t, _) :: _ => ceiling <=? t
  end.

(** *** A run, unfolded

    The events and the [details] of an iteration and of the loop, written
    as plain functions; [restart_one_run] and [restart_loop_run] below
    show that they are what the program does. *)

Definition failure_events (io : bool) (logId : Z) (server : Server) (message : string)
  : list event :=
  Log (Error ("Failed to restart " +++ name server +++ ":") message) ::
  (if io then
     [Emit {| rs_logId := logId; rs_serverId := Some (id server);
              rs_status := PhaseError;
              rs_message := "Failed to restart " +++ name server +++ ": " +++ message;
              rs_details := None |}]
   else []).

Definition success_events (io : bool) (logId : Z) (server : Server) : list event :=
  (if io then
     [Emit {| rs_logId := logId; rs_serverId := Some (id server);
              rs_status := PhaseRestarted;
              rs_message := "Server " +++ name server +++ " restart command sent successfully";
              rs_details := None |}]
   else []) ++
  (if 0 <? restartDelay server then
     [Log (Info ("Waiting " +++ number_to_string (restartDelay server)
                 +++ " seconds before next server..."));
      Sleep (restartDelay server * 1000)]
   else []).

Definition iteration_events (env : Env) (io : bool) (logId : Z) (k : nat) (server : Server)
  : list event :=
  Log (Info ("Restarting server: " +++ name server +++ " (" +++ hostname server +++ ")")) ::
  Ping (ipAddress server) ::
  (if pingServer (ping_run env k) then [Ssh server] else []) ++
  match host_failure env k server with
  | None => success_events io logId server
  | Some m => failure_events io logId server m
  end.

Definition iteration_details (env : Env) (k : nat) (server : Server) (dn : Details * nat)
  : Details * nat :=
  match host_failure env k server with
  | None =>
      ({| servers := servers (fst dn) ++
                     [{| entry_id := id server; entry_name := name server;
                         entry_hostname := hostname server;
                         entry_timestamp := now env (snd dn) |}];
          errors := errors (fst dn) |},
       S (snd dn))
  | Some m =>
      ({| servers := servers (fst dn);
          errors := errors (fst dn) ++
                    [{| serverId := id server; serverName := name server; error := m |}] |},
       snd dn)
  end.

Fixpoint loop_events (env : Env) (io : bool) (logId : Z) (k : nat) (l : list Server)
  : list event :=
  match l with
  | [] => []
  | server :: rest =>
      iteration_events env io logId k server ++ loop_events env io logId (S k) rest
  end.

Fixpoint loop_details (env : Env) (k : nat) (l : list Server) (dn : Details * nat)
  : Details * nat :=
  match l with
  | [] => dn
  | server :: rest => loop_details env (S k) rest (iteration_details env k server dn)
  end.

(** The update issued after the loop, and the one issued by the handler
    of the outer [try] when it catches [message] at the [n]-th reading of
    the clock. *)
Definition loop_result (env : Env) (order : list Server) : Details * nat :=
  loop_details env 0 order ({| servers := []; errors := [] |}, 0%nat).

Definition completion_patch (env : Env) (order : list Server) : Patch :=
  {| patch_status := final_status (fst (loop_result env order));
     patch_details := HostDetails (fst (loop_result env order));
     patch_endTime := now env (snd (loop_result env order)) |}.

Definition failure_patch (env : Env) (n : nat) (message : string) : Patch :=
  {| patch_status := Failed; patch_details := ErrorDetail message;
     patch_endTime := now env n |}.

Definition uncaught (message : string) : event :=
  Log (Error "Restart process failed:" message).

Definition started_events (io : bool) (logId : Z) : list event :=
  if io then
    [Emit {| rs_logId := logId; rs_serverId := None; rs_status := PhaseStarted;
             rs_message := "Restart process initiated"; rs_details := None |}]
  else [].

Definition failed_events (io : bool) (logId : Z) (message : string) : list event :=
  if io then
    [Emit {| rs_logId := logId; rs_serverId := None; rs_status := PhaseFinal Failed;
             rs_message := "Restart process failed: " +++ message;
             rs_details := None |}]
  else [].

Definition completed_events (io : bool) (logId : Z) (d : Details) : list event :=
  if io then
    [Emit {| rs_logId := logId; rs_serverId := None;
             rs_status := PhaseFinal (final_status d);
             rs_message := summary_message (final_status d) d;
             rs_details := Some d |}]
  else [].

(** Events that end a run: no pre-flight, reboot or pause among them. *)
Definition concluding (e : event) : bool :=
  match e with
  | Ping _ | Ssh _ | Sleep _ => false
  | Log _ | Emit _ | Update _ => true
  end.

(** Every reboot call in the trace comes right after the pre-flight of
    the same host. *)
Definition preflight_first (t : list event) : Prop :=
  forall pre s post,
    t = pre ++ Ssh s :: post ->
    exists pre', pre = pre' ++ [Ping (ipAddress s)].

(** The pause an iteration makes: none unless the restart went through. *)
Definition pause_of (env : Env) (ks : nat * Server) : list Z :=
  match host_failure env (fst ks) (snd ks) with
  | None => if 0 <? restartDelay (snd ks) then [restartDelay (snd ks) * 1000] else []
  | Some _ => []
  end.

(** The entries the loop leaves in [details.errors]. *)
Definition error_of (env : Env) (ks : nat * Server) : list ErrorEntry :=
  match host_failure env (fst ks) (snd ks) with
  | None => []
  | Some m => [{| serverId := id (snd ks); serverName := name (snd ks); error := m |}]
  end.

(** The order of a batch: lower restart priority first. *)
Definition by_restartOrder (a b : Server) : Prop := restartOrder a <= restartOrder b.

Definition has_restartOrder (p : Z) (s : Server) : bool := restartOrder s =? p.

(** The trace without the broadcasts. *)
Definition without_emits (t : list event) : list event :=
  filter (fun e => match e with Emit _ => false | _ => true end) t.

(** A completion code that [executeSSHReboot] takes as success. *)
Definition reboot_accepted (code : option Z) : Prop :=
  code = Some 0 \/ code = None \/ code = Some 255.

(** Whether the [k]-th iteration sent the restart command for its host. *)
Definition went_through (env : Env) (ks : nat * Server) : bool :=
  match host_failure env (fst ks) (snd ks) with
  | None => true
  | Some _ => false
  end.

(** A broadcast that announces the end of a batch. *)
Definition final_broadcast (e : event) : bool :=
  match e with
  | Emit m => match rs_status m with PhaseFinal _ => true | _ => false end
  | _ => false
  end.

(** How a run ends after the uncaught error [m], [earlier] being the
    updates issued before it: the handler logs the error, reads the
    clock and asks the store to mark the batch [failed] with the error
    as detail; the record changes only if the store accepts. *)
Definition concluded_by_handler (env : Env) (rl : RestartLog) (res : outcome unit)
    (st : State) (m : string) (earlier : list Patch) : Prop :=
  In (uncaught m) (trace st)
  /\ exists q,
       updates (trace st) = earlier ++ [q]
       /\ patch_status q = Failed
       /\ patch_details q = ErrorDetail m
       /\ (exists n, clock_reads st = S n /\ patch_endTime q = now env n)
       /\ match store_update env q with
          | None =>
              res = Returned tt
              /\ log_status (restartLog st) = Failed
              /\ log_details (restartLog st) = Some (ErrorDetail m)
              /\ endTime (restartLog st) = Some (patch_endTime q)
          | Some m' =>
              res = Thrown m' /\ restartLog st = rl
          end.

End Restart.

(* ================================================================== *)
(** ** The health monitor *)
(* ================================================================== *)

Module Monitoring.

(** *** [pingServer] (10 s watchdog) and [telnetServer] (5 s watchdog) *)

Definition ping_handler (promise : option bool) (e : tick proc_event) : option bool :=
  match e with
  | Fired (Close code) => settle promise (code_is 0 code)
  | Fired (ProcError _) => settle promise false
  | Fired _ => promise                    (* output is collected or logged *)
  | Timer => settle promise false         (* ping.kill(); resolve(false) *)
  end.

Definition pingServer_promise (p : process) : option bool :=
  fold_left ping_handler (timeline 10000 p) None.

Definition pingServer (p : process) : bool :=
  match pingServer_promise p with
  | Some b => b
  | None => false
  end.

Definition telnet_handler (promise : option bool) (e : tick sock_event) : option bool :=
  match e with
  | Fired Connected => settle promise true
  | Fired (SockError _) => settle promise false
  | Timer => settle promise false         (* socket.destroy(); resolve(false) *)
  end.

Definition telnetServer_promise (p : socket_run) : option bool :=
  fold_left telnet_handler (timeline 5000 p) None.

Definition telnetServer (p : socket_run) : bool :=
  match telnetServer_promise p with
  | Some b => b
  | None => false
  end.

(** *** Rows, requests and events *)

(** The argument of [server.update]. *)
Record Patch := mkPatch {
  patch_status : Status;
  patch_lastPing : option Z;
  patch_lastTelnet : option Z
}.

Definition apply_patch (p : Patch) (r : Server) : Server :=
  {| id := id r; name := name r; hostname := hostname r;
     ipAddress := ipAddress r; port := port r;
     sshPort := sshPort r; sshUser := sshUser r;
     groupId := groupId r; description := description r;
     restartOrder := restartOrder r; restartDelay := restartDelay r;
     isActive := isActive r;
     status := patch_status p;
     lastPing := patch_lastPing p;
     lastTelnet := patch_lastTelnet p |}.

(** UPDATE ... WHERE id = key *)
Definition update_where (key : Z) (p : Patch) (rows : list Server) : list Server :=
  map (fun r => if id r =? key then apply_patch p r else r) rows.

Record MonitorLog := mkMonitorLog {
  log_serverId : Z;
  pingStatus : bool;
  telnetStatus : bool;
  responseTime : Z;
  errorMessage : option string
}.

(** Payload of a 'server-status' event. *)
Record ServerStatus := mkServerStatus {
  ss_serverId : Z;
  ss_status : Status;
  ss_pingStatus : bool;
  ss_telnetStatus : bool;
  ss_responseTime : Z;
  ss_timestamp : Z
}.

Inductive event :=
| LogError (message : string) (err : string)
| Ping (ip : string)                       (* pingServer(server.ipAddress) *)
| Telnet (ip : string) (port : Z)          (* telnetServer(ip, port) *)
| UpdateServer (key : Z) (p : Patch)       (* server.update(p) *)
| CreateLog (l : MonitorLog)               (* MonitorLog.create(l) *)
| AlertEmail (server : Server) (message : string)
| Emit (m : ServerStatus).                 (* io.emit('server-status', m) *)

(** How the outside answers during one sweep.  A sweep visits a host at
    most once, so the probes and the store's answers are indexed by the
    host's id; [None] from the store means the request was carried
    out, [Some m] that it was rejected with message [m]. *)
Record Env := mkEnv {
  findAll_error : option string;
  ping_run : Z -> process;
  telnet_run : Z -> socket_run;
  update_error : Z -> option string;
  create_error : Z -> option string;
  mail_delivered : Z -> bool;
  now : nat -> Z
}.

Record State := mkState {
  db : list Server;                 (* the servers table *)
  logs : list MonitorLog;           (* the monitor_logs table *)
  trace : list event;
  clock_reads : nat
}.

Definition record (e : event) : M State unit :=
  modify (fun st =>
    {| db := db st; logs := logs st; trace := trace st ++ [e];
       clock_reads := clock_reads st |}).

Definition new_Date (env : Env) : M State Z :=
  fun st =>
    (Returned (now env (clock_reads st)),
     {| db := db st; logs := logs st; trace := trace st;
        clock_reads := S (clock_reads st) |}).

(** [await Server.findAll({ where: { isActive: true } })] *)
Definition findAll (env : Env) : M State (list Server) :=
  match findAll_error env with
  | Some m => throw m
  | None => gets (fun st => filter isActive (db st))
  end.

(** [await server.update(p)]: the row and the instance both change. *)
Definition server_update (env : Env) (server : Server) (p : Patch) : M State Server :=
  record (UpdateServer (id server) p) ;;
  match update_error env (id server) with
  | Some m => throw m
  | None =>
      modify (fun st =>
        {| db := update_where (id server) p (db st); logs := logs st;
           trace := trace st; clock_reads := clock_reads st |}) ;;
      ret (apply_patch p server)
  end.

(** [await MonitorLog.create(l)] *)
Definition MonitorLog_create (env : Env) (l : MonitorLog) : M State unit :=
  record (CreateLog l) ;;
  match create_error env (log_serverId l) with
  | Some m => throw m
  | None =>
      modify (fun st =>
        {| db := db st; logs := logs st ++ [l]; trace := trace st;
           clock_reads := clock_reads st |})
  end.

(** Modelled from the spec: [sendAlertEmail] is defined in
    services/emailService.js, which is not among the sources.  The spec
    (section 6) says of the request handed to the mail collaborator that
    "its delivery failure must be caught and logged, never propagated to
    the caller": the call is recorded and always returns, whether or not
    the message was delivered. *)
Definition sendAlertEmail (env : Env) (server : Server) (message : string) : M State unit :=
  record (AlertEmail server message) ;;
  when (negb (mail_delivered env (id server)))
    (record (LogError "Failed to send alert email:" (name server))).

Definition OK_or_FAIL (b : bool) : string := if b then "OK" else "FAIL".

(** *** [monitorAllServers] *)

(** One iteration of [for (const server of servers)]. *)
Definition monitor_one (env : Env) (io : bool) (server : Server) : M State unit :=
  startTime <- new_Date env ;;
  record (Ping (ipAddress server)) ;;
  let pingResult := pingServer (ping_run env (id server)) in
  record (Telnet (ipAddress server) (port server)) ;;
  let telnetResult := telnetServer (telnet_run env (id server)) in
  endT <- new_Date env ;;
  let responseTime := endT - startTime in
  let isOnline := pingResult && telnetResult in
  let previousStatus := status server in
  let newStatus := if isOnline then Online else Offline in
  newPing <- (if pingResult then t <- new_Date env ;; ret (Some t)
              else ret (lastPing server)) ;;
  newTelnet <- (if telnetResult then t <- new_Date env ;; ret (Some t)
                else ret (lastTelnet server)) ;;
  updated <- server_update env server
               {| patch_status := newStatus; patch_lastPing := newPing;
                  patch_lastTelnet := newTelnet |} ;;
  MonitorLog_create env
    {| log_serverId := id updated; pingStatus := pingResult;
       telnetStatus := telnetResult; responseTime := responseTime;
       errorMessage :=
         if negb isOnline
         then Some ("Ping: " +++ OK_or_FAIL pingResult +++ ", Telnet: "
                    +++ OK_or_FAIL telnetResult)
         else None |} ;;
  when (status_eqb previousStatus Online && status_eqb newStatus Offline)
    (sendAlertEmail env updated "Server is offline") ;;
  when io
    (timestamp <- new_Date env ;;
     record (Emit {| ss_serverId := id updated; ss_status := newStatus;
                     ss_pingStatus := pingResult; ss_telnetStatus := telnetResult;
                     ss_responseTime := responseTime; ss_timestamp := timestamp |})).

Fixpoint monitor_loop (env : Env) (io : bool) (servers : list Server) : M State unit :=
  match servers with
  | [] => ret tt
  | server :: rest => monitor_one env io server ;; monitor_loop env io rest
  end.

Definition monitorAllServers (env : Env) (io : bool) : M State unit :=
  try_catch
    (servers <- findAll env ;;
     monitor_loop env io servers)
    (fun message => record (LogError "Monitoring error:" message)).

(** The state after one sweep. *)
Definition sweep (env : Env) (io : bool) (st : State) : State :=
  snd (monitorAllServers env io st).

(** Sweeps that follow one another, each one ending before the next
    begins, each with the answers the outside gives at that time.  This
    is what [startMonitoring] gives (the first sweep, then one per tick
    of the interval) as long as no sweep outlasts the interval:
    [setInterval] does not wait for the sweep before, and sweeps that
    overlap are not described by this function. *)
Definition sweeps (envs : list Env) (io : bool) (st : State) : State :=
  fold_left (fun s env => sweep env io s) envs st.

(** *** Observations *)

Definition pings (t : list event) : list string :=
  flat_map (fun e => match e with Ping ip => [ip] | _ => [] end) t.

Definition updated_keys (t : list event) : list Z :=
  flat_map (fun e => match e with UpdateServer k _ => [k] | _ => [] end) t.

(** Number of offline alerts dispatched for the host [key]. *)
Definition alerts_for (key : Z) (t : list event) : nat :=
  List.length
    (filter (fun e => match e with
                      | AlertEmail s _ => id s =? key
                      | _ => false
                      end) t).

(** SELECT ... WHERE id = key *)
Definition row (key : Z) (rows : list Server) : option Server :=
  find (fun r => id r =? key) rows.

Definition status_of (key : Z) (rows : list Server) : option Status :=
  option_map status (row key rows).



(** A row with the three columns a sweep writes blanked out. *)
Definition frame (r : Server) : Server :=
  {| id := id r; name := name r; hostname := hostname r;
     ipAddress := ipAddress r; port := port r;
     sshPort := sshPort r; sshUser := sshUser r;
     groupId := groupId r; description := description r;
     restartOrder := restartOrder r; restartDelay := restartDelay r;
     isActive := isActive r;
     status := Unknown; lastPing := None; lastTelnet := None |}.

Definition start (rows : list Server) : State :=
  {| db := rows; logs := []; trace := []; clock_reads := 0 |}.

(** *** What a sweep meets

    The results of the two probes of a host, the status they give, and
    whether the store carries out the two writes made for the host. *)
Definition reachable (env : Env) (s : Server) : bool := pingServer (ping_run env (id s)).

Definition portOpen (env : Env) (s : Server) : bool := telnetServer (telnet_run env (id s)).

Definition new_status (env : Env) (s : Server) : Status :=
  if reachable env s && portOpen env s then Online else Offline.

Definition accepted (answer : option string) : bool :=
  match answer with
  | None => true
  | Some _ => false
  end.

Definition update_ok (env : Env) (s : Server) : bool := accepted (update_error env (id s)).

Definition create_ok (env : Env) (s : Server) : bool := accepted (create_error env (id s)).

Definition writes_ok (env : Env) (s : Server) : bool := update_ok env s && create_ok env s.

(** The request [server.update] receives when the iteration for [s]
    starts at the [n]-th reading of the clock: two readings time the
    probes, the next ones stamp the probes that succeeded. *)
Definition patch_at (env : Env) (s : Server) (n : nat) : Patch :=
  {| patch_status := new_status env s;
     patch_lastPing :=
       if reachable env s then Some (now env (2 + n)) else lastPing s;
     patch_lastTelnet :=
       if portOpen env s
       then Some (now env ((if reachable env s then 3 else 2) + n))
       else lastTelnet s |}.

(** The hosts a sweep over [l] gets to, and those whose row it updates:
    the loop stops at the first write that the store rejects. *)
Fixpoint attempted (env : Env) (l : list Server) : list Server :=
  match l with
  | [] => []
  | s :: rest => s :: (if writes_ok env s then attempted env rest else [])
  end.

Fixpoint written (env : Env) (l : list Server) : list Server :=
  match l with
  | [] => []
  | s :: rest =>
      if update_ok env s
      then s :: (if create_ok env s then written env rest else [])
      else []
  end.

(** A row [r] after the sweep has written it. *)
Definition rewritten (env : Env) (r r' : Server) : Prop :=
  frame r' = frame r
  /\ status r' = new_status env r
  /\ (if reachable env r then exists n, lastPing r' = Some (now env n)
      else lastPing r' = lastPing r)
  /\ (if portOpen env r then exists n, lastTelnet r' = Some (now env n)
      else lastTelnet r' = lastTelnet r).


(** An instance of the snapshot is still the row of its key. *)
Definition fresh (l rows : list Server) : Prop :=
  forall s, In s l -> row (id s) rows = Some s.

(** *** More observations *)

Definition emits (t : list event) : list ServerStatus :=
  flat_map (fun e => match e with Emit m => [m] | _ => [] end) t.

(** The hosts of a sweep over [l] for which both writes were accepted:
    those whose iteration runs to its end. *)
Fixpoint completed (env : Env) (l : list Server) : list Server :=
  match l with
  | [] => []
  | s :: rest => if writes_ok env s then s :: completed env rest else []
  end.

(** An observation says nothing about an error exactly when both probes
    succeeded. *)
Definition consistent (l : MonitorLog) : Prop :=
  errorMessage l = None <-> pingStatus l && telnetStatus l = true.

(** The observation a sweep writes for [s] reports what the probes found. *)
Definition observes (env : Env) (s : Server) (l : MonitorLog) : Prop :=
  log_serverId l = id s
  /\ pingStatus l = reachable env s
  /\ telnetStatus l = portOpen env s.

(** The hosts whose iteration a sweep runs to its end. *)
Definition finished (env : Env) (st : State) : list Server :=
  match findAll_error env with
  | Some _ => []
  | None => completed env (filter isActive (db st))
  end.

(** The observation written and the broadcast made for [s] when its
    iteration starts at the [n]-th reading of the clock. *)
Definition observation_at (env : Env) (s : Server) (n : nat) : MonitorLog :=
  {| log_serverId := id s;
     pingStatus := reachable env s;
     telnetStatus := portOpen env s;
     responseTime := now env (S n) - now env n;
     errorMessage :=
       if negb (reachable env s && portOpen env s)
       then Some ("Ping: " +++ OK_or_FAIL (reachable env s) +++ ", Telnet: "
                  +++ OK_or_FAIL (portOpen env s))
       else None |}.

Definition broadcast_at (env : Env) (s : Server) (n : nat) : ServerStatus :=
  {| ss_serverId := id s;
     ss_status := new_status env s;
     ss_pingStatus := reachable env s;
     ss_telnetStatus := portOpen env s;
     ss_responseTime := now env (S n) - now env n;
     ss_timestamp :=
       now env ((if reachable env s then 1 else 0)
                + (if portOpen env s then 1 else 0) + 2 + n) |}.

(** The broadcast a sweep makes for [s] carries what the sweep found. *)
Definition announces (env : Env) (s : Server) (m : ServerStatus) : Prop :=
  ss_serverId m = id s
  /\ ss_status m = new_status env s
  /\ ss_pingStatus m = reachable env s
  /\ ss_telnetStatus m = portOpen env s.

(** What a sweep adds to the trace. *)
Definition news (env : Env) (io : bool) (st : State) : list event :=
  skipn (List.length (trace st)) (trace (sweep env io st)).

(** The number of times the iteration for [s] reads the clock when it
    runs to its end: twice to time the probes, once for the stamp of
    each probe that succeeded, once for the broadcast. *)
Definition readings (env : Env) (io : bool) (s : Server) : nat :=
  (if io then 1 else 0)
  + ((if portOpen env s then 1 else 0)
     + ((if reachable env s then 1 else 0) + 2)).

(** The reading of the clock with which the iteration for the host
    [key] starts, in a loop over [l] that starts at the [n]-th reading. *)
Fixpoint started_at (env : Env) (io : bool) (n : nat) (l : list Server) (key : Z)
  : option nat :=
  match l with
  | [] => None
  | s :: rest =>
      if id s =? key then Some n
      else if writes_ok env s
           then started_at env io (readings env io s + n) rest key
           else None
  end.

End Monitoring.

(* ================================================================== *)
(** ** The scheduling form *)
(* ================================================================== *)

Module Scheduler.

(** Instants are milliseconds since the epoch.  The value of a
    datetime-local input ("YYYY-MM-DDTHH:MM", no zone) is the number of
    minutes it denotes on its wall clock; the empty value is [None].
    The browser's zone is [tz] minutes east of UTC. *)
Record FormData := mkFormData {
  task_name : string;
  serverIds : list Z;
  scheduledTime : option Z;
  emailNotification : bool;
  notificationEmails : list string
}.

(** [new Date(value)]: a zone-less date-time is read as local time; the
    empty string gives an invalid date, whose time value is NaN. *)
Definition new_Date (tz : Z) (value : option Z) : option Z :=
  option_map (fun minutes => (minutes - tz) * 60000) value.

(** [d <= now] on time values; every comparison with NaN is false. *)
Definition date_le (d : option Z) (now : Z) : bool :=
  match d with
  | Some t => t <=? now
  | None => false
  end.

(** Strings hold the UTF-8 encoding of the text.  [String.prototype.trim]
    removes white space and line terminators from both ends: the
    characters U+0009 to U+000D and U+0020, which are one byte each;
    U+00A0, which is two bytes; U+1680, U+2000 to U+200A, U+2028, U+2029,
    U+202F, U+205F, U+3000 and U+FEFF, which are three bytes each. *)
Definition is_space (c : ascii) : bool :=
  let n := nat_of_ascii c in
  ((n =? 32) || ((9 <=? n) && (n <=? 13)))%nat.

Definition is_space2 (a b : ascii) : bool :=
  ((nat_of_ascii a =? 194) && (nat_of_ascii b =? 160))%nat.        (* U+00A0 *)

Definition is_space3 (a b c : ascii) : bool :=
  let x := nat_of_ascii a in
  let y := nat_of_ascii b in
  let z := nat_of_ascii c in
  (((x =? 225) && (y =? 154) && (z =? 128))                        (* U+1680 *)
   || ((x =? 226) && (y =? 128)
       && (((128 <=? z) && (z <=? 138))                            (* U+2000 - U+200A *)
           || (z =? 168) || (z =? 169)                             (* U+2028, U+2029 *)
           || (z =? 175)))                                         (* U+202F *)
   || ((x =? 226) && (y =? 129) && (z =? 159))                     (* U+205F *)
   || ((x =? 227) && (y =? 128) && (z =? 128))                     (* U+3000 *)
   || ((x =? 239) && (y =? 187) && (z =? 191)))%nat.               (* U+FEFF *)

(** [s.trim() === '']: the text is made of such characters only. *)
Fixpoint blank (s : string) : bool :=
  match s with
  | EmptyString => true
  | String a rest =>
      if is_space a then blank rest
      else
        match rest with
        | EmptyString => false
        | String b rest2 =>
            if is_space2 a b then blank rest2
            else
              match rest2 with
              | EmptyString => false
              | String c rest3 => is_space3 a b c && blank rest3
              end
        end
  end.

(** [email.trim() !== ''] *)
Definition not_blank (email : string) : bool := negb (blank email).

Inductive Submission :=
| Refused (toast : string)         (* toast.error(...); return *)
| Sent (taskData : FormData).      (* schedulerAPI.createTask(taskData) *)

Definition handleSubmit (tz now : Z) (formData : FormData) : Submission :=
  if (List.length (serverIds formData) =? 0)%nat then
    Refused "Please select at least one server"
  else
    let scheduledDate := new_Date tz (scheduledTime formData) in
    if date_le scheduledDate now then
      Refused "Scheduled time must be in the future"
    else
      Sent {| task_name := task_name formData;
              serverIds := serverIds formData;
              scheduledTime := scheduledTime formData;
              emailNotification := emailNotification formData;
              notificationEmails :=
                if emailNotification formData
                then filter not_blank (notificationEmails formData)
                else [] |}.

Definition hour : Z := 3600000.

(** [getMinDateTime]: [setHours(getHours() + 1)] moves the current
    instant one hour on (the zone's offset does not change within that
    hour), and [toISOString().slice(0, 16)] prints the result as minutes
    on the UTC wall clock. *)
Definition getMinDateTime (now : Z) : Z := (now + hour) / 60000.

(** The form: [<input type="datetime-local" required min={getMinDateTime()}>]
    inside [<form onSubmit={handleSubmit}>].  The browser calls the
    handler only when the value is present and not below [min], both
    read on the same zone-less wall clock; [min] was computed when the
    form was rendered. *)
Definition input_valid (rendered : Z) (formData : FormData) : bool :=
  match scheduledTime formData with
  | Some v => getMinDateTime rendered <=? v
  | None => false
  end.

Definition submit_form (tz rendered now : Z) (formData : FormData) : option Submission :=
  if input_valid rendered formData then Some (handleSubmit tz now formData) else None.

(** The rule of the documentation ("Minimum 1 hour from now"): the
    requested instant is strictly later than now plus one hour. *)
Definition respects_lead_time (tz now : Z) (formData : FormData) : bool :=
  match new_Date tz (scheduledTime formData) with
  | Some t => now + hour <? t
  | None => false
  end.

Definition is_sent (s : Submission) : bool :=
  match s with
  | Sent _ => true
  | Refused _ => false
  end.

(** *** The other handlers of the form *)

(** [[...prev.notificationEmails, '']] *)
Definition addEmailField (f : FormData) : FormData :=
  {| task_name := task_name f; serverIds := serverIds f;
     scheduledTime := scheduledTime f; emailNotification := emailNotification f;
     notificationEmails := notificationEmails f ++ [EmptyString] |}.

(** [l.filter((_, i) => p(i))] and [l.map((x, i) => g(x, i))], the index
    counted from [i]. *)
Fixpoint filter_index {A : Type} (p : nat -> bool) (i : nat) (l : list A) : list A :=
  match l with
  | [] => []
  | x :: rest =>
      if p i then x :: filter_index p (S i) rest else filter_index p (S i) rest
  end.

Fixpoint map_index {A B : Type} (g : A -> nat -> B) (i : nat) (l : list A) : list B :=
  match l with
  | [] => []
  | x :: rest => g x i :: map_index g (S i) rest
  end.

Definition removeEmailField (index : nat) (f : FormData) : FormData :=
  {| task_name := task_name f; serverIds := serverIds f;
     scheduledTime := scheduledTime f; emailNotification := emailNotification f;
     notificationEmails :=
       filter_index (fun i => negb (Nat.eqb i index)) 0 (notificationEmails f) |}.

Definition updateEmail (index : nat) (value : string) (f : FormData) : FormData :=
  {| task_name := task_name f; serverIds := serverIds f;
     scheduledTime := scheduledTime f; emailNotification := emailNotification f;
     notificationEmails :=
       map_index (fun email i => if Nat.eqb i index then value else email) 0
         (notificationEmails f) |}.

(** The form as [useState] and [resetForm] set it. *)
Definition empty_form : FormData :=
  {| task_name := EmptyString; serverIds := []; scheduledTime := None;
     emailNotification := false; notificationEmails := [EmptyString] |}.

(** [formData.serverIds.includes(server.id)] *)
Definition includes (key : Z) (l : list Z) : bool := existsb (Z.eqb key) l.

(** The checkbox of a host: it is shown checked when the host is
    selected; a click on an unchecked box adds the host at the end, a
    click on a checked box removes it. *)
Definition toggle_server (key : Z) (f : FormData) : FormData :=
  {| task_name := task_name f;
     serverIds :=
       if includes key (serverIds f)
       then filter (fun i => negb (i =? key)) (serverIds f)
       else serverIds f ++ [key];
     scheduledTime := scheduledTime f; emailNotification := emailNotification f;
     notificationEmails := notificationEmails f |}.

(** What the user can do to the list of addresses.  The button that
    removes a field is rendered only while there is more than one. *)
Inductive EmailAction :=
| AddField
| RemoveField (index : nat)
| TypeEmail (index : nat) (value : string).

Definition email_action (a : EmailAction) (f : FormData) : FormData :=
  match a with
  | AddField => addEmailField f
  | RemoveField index =>
      if (1 <? List.length (notificationEmails f))%nat
      then removeEmailField index f
      else f
  | TypeEmail index value => updateEmail index value f
  end.

(** *** The page around the form *)

(** A task as [schedulerAPI.getTasks] returns it. *)
Record ScheduledTask := mkScheduledTask {
  st_id : Z;
  st_name : string;
  st_serverIds : list Z;
  st_scheduledTime : string;
  st_status : string;
  st_emailNotification : bool;
  st_notificationEmails : list string;
  st_username : option string
}.

Inductive Toast :=
| ToastError (message : string)
| ToastSuccess (message : string).

Record Page := mkPage {
  tasks : list ScheduledTask;
  servers : list Server;
  loading : bool;
  showModal : bool;
  formData : FormData;
  toasts : list Toast
}.

(** What the API answers to the calls of one handler. *)
Record Api := mkApi {
  getTasks : outcome (list ScheduledTask);
  getAll : outcome (list Server);
  createTask : FormData -> outcome unit;
  cancelTask : Z -> outcome unit
}.

Definition toast (t : Toast) (p : Page) : Page :=
  {| tasks := tasks p; servers := servers p; loading := loading p;
     showModal := showModal p; formData := formData p;
     toasts := toasts p ++ [t] |}.

(** [loadData]: [Promise.all] of the two calls, then the two setters; the
    [finally] clears [loading]. *)
Definition loadData (api : Api) (p : Page) : Page :=
  let p' :=
    match getTasks api, getAll api with
    | Returned tasksData, Returned serversData =>
        {| tasks := tasksData; servers := filter isActive serversData;
           loading := loading p; showModal := showModal p;
           formData := formData p; toasts := toasts p |}
    | _, _ => toast (ToastError "Failed to load data") p
    end in
  {| tasks := tasks p'; servers := servers p'; loading := false;
     showModal := showModal p'; formData := formData p'; toasts := toasts p' |}.

Definition resetForm (p : Page) : Page :=
  {| tasks := tasks p; servers := servers p; loading := loading p;
     showModal := false; formData := empty_form; toasts := toasts p |}.

(** [handleSubmit] with what follows the request: a refusal is a toast;
    an accepted request is a toast, a reload and a reset of the form; a
    request that the API rejects is a toast only. *)
Definition submit (tz now : Z) (api : Api) (p : Page) : Page :=
  match handleSubmit tz now (formData p) with
  | Refused message => toast (ToastError message) p
  | Sent taskData =>
      match createTask api taskData with
      | Returned _ =>
          resetForm (loadData api (toast (ToastSuccess "Task scheduled successfully") p))
      | Thrown _ => toast (ToastError "Failed to schedule task") p
      end
  end.

(** [handleCancel]: nothing happens unless the user confirms. *)
Definition handleCancel (confirmed : bool) (api : Api) (taskId : Z) (p : Page) : Page :=
  if negb confirmed then p
  else
    match cancelTask api taskId with
    | Returned _ => loadData api (toast (ToastSuccess "Task cancelled successfully") p)
    | Thrown _ => toast (ToastError "Failed to cancel task") p
    end.

(** *** The page as a whole *)

Definition set_form (f : FormData) (p : Page) : Page :=
  {| tasks := tasks p; servers := servers p; loading := loading p;
     showModal := showModal p; formData := f; toasts := toasts p |}.

(** What can happen to the page: the effect that loads the data, and
    what the user does.  A host has a checkbox when it is listed, a task
    has a cancel button while it is pending. *)
Inductive Action :=
| Load (api : Api)                                 (* loadData() *)
| OpenModal                                        (* setShowModal(true) *)
| TypeName (value : string)
| PickTime (value : option Z)
| Toggle (key : Z)
| SetNotify (checked : bool)
| Email (a : EmailAction)
| Submit (tz now : Z) (api : Api)
| CloseModal                                       (* resetForm *)
| Cancel (confirmed : bool) (api : Api) (taskId : Z).

Definition act (a : Action) (p : Page) : Page :=
  match a with
  | Load api => loadData api p
  | OpenModal =>
      {| tasks := tasks p; servers := servers p; loading := loading p;
         showModal := true; formData := formData p; toasts := toasts p |}
  | TypeName value =>
      set_form {| task_name := value; serverIds := serverIds (formData p);
                  scheduledTime := scheduledTime (formData p);
                  emailNotification := emailNotification (formData p);
                  notificationEmails := notificationEmails (formData p) |} p
  | PickTime value =>
      set_form {| task_name := task_name (formData p);
                  serverIds := serverIds (formData p);
                  scheduledTime := value;
                  emailNotification := emailNotification (formData p);
                  notificationEmails := notificationEmails (formData p) |} p
  | Toggle key =>
      if includes key (map id (servers p))
      then set_form (toggle_server key (formData p)) p
      else p
  | SetNotify checked =>
      set_form {| task_name := task_name (formData p);
                  serverIds := serverIds (formData p);
                  scheduledTime := scheduledTime (formData p);
                  emailNotification := checked;
                  notificationEmails := notificationEmails (formData p) |} p
  | Email a => set_form (email_action a (formData p)) p
  | Submit tz now api => submit tz now api p
  | CloseModal => resetForm p
  | Cancel confirmed api taskId =>
      if existsb (fun t => (st_id t =? taskId) && String.eqb (st_status t) "pending")
           (tasks p)
      then handleCancel confirmed api taskId p
      else p
  end.

(** The page as [useState] creates it. *)
Definition mount : Page :=
  {| tasks := []; servers := []; loading := true; showModal := false;
     formData := empty_form; toasts := [] |}.

Definition session (actions : list Action) : Page :=
  fold_left (fun p a => act a p) actions mount.

(** What holds of the page at any time. *)
Definition well_formed (p : Page) : Prop :=
  notificationEmails (formData p) <> []
  /\ NoDup (serverIds (formData p))
  /\ Forall (fun s => isActive s = true) (servers p).

End Scheduler.

(* ================================================================== *)
(** ** Starting and stopping the monitor *)
(* ================================================================== *)

Module Service.

(** The module variable [monitoringInterval], the handles that
    [setInterval] has given out and [clearInterval] has not cleared, the
    lines logged, and the monitor itself.  [world n] is what the outside
    answers during the [n]-th sweep. *)
Record State := mkState {
  monitoringInterval : option nat;
  intervals : list nat;
  next_handle : nat;
  messages : list string;
  sweeps_run : nat;
  monitor : Monitoring.State
}.

Definition info (message : string) (st : State) : State :=
  {| monitoringInterval := monitoringInterval st; intervals := intervals st;
     next_handle := next_handle st; messages := messages st ++ [message];
     sweeps_run := sweeps_run st; monitor := monitor st |}.

(** One call of [monitorAllServers(io)]. *)
Definition run_sweep (world : nat -> Monitoring.Env) (io : bool) (st : State) : State :=
  {| monitoringInterval := monitoringInterval st; intervals := intervals st;
     next_handle := next_handle st; messages := messages st;
     sweeps_run := S (sweeps_run st);
     monitor := Monitoring.sweep (world (sweeps_run st)) io (monitor st) |}.

Definition startMonitoring (world : nat -> Monitoring.Env) (io : bool) (st : State) : State :=
  let st1 := info "Starting server monitoring service" st in
  let handle := next_handle st1 in
  let st2 :=
    {| monitoringInterval := Some handle;
       intervals := intervals st1 ++ [handle];
       next_handle := S handle; messages := messages st1;
       sweeps_run := sweeps_run st1; monitor := monitor st1 |} in
  run_sweep world io st2.

Definition stopMonitoring (st : State) : State :=
  match monitoringInterval st with
  | Some handle =>
      info "Monitoring service stopped"
        {| monitoringInterval := monitoringInterval st;
           intervals := filter (fun h => negb (Nat.eqb h handle)) (intervals st);
           next_handle := next_handle st; messages := messages st;
           sweeps_run := sweeps_run st; monitor := monitor st |}
  | None => st
  end.

(** A minute passes: every interval that is still set fires once.  A
    sweep is taken to end before the next one begins. *)
Definition tick (world : nat -> Monitoring.Env) (io : bool) (st : State) : State :=
  Nat.iter (List.length (intervals st)) (run_sweep world io) st.

Definition ticks (n : nat) (world : nat -> Monitoring.Env) (io : bool) (st : State) : State :=
  Nat.iter n (tick world io) st.

(** The process before the service is started. *)
Definition boot (rows : list Server) : State :=
  {| monitoringInterval := None; intervals := []; next_handle := 0;
     messages := []; sweeps_run := 0; monitor := Monitoring.start rows |}.

(** Handles are given out in increasing order. *)
Definition handles_ok (st : State) : Prop :=
  Forall (fun h => (h < next_handle st)%nat) (intervals st).

End Service.

(* ================================================================== *)
(** ** The dashboard *)
(* ================================================================== *)

Module Dashboard.

(** An entry of the page's [servers] state: a row as the API returned
    it, with the response time last heard of. *)
Record Entry := mkEntry {
  server : Server;
  responseTime : option Z
}.

Definition set_status (st : Status) (r : Server) : Server :=
  {| id := id r; name := name r; hostname := hostname r;
     ipAddress := ipAddress r; port := port r;
     sshPort := sshPort r; sshUser := sshUser r;
     groupId := groupId r; description := description r;
     restartOrder := restartOrder r; restartDelay := restartDelay r;
     isActive := isActive r;
     status := st;
     lastPing := lastPing r;
     lastTelnet := lastTelnet r |}.

(** The handler of 'server-status':
    [prev.map(server => server.id === data.serverId
                        ? { ...server, status, responseTime } : server)] *)
Definition on_server_status (data : Monitoring.ServerStatus) (prev : list Entry)
  : list Entry :=
  map (fun e =>
         if id (server e) =? Monitoring.ss_serverId data
         then {| server := set_status (Monitoring.ss_status data) (server e);
                 responseTime := Some (Monitoring.ss_responseTime data) |}
         else e) prev.

(** The events of a sweep, handled in the order they were emitted. *)
Definition listen (events : list Monitoring.ServerStatus) (board : list Entry)
  : list Entry :=
  fold_left (fun b data => on_server_status data b) events board.

Definition shown (key : Z) (board : list Entry) : option Status :=
  option_map (fun e => status (server e))
    (find (fun e => id (server e) =? key) board).

(** [formatTimestamp].  A timestamp that does not parse is an invalid
    date ([None]), for which every comparison is false.  Time values are
    integers; for instants within a few centuries of each other the
    quotient by 60000 is far from the precision of a double, and
    [Math.floor] of it is the integer quotient. *)
Inductive Label :=
| JustNow
| MinutesAgo (m : Z)
| HoursAgo (h : Z)
| OnDate (date : option Z).        (* date.toLocaleDateString() *)

Definition formatTimestamp (timestamp : option Z) (now : Z) : Label :=
  match timestamp with
  | None => OnDate None
  | Some date =>
      let diffInMinutes := (now - date) / (1000 * 60) in
      if diffInMinutes <? 1 then JustNow
      else if diffInMinutes <? 60 then MinutesAgo diffInMinutes
      else if diffInMinutes <? 1440 then HoursAgo (diffInMinutes / 60)
      else OnDate (Some date)
  end.

(** The three [Server.count] queries of GET /stats. *)
Definition totalServers (rows : list Server) : nat :=
  List.length (filter isActive rows).

Definition onlineServers (rows : list Server) : nat :=
  List.length (filter (fun r => isActive r && status_eqb (status r) Online) rows).

Definition offlineServers (rows : list Server) : nat :=
  List.length (filter (fun r => isActive r && status_eqb (status r) Offline) rows).

(** The status of the last event about [key], or [old] if there is none. *)
Definition latest (key : Z) (events : list Monitoring.ServerStatus) (old : Status) : Status :=
  fold_left (fun acc data => if key =? Monitoring.ss_serverId data
                             then Monitoring.ss_status data else acc) events old.

Definition keys (board : list Entry) : list Z := map (fun e => id (server e)) board.

End Dashboard.

(* ================================================================== *)
(** ** The groups route *)
(* ================================================================== *)

Module Groups.

(** A row of the [Group] model (models/Group.js). *)
Record Group := mkGroup {
  g_id : Z;
  g_name : string;
  g_description : string;
  g_color : string;
  g_isActive : bool
}.

Record Db := mkDb {
  groups : list Group;
  servers : list Server
}.

Inductive Body :=
| Message (message : string)
| ErrorBody (error : string).

Record Response := mkResponse {
  code : Z;
  body : Body
}.

(** Whether the store carries out the two queries of the handler. *)
Record Env := mkEnv {
  count_error : option string;
  destroy_error : option string
}.

(** [Server.count({ where: { groupId } })] *)
Definition Server_count (env : Env) (key : Z) : M Db nat :=
  match count_error env with
  | Some m => throw m
  | None =>
      gets (fun db =>
        List.length
          (filter (fun s => match groupId s with
                            | Some g => g =? key
                            | None => false
                            end) (servers db)))
  end.

(** [Group.destroy({ where: { id } })]: the number of rows deleted. *)
Definition Group_destroy (env : Env) (key : Z) : M Db nat :=
  match destroy_error env with
  | Some m => throw m
  | None =>
      fun db =>
        (Returned (List.length (filter (fun g => g_id g =? key) (groups db))),
         {| groups := filter (fun g => negb (g_id g =? key)) (groups db);
            servers := servers db |})
  end.

(** DELETE /:id, after the two middlewares, for an id that reads as a
    key. *)
Definition delete (env : Env) (key : Z) : M Db Response :=
  try_catch
    (serverCount <- Server_count env key ;;
     if (0 <? serverCount)%nat then
       ret {| code := 400;
              body := ErrorBody
                ("Cannot delete group. It contains "
                 +++ number_to_string (Z.of_nat serverCount)
                 +++ " server(s). Please move or delete the servers first.") |}
     else
       deleted <- Group_destroy env key ;;
       if (deleted =? 0)%nat then
         ret {| code := 404; body := ErrorBody "Group not found" |}
       else
         ret {| code := 200; body := Message "Group deleted successfully" |})
    (fun _ => ret {| code := 500; body := ErrorBody "Server error" |}).

Definition group_exists (key : Z) (db : Db) : Prop :=
  In key (map g_id (groups db)).

(** Every server that names a group names one that exists. *)
Definition references_ok (db : Db) : Prop :=
  forall s g, In s (servers db) -> groupId s = Some g -> group_exists g db.

End Groups.

(* ================================================================== *)
(** ** Registration *)
(* ================================================================== *)

Module Auth.

Record Permissions := mkPermissions {
  canMonitor : bool;
  canRestart : bool;
  canViewLogs : bool;
  canManageServers : bool;
  canManageUsers : bool;
  canScheduleTasks : bool
}.

Definition all_permissions : Permissions :=
  {| canMonitor := true; canRestart := true; canViewLogs := true;
     canManageServers := true; canManageUsers := true; canScheduleTasks := true |}.

Definition default_permissions : Permissions :=
  {| canMonitor := true; canRestart := false; canViewLogs := true;
     canManageServers := false; canManageUsers := false; canScheduleTasks := false |}.

Record User := mkUser {
  u_id : Z;
  username : string;
  email : string;
  password : string;
  role : string;
  permissions : Permissions
}.

(** The request of POST /register: whether the validators passed, the
    body as the sanitizers left it, and the Authorization header. *)
Record Request := mkRequest {
  valid : bool;
  req_username : string;
  req_email : string;
  req_password : string;
  req_role : option string;
  req_permissions : option Permissions;
  authorization : option string
}.

Inductive Body :=
| Errors                                  (* { errors: errors.array() } *)
| ErrorBody (error : string)
| Created (userId : Z) (isFirstUser : bool).

Record Response := mkResponse {
  code : Z;
  body : Body
}.

(** The collaborators: [jwt.verify] gives the [role] of the decoded
    token (if it has one) or throws ([None]); [User.findOne] finds a user
    with that name or address, finds none, or fails; [bcrypt.hash]
    hashes; the store carries out [count] and [create] or fails. *)
Record Env := mkEnv {
  jwt_verify : string -> option (option string);
  findOne : string -> string -> outcome bool;
  bcrypt_hash : string -> string;
  count_error : option string;
  create_error : option string
}.

(** [s.split(' ')] *)
Fixpoint split_space_from (piece : string) (s : string) : list string :=
  match s with
  | EmptyString => [piece]
  | String c rest =>
      if Ascii.eqb c " "%char
      then piece :: split_space_from EmptyString rest
      else split_space_from (piece +++ String c EmptyString) rest
  end.

Definition split_space (s : string) : list string := split_space_from EmptyString s.

(** [authHeader && authHeader.split(' ')[1]], as a token or nothing:
    a missing header, a missing second piece and an empty second piece
    are all falsy. *)
Definition token_of (header : option string) : option string :=
  match header with
  | None => None
  | Some h =>
      if String.eqb h EmptyString then None
      else
        match nth_error (split_space h) 1 with
        | Some t => if String.eqb t EmptyString then None else Some t
        | None => None
        end
  end.

(** [decoded.role === expected]; a token without a role has none. *)
Definition role_is (expected : string) (decoded_role : option string) : bool :=
  match decoded_role with
  | Some r => String.eqb r expected
  | None => false
  end.

(** The key the store gives to a new row. *)
Definition next_id (users : list User) : Z :=
  1 + fold_right (fun u m => Z.max (u_id u) m) 0 users.

Definition register (env : Env) (req : Request) : M (list User) Response :=
  try_catch
    (if negb (valid req) then ret {| code := 400; body := Errors |}
     else
       userCount <- (match count_error env with
                     | Some m => throw m
                     | None => gets (fun users => List.length users)
                     end) ;;
       let isFirstUser := (userCount =? 0)%nat in
       let gate :=
         if isFirstUser then None
         else
           match token_of (authorization req) with
           | None => Some {| code := 401; body := ErrorBody "Admin access required" |}
           | Some token =>
               match jwt_verify env token with
               | Some decoded_role =>
                   if role_is "admin" decoded_role then None
                   else Some {| code := 403; body := ErrorBody "Admin access required" |}
               | None => Some {| code := 401; body := ErrorBody "Invalid token" |}
               end
           end in
       match gate with
       | Some refusal => ret refusal
       | None =>
           existingUser <- (match findOne env (req_username req) (req_email req) with
                            | Thrown m => throw m
                            | Returned found => ret found
                            end) ;;
           if (existingUser : bool) then
             ret {| code := 400; body := ErrorBody "User already exists" |}
           else
             let hashedPassword := bcrypt_hash env (req_password req) in
             match create_error env with
             | Some m => throw m
             | None =>
                 fun users =>
                   let user :=
                     {| u_id := next_id users;
                        username := req_username req;
                        email := req_email req;
                        password := hashedPassword;
                        role := if isFirstUser then "admin"
                                else or_string (req_role req) "user";
                        permissions :=
                          if isFirstUser then all_permissions
                          else match req_permissions req with
                               | Some p => p
                               | None => default_permissions
                               end |} in
                   (Returned {| code := 201; body := Created (u_id user) isFirstUser |},
                    users ++ [user])
             end
       end)
    (fun _ => ret {| code := 500; body := ErrorBody "Server error" |}).

(** The request carries a token that verifies as an administrator's. *)
Definition admin_token (env : Env) (req : Request) : Prop :=
  exists token,
    token_of (authorization req) = Some token
    /\ jwt_verify env token = Some (Some "admin").

End Auth.

(* ================================================================== *)
(** ** Sample data *)
(* ================================================================== *)

Module Samples.

Definition host (i : Z) (order delay : Z) (st : Status) (active : bool) : Server :=
  {| id := i;
     name := "srv" +++ number_to_string i;
     hostname := "srv" +++ number_to_string i +++ ".example";
     ipAddress := "192.168.1." +++ number_to_string (10 + i);
     port := 80; sshPort := Some 22; sshUser := Some "root";
     groupId := None; description := EmptyString;
     restartOrder := order; restartDelay := delay;
     isActive := active; status := st;
     lastPing := None; lastTelnet := None |}.

(** A batch of four hosts, given out of order. *)
Definition front : Server := host 1 3 0 Online true.
Definition database : Server := host 2 1 30 Online true.
Definition cache : Server := host 3 1 5 Online true.
Definition middleware : Server := host 4 2 0 Online true.

Definition batch : list Server := [front; database; cache; middleware].

Definition replies : process := [(40, Close (Some 0))].
Definition silent_host : process := [(3000, Close (Some 1))].
Definition drops : process := [(900, Close None)].
Definition denied : process := [(300, Stderr "Permission denied"); (310, Close (Some 1))].

(** The second host of the run does not answer the ping, the third
    refuses the session; the store accepts every update. *)
Definition restart_env : Restart.Env :=
  {| Restart.ping_run := fun k => if Nat.eqb k 1 then silent_host else replies;
     Restart.ssh_run := fun k => if Nat.eqb k 2 then denied else drops;
     Restart.store_update := fun _ => None;
     Restart.now := fun n => 1700000000000 + Z.of_nat n |}.

(** The same run with a store that is not reachable. *)
Definition store_down : Restart.Env :=
  {| Restart.ping_run := Restart.ping_run restart_env;
     Restart.ssh_run := Restart.ssh_run restart_env;
     Restart.store_update := fun _ => Some "connect ECONNREFUSED";
     Restart.now := Restart.now restart_env |}.

Definition running_log : Restart.RestartLog :=
  {| Restart.log_id := 7; Restart.log_status := Restart.Running;
     Restart.log_details := None; Restart.endTime := None |}.

(** Three rows of the servers table, the last one inactive. *)
Definition table : list Server :=
  [host 1 1 0 Online true; host 2 2 0 Unknown true; host 3 3 0 Online false].

Definition connects : socket_run := [(15, Connected)].
Definition refuses : socket_run := [(15, SockError "connect ECONNREFUSED")].

(** A sweep in which every host answers both probes. *)
Definition all_up : Monitoring.Env :=
  {| Monitoring.findAll_error := None;
     Monitoring.ping_run := fun _ => replies;
     Monitoring.telnet_run := fun _ => connects;
     Monitoring.update_error := fun _ => None;
     Monitoring.create_error := fun _ => None;
     Monitoring.mail_delivered := fun _ => true;
     Monitoring.now := fun n => 1700000000000 + 1000 * Z.of_nat n |}.

(** Host 1 answers the ping but its port is closed. *)
Definition one_down : Monitoring.Env :=
  {| Monitoring.findAll_error := None;
     Monitoring.ping_run := fun _ => replies;
     Monitoring.telnet_run := fun i => if i =? 1 then refuses else connects;
     Monitoring.update_error := fun _ => None;
     Monitoring.create_error := fun _ => None;
     Monitoring.mail_delivered := fun _ => false;
     Monitoring.now := fun n => 1700000060000 + 1000 * Z.of_nat n |}.



(** A browser one hour east of UTC, at 2023-11-14 22:13 UTC, and a
    request for 30 minutes later. *)
Definition zone : Z := 60.
Definition clock : Z := 1699999980000.

Definition request : Scheduler.FormData :=
  {| Scheduler.task_name := "Weekly server maintenance";
     Scheduler.serverIds := [1; 2];
     Scheduler.scheduledTime := Some (clock / 60000 + zone + 30);
     Scheduler.emailNotification := false;
     Scheduler.notificationEmails := [EmptyString] |}.

(** The sample batch after its run, and the order it was run in. *)
Definition order : list Server := Restart.sort Restart.compare_restartOrder batch.

Definition finished : Restart.State :=
  snd (Restart.run restart_env (Restart.Array batch) running_log true).

(** The sample table after a sweep that finds host 1 down. *)
Definition swept : Monitoring.State :=
  Monitoring.sweep one_down true (Monitoring.start table).


(** The [ssh] binary is missing on the machine that runs the batch. *)
Definition no_ssh : process := [(5, ProcError "spawn ssh ENOENT")].

Definition ssh_missing : Restart.Env :=
  {| Restart.ping_run := fun _ => replies;
     Restart.ssh_run := fun _ => no_ssh;
     Restart.store_update := fun _ => None;
     Restart.now := Restart.now restart_env |}.

(** A dashboard that shows the sample table. *)
Definition board : list Dashboard.Entry :=
  map (fun r => {| Dashboard.server := r; Dashboard.responseTime := None |}) table.

(** Every sweep finds the hosts up, except the second one. *)
Definition weather (n : nat) : Monitoring.Env :=
  if Nat.eqb n 1 then one_down else all_up.

(** A no-break space (U+00A0) and an ideographic space (U+3000), in
    UTF-8. *)
Definition nbsp : string :=
  String (ascii_of_nat 194) (String (ascii_of_nat 160) EmptyString).

Definition wide_space : string :=
  String (ascii_of_nat 227) (String (ascii_of_nat 128) (String (ascii_of_nat 128) EmptyString)).

(** A request made two hours ahead, with notifications on and five
    address fields of which one is filled in, and what is sent for it. *)
Definition request_with_mail : Scheduler.FormData :=
  {| Scheduler.task_name := "Patch night";
     Scheduler.serverIds := [1];
     Scheduler.scheduledTime := Some (clock / 60000 + zone + 120);
     Scheduler.emailNotification := true;
     Scheduler.notificationEmails :=
       ["ops@example.org"; " "; nbsp; " " +++ wide_space +++ nbsp; EmptyString] |}.

Definition mail_sent : Scheduler.FormData :=
  {| Scheduler.task_name := "Patch night";
     Scheduler.serverIds := [1];
     Scheduler.scheduledTime := Some (clock / 60000 + zone + 120);
     Scheduler.emailNotification := true;
     Scheduler.notificationEmails := ["ops@example.org"] |}.

(** Two groups; the one server belongs to the first. *)
Definition web_host : Server :=
  {| id := 1; name := "web1"; hostname := "web1.example";
     ipAddress := "192.168.1.11";
     port := 80; sshPort := Some 22; sshUser := Some "root";
     groupId := Some 1; description := EmptyString;
     restartOrder := 1; restartDelay := 0;
     isActive := true; status := Online;
     lastPing := None; lastTelnet := None |}.

Definition inventory : Groups.Db :=
  {| Groups.groups :=
       [ {| Groups.g_id := 1; Groups.g_name := "web"; Groups.g_description := EmptyString;
            Groups.g_color := "#3B82F6"; Groups.g_isActive := true |};
         {| Groups.g_id := 2; Groups.g_name := "lab"; Groups.g_description := EmptyString;
            Groups.g_color := "#3B82F6"; Groups.g_isActive := true |} ];
     Groups.servers := [web_host] |}.

Definition store_up : Groups.Env :=
  {| Groups.count_error := None; Groups.destroy_error := None |}.

End Samples.

(* ================================================================== *)
(** * Facts about the restart service *)
(* ================================================================== *)

Section RestartFacts.

Import Restart.

(** ** Promises always settle *)

Lemma settle_some {R : Type} (p : option R) (r : R) : settle p r <> None.
Proof. destruct p; discriminate. Qed.

Lemma timeline_has_timer {E : Type} (ceiling : Z) (p : list (Z * E)) :
  In Timer (timeline ceiling p).
Proof.
  induction p as [| [t e] rest IH]; simpl.
  - now left.
  - destruct (t <? ceiling); simpl; auto.
Qed.

Lemma ping_handler_keeps (l : list (tick proc_event)) (b : bool) :
  fold_left ping_handler l (Some b) = Some b.
Proof.
  induction l as [| e l IH]; simpl; [reflexivity |].
  destruct e as [[ | | | ] |]; simpl; exact IH.
Qed.

Lemma pingServer_settles (p : process) : pingServer_promise p <> None.
Proof.
  unfold pingServer_promise.
  destruct (in_split _ _ (timeline_has_timer 5000 p)) as (l1 & l2 & ->).
  rewrite fold_left_app. simpl.
  destruct (settle (fold_left ping_handler l1 None) false) eqn:E.
  - rewrite ping_handler_keeps. discriminate.
  - now apply settle_some in E.
Qed.

Lemma ssh_handler_keeps (l : list (tick proc_event)) (s : ssh_session) (r : outcome bool) :
  promise s = Some r -> promise (fold_left ssh_handler l s) = Some r.
Proof.
  revert s. induction l as [| e l IH]; intros s Hs; simpl; [exact Hs |].
  apply IH. destruct e as [[d | d | code | m] |]; simpl; try exact Hs.
  - destruct (code_is 0 code || code_is_null code || code_is 255 code);
      simpl; rewrite Hs; reflexivity.
  - rewrite Hs; reflexivity.
  - rewrite Hs; reflexivity.
Qed.

Lemma executeSSHReboot_settles (p : process) :
  promise (executeSSHReboot_session p) <> None.
Proof.
  unfold executeSSHReboot_session.
  destruct (in_split _ _ (timeline_has_timer ssh_ceiling p)) as (l1 & l2 & ->).
  rewrite fold_left_app. simpl.
  remember (fold_left ssh_handler l1 ssh_start) as s eqn:Hs. clear Hs.
  destruct (promise s) as [r |] eqn:E.
  - rewrite (ssh_handler_keeps l2 _ r); [discriminate | reflexivity].
  - rewrite (ssh_handler_keeps l2 _ (Thrown "SSH command timeout"));
      [discriminate | reflexivity].
Qed.

(** ** Sessions that stay quiet until something happens *)

Lemma timeline_quiet (ceiling : Z) (pre rest : process) :
  forallb (quiet ceiling) pre = true ->
  timeline ceiling (pre ++ rest)
  = map (fun te => Fired (snd te)) pre ++ timeline ceiling rest.
Proof.
  induction pre as [| [t e] pre IH]; simpl; intros H; [reflexivity |].
  apply andb_prop in H as [Hq Hpre]. unfold quiet in Hq. simpl in Hq.
  apply andb_prop in Hq as [Ht _]. rewrite Ht. simpl. now rewrite IH.
Qed.

Lemma timeline_late {E : Type} (ceiling : Z) (t : Z) (e : E) (rest : list (Z * E)) :
  ceiling <= t ->
  timeline ceiling ((t, e) :: rest)
  = Timer :: map (fun te => Fired (snd te)) ((t, e) :: rest).
Proof.
  intros H. cbn [timeline].
  assert (E0 : (t <? ceiling) = false) by (apply Z.ltb_ge; exact H).
  now rewrite E0.
Qed.

(** ** The pre-flight check

    The check passes exactly when the ping exits with code 0 before the
    watchdog of 5 s fires: another exit code, a spawn error or the
    watchdog give [false]. *)

Lemma ping_quiet (pre : process) (promise : option bool) :
  forallb (quiet 5000) pre = true ->
  fold_left ping_handler (map (fun te => Fired (snd te)) pre) promise = promise.
Proof.
  revert promise. induction pre as [| [t e] pre IH]; intros promise H;
    [reflexivity |].
  simpl in H. apply andb_prop in H as [Hq Hpre].
  unfold quiet in Hq. simpl in Hq. apply andb_prop in Hq as [_ Hq].
  cbn [map fold_left snd].
  destruct e; try discriminate; now apply IH.
Qed.

Lemma pingServer_exit (pre post : process) (t : Z) (code : option Z) :
  forallb (quiet 5000) pre = true ->
  t < 5000 ->
  pingServer (pre ++ (t, Close code) :: post) = code_is 0 code.
Proof.
  intros Hpre Ht. unfold pingServer, pingServer_promise.
  rewrite (timeline_quiet _ _ _ Hpre), fold_left_app, (ping_quiet _ _ Hpre).
  cbn [timeline]. apply Z.ltb_lt in Ht. rewrite Ht. cbn [fold_left ping_handler settle].
  now rewrite ping_handler_keeps.
Qed.

Lemma pingServer_spawn_error (pre post : process) (t : Z) (message : string) :
  forallb (quiet 5000) pre = true ->
  t < 5000 ->
  pingServer (pre ++ (t, ProcError message) :: post) = false.
Proof.
  intros Hpre Ht. unfold pingServer, pingServer_promise.
  rewrite (timeline_quiet _ _ _ Hpre), fold_left_app, (ping_quiet _ _ Hpre).
  cbn [timeline]. apply Z.ltb_lt in Ht. rewrite Ht. cbn [fold_left ping_handler settle].
  now rewrite ping_handler_keeps.
Qed.

Lemma pingServer_watchdog (pre late : process) :
  forallb (quiet 5000) pre = true ->
  starts_late 5000 late = true ->
  pingServer (pre ++ late) = false.
Proof.
  intros Hpre Hlate. unfold pingServer, pingServer_promise.
  rewrite (timeline_quiet _ _ _ Hpre), fold_left_app, (ping_quiet _ _ Hpre).
  destruct late as [| [t e] late]; [reflexivity |].
  simpl in Hlate. apply Z.leb_le in Hlate. rewrite (timeline_late _ _ _ _ Hlate).
  cbn [fold_left ping_handler settle]. now rewrite ping_handler_keeps.
Qed.

Lemma append_empty (s : string) : s +++ EmptyString = s.
Proof. induction s; simpl; congruence. Qed.

Lemma append_append (a b c : string) : (a +++ b) +++ c = a +++ (b +++ c).
Proof. induction a; simpl; congruence. Qed.

Lemma captured_stderr_from (pre : process) (acc : string) :
  fold_left (fun a te => match snd te with
                         | Stderr data => a +++ data
                         | _ => a
                         end) pre acc
  = acc +++ captured_stderr pre.
Proof.
  unfold captured_stderr. revert acc.
  induction pre as [| [t e] pre IH]; intros acc; simpl.
  - now rewrite append_empty.
  - rewrite (IH (match e with Stderr data => acc +++ data | _ => acc end)).
    rewrite (IH (match e with Stderr data => data | _ => EmptyString end)).
    destruct e; simpl; try reflexivity.
    now rewrite append_append.
Qed.

Lemma session_quiet (pre : process) (s : ssh_session) :
  forallb (quiet ssh_ceiling) pre = true ->
  promise (fold_left ssh_handler (map (fun te => Fired (snd te)) pre) s) = promise s
  /\ stderr (fold_left ssh_handler (map (fun te => Fired (snd te)) pre) s)
     = stderr s +++ captured_stderr pre.
Proof.
  revert s. induction pre as [| [t e] pre IH]; intros s H.
  - split; [reflexivity |]. unfold captured_stderr. simpl. now rewrite append_empty.
  - simpl in H. apply andb_prop in H as [Hq Hpre].
    unfold quiet in Hq. simpl in Hq. apply andb_prop in Hq as [_ Hq].
    cbn [map fold_left snd].
    destruct (IH (ssh_handler s (Fired e)) Hpre) as [Hp Hs].
    rewrite Hp, Hs. unfold captured_stderr at 2. cbn [fold_left snd].
    destruct e as [d | d | code | m]; try discriminate; simpl.
    + split; reflexivity.
    + split; [reflexivity |].
      rewrite captured_stderr_from. now rewrite append_append.
Qed.

Lemma session_after_quiet (pre rest : process) :
  forallb (quiet ssh_ceiling) pre = true ->
  exists s,
    executeSSHReboot_session (pre ++ rest)
    = fold_left ssh_handler (timeline ssh_ceiling rest) s
    /\ promise s = None /\ stderr s = captured_stderr pre.
Proof.
  intros H. unfold executeSSHReboot_session.
  rewrite (timeline_quiet _ _ _ H), fold_left_app.
  destruct (session_quiet pre ssh_start H) as [Hp Hs].
  eexists. split; [reflexivity |]. split; [exact Hp | exact Hs].
Qed.

(** C6. A reboot session that completes before the 15 s ceiling with exit
    code null or 255 (the connection dropped, the process was killed) is
    a success; a session in which nothing completes before the ceiling
    fails with the timeout error, also when the drop arrives afterwards;
    a session that completes in time with any other non-zero code fails,
    and the error carries the diagnostic output captured so far (the
    generic message with the exit code when none was captured). *)
Theorem ssh_completion_policy
    (server : Server) (pre post late : process) (t : Z) (code : option Z) (c : Z) :
  forallb (quiet ssh_ceiling) pre = true ->
  t < 15000 ->
  code = None \/ code = Some 255 ->
  starts_late ssh_ceiling late = true ->
  c <> 0 -> c <> 255 ->
  executeSSHReboot server (pre ++ (t, Close code) :: post) = Returned true
  /\ executeSSHReboot server (pre ++ late) = Thrown "SSH command timeout"
  /\ executeSSHReboot server (pre ++ (t, Close (Some c)) :: post)
     = Thrown (if String.eqb (captured_stderr pre) EmptyString
               then "SSH command failed with exit code " +++ number_to_string c
               else captured_stderr pre).
Proof.
  intros Hpre Ht Hcode Hlate Hc0 Hc255.
  assert (Htb : (t <? ssh_ceiling) = true) by (apply Z.ltb_lt; exact Ht).
  repeat split.
  - destruct (session_after_quiet pre ((t, Close code) :: post) Hpre)
      as (s & Hs & Hp & _).
    unfold executeSSHReboot. rewrite Hs. cbn [timeline]. rewrite Htb.
    cbn [fold_left].
    rewrite (ssh_handler_keeps _ _ (Returned true)); [reflexivity |].
    destruct Hcode as [-> | ->]; simpl; rewrite Hp; reflexivity.
  - destruct (session_after_quiet pre late Hpre) as (s & Hs & Hp & _).
    unfold executeSSHReboot. rewrite Hs.
    destruct late as [| [t' e'] late']; simpl in Hlate; cbn [timeline].
    + simpl. now rewrite Hp.
    + apply Z.leb_le in Hlate.
      assert (Hf : (t' <? ssh_ceiling) = false) by (apply Z.ltb_ge; exact Hlate).
      rewrite Hf. cbn [fold_left].
      rewrite (ssh_handler_keeps (map (fun te => Fired (snd te)) ((t', e') :: late'))
                 (ssh_handler s Timer) (Thrown "SSH command timeout"));
        [reflexivity |].
      simpl. now rewrite Hp.
  - destruct (session_after_quiet pre ((t, Close (Some c)) :: post) Hpre)
      as (s & Hs & Hp & Herr).
    unfold executeSSHReboot. rewrite Hs. cbn [timeline]. rewrite Htb.
    cbn [fold_left].
    erewrite ssh_handler_keeps; [reflexivity |].
    simpl.
    assert (H0 : (c =? 0) = false) by (apply Z.eqb_neq; exact Hc0).
    assert (H255 : (c =? 255) = false) by (apply Z.eqb_neq; exact Hc255).
    rewrite H0, H255. simpl. rewrite Hp, Herr. reflexivity.
Qed.

(** ** The program and its unfolded form agree *)

Lemma restart_one_run (env : Env) (io : bool) (logId : Z) (k : nat) (server : Server)
    (st : State) :
  restart_one env io logId k server st
  = (Returned tt,
     {| trace := trace st ++ iteration_events env io logId k server;
        details := fst (iteration_details env k server (details st, clock_reads st));
        restartLog := restartLog st;
        clock_reads := snd (iteration_details env k server (details st, clock_reads st)) |}).
Proof.
  unfold restart_one, iteration_events, iteration_details, host_failure,
    success_events, failure_events, await_ping, await_ssh, push_server,
    push_error, set_details, emit, record, new_Date, when, try_catch, bind,
    ret, throw, gets, modify.
  destruct (pingServer (ping_run env k)); simpl.
  - destruct (executeSSHReboot server (ssh_run env k)) as [b | m]; simpl.
    + destruct io, (0 <? restartDelay server); simpl;
        repeat rewrite <- app_assoc; reflexivity.
    + destruct io; simpl; repeat rewrite <- app_assoc; reflexivity.
  - destruct io; simpl; repeat rewrite <- app_assoc; reflexivity.
Qed.

Lemma restart_loop_run (env : Env) (io : bool) (logId : Z) (l : list Server) :
  forall (k : nat) (st : State),
    restart_loop env io logId k l st
    = (Returned tt,
       {| trace := trace st ++ loop_events env io logId k l;
          details := fst (loop_details env k l (details st, clock_reads st));
          restartLog := restartLog st;
          clock_reads := snd (loop_details env k l (details st, clock_reads st)) |}).
Proof.
  induction l as [| server rest IH]; intros k st.
  - simpl. rewrite app_nil_r. destruct st; reflexivity.
  - cbn [restart_loop loop_events loop_details]. unfold bind at 1.
    rewrite restart_one_run, IH. cbn [trace details clock_reads restartLog].
    rewrite <- app_assoc. rewrite <- surjective_pairing. reflexivity.
Qed.

Lemma restart_failed_run (env : Env) (io : bool) (logId : Z) (message : string)
    (st : State) :
  restart_failed env io logId message st
  = match store_update env (failure_patch env (clock_reads st) message) with
    | None =>
        (Returned tt,
         {| trace := trace st ++ uncaught message
                     :: Update (failure_patch env (clock_reads st) message)
                     :: failed_events io logId message;
            details := details st;
            restartLog := apply_patch (failure_patch env (clock_reads st) message)
                            (restartLog st);
            clock_reads := S (clock_reads st) |})
    | Some m' =>
        (Thrown m',
         {| trace := trace st ++ [uncaught message;
                                  Update (failure_patch env (clock_reads st) message)];
            details := details st;
            restartLog := restartLog st;
            clock_reads := S (clock_reads st) |})
    end.
Proof.
  unfold restart_failed, update, emit, record, new_Date, when, bind, ret, throw,
    modify, failure_patch, failed_events. simpl.
  destruct (store_update env _) as [m' |]; simpl.
  - rewrite <- app_assoc. reflexivity.
  - destruct io; simpl; repeat rewrite <- app_assoc; reflexivity.
Qed.

(** The state in which the loop leaves a batch. *)
Lemma restart_all_run (env : Env) (l : list Server) (io : bool) (rl : RestartLog) :
  restart_all env (Array l) io (log_id rl) (initial rl)
  = let order := sort compare_restartOrder l in
    let t := started_events io (log_id rl)
             ++ loop_events env io (log_id rl) 0 order
             ++ [Update (completion_patch env order)] in
    match store_update env (completion_patch env order) with
    | None =>
        (Returned tt,
         {| trace := t ++ completed_events io (log_id rl) (fst (loop_result env order));
            details := fst (loop_result env order);
            restartLog := apply_patch (completion_patch env order) rl;
            clock_reads := S (snd (loop_result env order)) |})
    | Some m =>
        (Thrown m,
         {| trace := t;
            details := fst (loop_result env order);
            restartLog := rl;
            clock_reads := S (snd (loop_result env order)) |})
    end.
Proof.
  unfold restart_all, sort_servers, set_details.
  unfold bind at 1. unfold modify at 1. unfold bind at 1. unfold ret at 1.
  unfold bind at 1.
  assert (E : emit io {| rs_logId := log_id rl; rs_serverId := None;
                         rs_status := PhaseStarted;
                         rs_message := "Restart process initiated";
                         rs_details := None |}
                (Restart.mkState (trace (initial rl))
                   {| servers := []; errors := [] |}
                   (restartLog (initial rl)) (clock_reads (initial rl)))
              = (Returned tt,
                 Restart.mkState (started_events io (log_id rl))
                   {| servers := []; errors := [] |} rl 0%nat)).
  { unfold emit, started_events, when, record, modify, ret.
    destruct io; reflexivity. }
  rewrite E. unfold bind at 1. rewrite restart_loop_run.
  cbn [trace details restartLog clock_reads].
  fold (loop_result env (sort compare_restartOrder l)).
  unfold update, emit, record, new_Date, when, bind, ret, throw, modify, gets,
    completion_patch, completed_events.
  cbn [trace details restartLog clock_reads].
  destruct (store_update env _) as [m |]; cbn [trace details restartLog clock_reads].
  - repeat rewrite <- app_assoc. reflexivity.
  - destruct io; cbn [trace details restartLog clock_reads];
      repeat rewrite <- app_assoc; try rewrite app_nil_r; reflexivity.
Qed.

(** ** What a trace shows *)

Lemma pings_app (a b : list event) : pings (a ++ b) = pings a ++ pings b.
Proof. apply flat_map_app. Qed.

Lemma ssh_calls_app (a b : list event) : ssh_calls (a ++ b) = ssh_calls a ++ ssh_calls b.
Proof. apply flat_map_app. Qed.

Lemma sleeps_app (a b : list event) : sleeps (a ++ b) = sleeps a ++ sleeps b.
Proof. apply flat_map_app. Qed.

Lemma concluding_silent (t : list event) :
  forallb concluding t = true ->
  pings t = [] /\ ssh_calls t = [] /\ sleeps t = [].
Proof.
  induction t as [| e t IH]; simpl; intros H; [auto |].
  apply andb_prop in H as [He Ht]. destruct (IH Ht) as (Hp & Hs & Hz).
  destruct e; simpl in *; try discriminate; auto.
Qed.

Lemma started_concluding (io : bool) (logId : Z) :
  forallb concluding (started_events io logId) = true.
Proof. destruct io; reflexivity. Qed.

Lemma iteration_pings (env : Env) (io : bool) (logId : Z) (k : nat) (s : Server) :
  pings (iteration_events env io logId k s) = [ipAddress s].
Proof.
  unfold iteration_events, success_events, failure_events, host_failure.
  destruct (pingServer (ping_run env k)); simpl.
  - destruct (executeSSHReboot s (ssh_run env k)); simpl;
      destruct io; simpl; try reflexivity;
      destruct (0 <? restartDelay s); reflexivity.
  - destruct io; reflexivity.
Qed.

Lemma iteration_ssh_calls (env : Env) (io : bool) (logId : Z) (k : nat) (s : Server) :
  ssh_calls (iteration_events env io logId k s)
  = if pingServer (ping_run env k) then [s] else [].
Proof.
  unfold iteration_events, success_events, failure_events, host_failure.
  destruct (pingServer (ping_run env k)); simpl.
  - destruct (executeSSHReboot s (ssh_run env k)); simpl;
      destruct io; simpl; try reflexivity;
      destruct (0 <? restartDelay s); reflexivity.
  - destruct io; reflexivity.
Qed.

Lemma iteration_sleeps (env : Env) (io : bool) (logId : Z) (k : nat) (s : Server) :
  sleeps (iteration_events env io logId k s) = pause_of env (k, s).
Proof.
  unfold iteration_events, success_events, failure_events, pause_of, host_failure.
  simpl.
  destruct (pingServer (ping_run env k)); simpl.
  - destruct (executeSSHReboot s (ssh_run env k)); simpl;
      destruct io; simpl; try reflexivity;
      destruct (0 <? restartDelay s); reflexivity.
  - destruct io; reflexivity.
Qed.

Lemma numbered_cons (k : nat) (s : Server) (l : list Server) :
  numbered k (s :: l) = (k, s) :: numbered (S k) l.
Proof. reflexivity. Qed.

Lemma loop_pings (env : Env) (io : bool) (logId : Z) (l : list Server) :
  forall k, pings (loop_events env io logId k l) = map ipAddress l.
Proof.
  induction l as [| s l IH]; intros k; [reflexivity |].
  cbn [loop_events map].
  now rewrite pings_app, iteration_pings, IH.
Qed.

Lemma loop_ssh_calls (env : Env) (io : bool) (logId : Z) (l : list Server) :
  forall k,
    ssh_calls (loop_events env io logId k l)
    = flat_map (fun ks => if pingServer (ping_run env (fst ks)) then [snd ks] else [])
        (numbered k l).
Proof.
  induction l as [| s l IH]; intros k; [reflexivity |].
  rewrite numbered_cons. cbn [loop_events flat_map fst snd].
  now rewrite ssh_calls_app, iteration_ssh_calls, IH.
Qed.

Lemma loop_sleeps (env : Env) (io : bool) (logId : Z) (l : list Server) :
  forall k,
    sleeps (loop_events env io logId k l) = flat_map (pause_of env) (numbered k l).
Proof.
  induction l as [| s l IH]; intros k; [reflexivity |].
  rewrite numbered_cons. cbn [loop_events flat_map].
  now rewrite sleeps_app, iteration_sleeps, IH.
Qed.

Lemma loop_events_split (env : Env) (io : bool) (logId : Z) (l : list Server) :
  forall k j s,
    nth_error l j = Some s ->
    loop_events env io logId k l
    = loop_events env io logId k (firstn j l)
      ++ iteration_events env io logId (k + j) s
      ++ loop_events env io logId (S (k + j)) (skipn (S j) l).
Proof.
  induction l as [| x l IH]; intros k j s H.
  - destruct j; discriminate.
  - destruct j as [| j]; simpl in H.
    + injection H as ->. simpl. now rewrite Nat.add_0_r.
    + cbn [firstn skipn loop_events]. rewrite (IH (S k) j s H).
      rewrite <- app_assoc. now rewrite Nat.add_succ_r.
Qed.

Lemma loop_errors (env : Env) (l : list Server) :
  forall k dn,
    errors (fst (loop_details env k l dn))
    = errors (fst dn) ++ flat_map (error_of env) (numbered k l).
Proof.
  induction l as [| s l IH]; intros k dn.
  - simpl. now rewrite app_nil_r.
  - rewrite numbered_cons. cbn [loop_details flat_map]. rewrite IH.
    unfold iteration_details, error_of. cbn [fst snd].
    destruct (host_failure env k s); cbn [fst snd errors];
      now rewrite <- ?app_assoc.
Qed.

Lemma loop_entries (env : Env) (l : list Server) :
  forall k dn,
    (List.length (servers (fst (loop_details env k l dn)))
     + List.length (errors (fst (loop_details env k l dn))))%nat
    = (List.length (servers (fst dn)) + List.length (errors (fst dn))
       + List.length l)%nat.
Proof.
  induction l as [| s l IH]; intros k dn.
  - simpl. lia.
  - cbn [loop_details]. rewrite IH. unfold iteration_details.
    destruct (host_failure env k s); cbn [fst snd servers errors];
      rewrite length_app; simpl; lia.
Qed.

Lemma nth_error_numbered (l : list Server) :
  forall k j s, nth_error l j = Some s -> In ((k + j)%nat, s) (numbered k l).
Proof.
  induction l as [| x l IH]; intros k j s H.
  - destruct j; discriminate.
  - rewrite numbered_cons. destruct j as [| j]; simpl in H.
    + injection H as ->. left. now rewrite Nat.add_0_r.
    + right. rewrite Nat.add_succ_r. apply (IH (S k) j s H).
Qed.

(** ** Pre-flight comes first *)

Lemma no_ssh_preflight_first (t : list event) :
  ssh_calls t = [] -> preflight_first t.
Proof.
  intros H pre s post E. subst t. rewrite ssh_calls_app in H. simpl in H.
  destruct (ssh_calls pre); discriminate.
Qed.

Lemma preflight_first_app (a b : list event) :
  preflight_first a -> preflight_first b ->
  (forall s rest, b <> Ssh s :: rest) ->
  preflight_first (a ++ b).
Proof.
  intros Ha Hb Hhead pre s post E.
  apply app_eq_app in E as [l [[E1 E2] | [E1 E2]]].
  - destruct l as [| e l].
    + simpl in E2. symmetry in E2. now apply Hhead in E2.
    + simpl in E2. injection E2 as <- E2. subst a.
      apply (Ha pre s l). now rewrite app_nil_r || reflexivity.
  - destruct (Hb l s post E2) as [pre' ->]. subst pre.
    exists (a ++ pre'). now rewrite app_assoc.
Qed.

Lemma iteration_preflight_first (env : Env) (io : bool) (logId : Z) (k : nat)
    (server : Server) :
  preflight_first (iteration_events env io logId k server).
Proof.
  intros pre s post E.
  assert (C := f_equal ssh_calls E).
  rewrite iteration_ssh_calls, ssh_calls_app in C. cbn [ssh_calls flat_map] in C.
  unfold iteration_events in E.
  destruct pre as [| e1 [| e2 pre]]; simpl in E; try discriminate.
  injection E as <- <- E.
  destruct (pingServer (ping_run env k)).
  - simpl in E. destruct pre as [| e3 pre]; simpl in E.
    + injection E as <- _. exists [Log (Info ("Restarting server: " +++ name server
                                               +++ " (" +++ hostname server +++ ")"))].
      reflexivity.
    + injection E as <- _. simpl in C. injection C as C.
      destruct (ssh_calls pre); discriminate.
  - simpl in C. fold (ssh_calls pre) in C. destruct (ssh_calls pre); discriminate.
Qed.

Lemma loop_head (env : Env) (io : bool) (logId : Z) (k : nat) (l : list Server) :
  forall s rest, loop_events env io logId k l <> Ssh s :: rest.
Proof. intros s rest. destruct l; discriminate. Qed.

Lemma loop_preflight_first (env : Env) (io : bool) (logId : Z) (l : list Server) :
  forall k, preflight_first (loop_events env io logId k l).
Proof.
  induction l as [| s l IH]; intros k.
  - now apply no_ssh_preflight_first.
  - cbn [loop_events]. apply preflight_first_app.
    + apply iteration_preflight_first.
    + apply IH.
    + apply loop_head.
Qed.

(** ** A whole run *)

Lemma run_array (env : Env) (l : list Server) (rl : RestartLog) (io : bool) :
  run env (Array l) rl io
  = match restart_all env (Array l) io (log_id rl) (initial rl) with
    | (Returned a, st) => (Returned a, st)
    | (Thrown m, st) => restart_failed env io (log_id rl) m st
    end.
Proof. reflexivity. Qed.

Lemma run_shape (env : Env) (l : list Server) (rl : RestartLog) (io : bool) :
  exists tail,
    trace (snd (run env (Array l) rl io))
    = started_events io (log_id rl)
      ++ loop_events env io (log_id rl) 0 (sort compare_restartOrder l)
      ++ tail
    /\ forallb concluding tail = true
    /\ details (snd (run env (Array l) rl io))
       = fst (loop_result env (sort compare_restartOrder l)).
Proof.
  rewrite run_array, restart_all_run. cbv zeta.
  destruct (store_update env (completion_patch env _)) as [m |].
  - rewrite restart_failed_run. cbn [trace details clock_reads restartLog].
    destruct (store_update env (failure_patch env _ m)) as [m' |];
      cbn [snd trace details].
    + eexists. repeat rewrite <- app_assoc. split; [reflexivity |].
      split; reflexivity.
    + eexists. repeat rewrite <- app_assoc. split; [reflexivity |].
      split; [| reflexivity]. unfold failed_events. destruct io; reflexivity.
  - cbn [snd trace details]. eexists. repeat rewrite <- app_assoc.
    split; [reflexivity |]. split; [| reflexivity].
    unfold completed_events. destruct io; reflexivity.
Qed.

(** ** The sort *)

Lemma insert_perm (x : Server) (l : list Server) :
  Permutation (x :: l) (insert compare_restartOrder x l).
Proof.
  induction l as [| y l IH]; simpl; [apply Permutation_refl |].
  destruct (compare_restartOrder x y <=? 0).
  - apply Permutation_refl.
  - eapply Permutation_trans; [apply perm_swap |]. now apply perm_skip.
Qed.

Lemma sort_perm (l : list Server) : Permutation l (sort compare_restartOrder l).
Proof.
  induction l as [| x l IH]; simpl; [constructor |].
  eapply Permutation_trans; [apply perm_skip, IH | apply insert_perm].
Qed.

Lemma insert_sorted (x : Server) (l : list Server) :
  StronglySorted by_restartOrder l ->
  StronglySorted by_restartOrder (insert compare_restartOrder x l).
Proof.
  induction l as [| y l IH]; intros H; simpl.
  - repeat constructor.
  - apply StronglySorted_inv in H as [Hl Hy].
    unfold compare_restartOrder at 1.
    destruct (restartOrder x - restartOrder y <=? 0) eqn:E.
    + apply Z.leb_le in E. constructor.
      * constructor; assumption.
      * constructor; [unfold by_restartOrder; lia |].
        eapply Forall_impl; [| exact Hy]. unfold by_restartOrder. intros; lia.
    + apply Z.leb_gt in E. constructor; [now apply IH |].
      eapply Permutation_Forall; [apply insert_perm |].
      constructor; [unfold by_restartOrder; lia | exact Hy].
Qed.

Lemma sort_sorted (l : list Server) :
  StronglySorted by_restartOrder (sort compare_restartOrder l).
Proof.
  induction l as [| x l IH]; simpl; [constructor | now apply insert_sorted].
Qed.

Lemma insert_stable (p : Z) (x : Server) (l : list Server) :
  filter (has_restartOrder p) (insert compare_restartOrder x l)
  = filter (has_restartOrder p) (x :: l).
Proof.
  induction l as [| y l IH]; [reflexivity |].
  cbn [insert]. unfold compare_restartOrder at 1.
  destruct (restartOrder x - restartOrder y <=? 0) eqn:E; [reflexivity |].
  apply Z.leb_gt in E. cbn [filter] in *. rewrite IH.
  unfold has_restartOrder.
  destruct (restartOrder x =? p) eqn:Ex, (restartOrder y =? p) eqn:Ey;
    try reflexivity.
  apply Z.eqb_eq in Ex, Ey. lia.
Qed.

Lemma sort_stable (p : Z) (l : list Server) :
  filter (has_restartOrder p) (sort compare_restartOrder l)
  = filter (has_restartOrder p) l.
Proof.
  induction l as [| x l IH]; [reflexivity |].
  cbn [sort]. rewrite insert_stable. cbn [filter]. now rewrite IH.
Qed.

(** There is only one sorted arrangement that keeps the input order
    within each priority: whatever algorithm the engine's stable sort
    uses, its result is [sort compare_restartOrder]. *)
Lemma stable_sorted_unique (l1 : list Server) :
  forall l2,
    StronglySorted by_restartOrder l1 ->
    StronglySorted by_restartOrder l2 ->
    (forall p, filter (has_restartOrder p) l1 = filter (has_restartOrder p) l2) ->
    l1 = l2.
Proof.
  assert (Hself : forall y, has_restartOrder (restartOrder y) y = true)
    by (intros y; apply Z.eqb_refl).
  induction l1 as [| x l1 IH]; intros l2 S1 S2 H.
  - destruct l2 as [| y l2]; [reflexivity |].
    specialize (H (restartOrder y)). cbn [filter] in H. rewrite Hself in H.
    discriminate.
  - destruct l2 as [| y l2].
    + specialize (H (restartOrder x)). cbn [filter] in H. rewrite Hself in H.
      discriminate.
    + apply StronglySorted_inv in S1 as [S1 F1].
      apply StronglySorted_inv in S2 as [S2 F2].
      assert (Hyx : restartOrder y <= restartOrder x).
      { assert (Hin : In x (filter (has_restartOrder (restartOrder x)) (y :: l2))).
        { rewrite <- H. cbn [filter]. rewrite Hself. now left. }
        apply filter_In in Hin as [[-> | Hin] _]; [lia |].
        rewrite Forall_forall in F2. exact (F2 x Hin). }
      assert (Hxy : restartOrder x <= restartOrder y).
      { assert (Hin : In y (filter (has_restartOrder (restartOrder y)) (x :: l1))).
        { rewrite H. cbn [filter]. rewrite Hself. now left. }
        apply filter_In in Hin as [[-> | Hin] _]; [lia |].
        rewrite Forall_forall in F1. exact (F1 y Hin). }
      assert (Hk : restartOrder y = restartOrder x) by lia.
      assert (Hhead := H (restartOrder x)). cbn [filter] in Hhead.
      rewrite Hself in Hhead. rewrite <- Hk in Hhead at 2. rewrite Hself in Hhead.
      injection Hhead as -> Htail. f_equal. apply IH; try assumption.
      intros p. specialize (H p). cbn [filter] in H.
      destruct (has_restartOrder p y); [now injection H | exact H].
Qed.

Lemma run_pings (env : Env) (l : list Server) (rl : RestartLog) (io : bool) :
  pings (trace (snd (run env (Array l) rl io)))
  = map ipAddress (sort compare_restartOrder l).
Proof.
  destruct (run_shape env l rl io) as (tail & -> & Htail & _).
  rewrite !pings_app, loop_pings.
  destruct (concluding_silent _ Htail) as (-> & _).
  destruct (concluding_silent _ (started_concluding io (log_id rl))) as (-> & _).
  now rewrite app_nil_r.
Qed.

(** C8. The hosts of a batch get their pre-flight, hence are processed,
    in the order that [servers.sort] produces: a rearrangement of the
    input that is non-decreasing in [restartOrder] and in which the hosts
    of any one priority keep the relative order they had in the input. *)
Theorem batch_order_sorted_and_stable
    (env : Env) (l : list Server) (rl : RestartLog) (io : bool) :
  let order := sort compare_restartOrder l in
  pings (trace (snd (run env (Array l) rl io))) = map ipAddress order
  /\ StronglySorted by_restartOrder order
  /\ Permutation l order
  /\ forall p, filter (has_restartOrder p) order = filter (has_restartOrder p) l.
Proof.
  cbv zeta. split; [apply run_pings |].
  split; [apply sort_sorted |].
  split; [apply sort_perm |].
  intros p. apply sort_stable.
Qed.

(** C5. In every batch each host gets its pre-flight check, in batch
    order; the reboot command is invoked exactly for the hosts whose
    pre-flight passed, once each, and every invocation comes right after
    the pre-flight of that host; a host whose pre-flight failed is
    recorded in [details.errors] as not reachable. *)
Theorem preflight_guards_reboot
    (env : Env) (l : list Server) (rl : RestartLog) (io : bool) :
  let order := sort compare_restartOrder l in
  let st := snd (run env (Array l) rl io) in
  pings (trace st) = map ipAddress order
  /\ ssh_calls (trace st)
     = flat_map (fun ks => if pingServer (ping_run env (fst ks)) then [snd ks] else [])
         (numbered 0 order)
  /\ preflight_first (trace st)
  /\ forall k s,
       nth_error order k = Some s ->
       pingServer (ping_run env k) = false ->
       In {| serverId := id s; serverName := name s;
             error := "Server " +++ ipAddress s +++ " is not reachable via ping" |}
          (errors (details st)).
Proof.
  cbv zeta. split; [apply run_pings |].
  destruct (run_shape env l rl io) as (tail & Ht & Htail & Hd).
  destruct (concluding_silent _ Htail) as (_ & Hssh & _).
  destruct (concluding_silent _ (started_concluding io (log_id rl))) as (_ & Hs0 & _).
  split; [| split].
  - rewrite Ht, !ssh_calls_app, loop_ssh_calls, Hssh, Hs0, app_nil_r. reflexivity.
  - rewrite Ht. apply preflight_first_app.
    + now apply no_ssh_preflight_first.
    + apply preflight_first_app.
      * apply loop_preflight_first.
      * now apply no_ssh_preflight_first.
      * intros s rest E. rewrite E in Hssh. discriminate.
    + intros s rest E.
      destruct (sort compare_restartOrder l) as [| x order].
      * simpl in E. rewrite E in Hssh. discriminate.
      * discriminate.
  - intros k s Hk Hping. rewrite Hd. unfold loop_result.
    rewrite loop_errors. cbn [fst errors app].
    apply in_flat_map. exists (k, s). split.
    + apply (nth_error_numbered _ 0%nat k s Hk).
    + unfold error_of, host_failure. cbn [fst snd]. rewrite Hping. now left.
Qed.

(** ** Failures inside a batch *)

Lemma firstn_succ (l : list Server) :
  forall k s, nth_error l k = Some s -> firstn (S k) l = firstn k l ++ [s].
Proof.
  induction l as [| x l IH]; intros k s H.
  - destruct k; discriminate.
  - destruct k as [| k]; simpl in H.
    + now injection H as ->.
    + cbn [firstn app]. f_equal. now apply IH.
Qed.

Lemma iteration_failure_split (env : Env) (io : bool) (logId : Z) (k : nat)
    (s : Server) (m : string) :
  host_failure env k s = Some m ->
  exists a b,
    iteration_events env io logId k s
    = a ++ Log (Error ("Failed to restart " +++ name s +++ ":") m) :: b
    /\ pings a = [ipAddress s] /\ pings b = [].
Proof.
  intros H. unfold iteration_events. rewrite H. unfold failure_events.
  exists (Log (Info ("Restarting server: " +++ name s +++ " (" +++ hostname s +++ ")"))
          :: Ping (ipAddress s)
          :: (if pingServer (ping_run env k) then [Ssh s] else [])).
  eexists. split; [reflexivity |].
  split.
  - destruct (pingServer (ping_run env k)); reflexivity.
  - destruct io; reflexivity.
Qed.

Lemma iteration_success_split (env : Env) (io : bool) (logId : Z) (k : nat) (s : Server) :
  host_failure env k s = None ->
  0 < restartDelay s ->
  exists a,
    iteration_events env io logId k s = a ++ [Sleep (restartDelay s * 1000)]
    /\ pings a = [ipAddress s].
Proof.
  intros H Hd. unfold iteration_events. rewrite H. unfold success_events.
  apply Z.ltb_lt in Hd. rewrite Hd.
  exists (Log (Info ("Restarting server: " +++ name s +++ " (" +++ hostname s +++ ")"))
          :: Ping (ipAddress s)
          :: (if pingServer (ping_run env k) then [Ssh s] else [])
             ++ (if io then
                   [Emit {| rs_logId := logId; rs_serverId := Some (id s);
                            rs_status := PhaseRestarted;
                            rs_message := "Server " +++ name s
                                          +++ " restart command sent successfully";
                            rs_details := None |}]
                 else [])
             ++ [Log (Info ("Waiting " +++ number_to_string (restartDelay s)
                            +++ " seconds before next server..."))]).
  split.
  - cbn [app]. repeat rewrite <- app_assoc. reflexivity.
  - destruct (pingServer (ping_run env k)), io; reflexivity.
Qed.

(** The trace of a run, cut around the iteration of the [k]-th host. *)
Lemma run_around (env : Env) (l : list Server) (rl : RestartLog) (io : bool)
    (k : nat) (s : Server) :
  nth_error (sort compare_restartOrder l) k = Some s ->
  exists before after,
    trace (snd (run env (Array l) rl io))
    = before ++ iteration_events env io (log_id rl) k s ++ after
    /\ pings before = map ipAddress (firstn k (sort compare_restartOrder l))
    /\ pings after = map ipAddress (skipn (S k) (sort compare_restartOrder l)).
Proof.
  intros Hk. destruct (run_shape env l rl io) as (tail & Ht & Htail & _).
  rewrite (loop_events_split env io (log_id rl) _ 0%nat k s Hk) in Ht.
  cbn [Nat.add] in Ht.
  exists (started_events io (log_id rl)
          ++ loop_events env io (log_id rl) 0 (firstn k (sort compare_restartOrder l))).
  exists (loop_events env io (log_id rl) (S k) (skipn (S k) (sort compare_restartOrder l))
          ++ tail).
  split; [rewrite Ht; now repeat rewrite <- app_assoc |].
  destruct (concluding_silent _ Htail) as (Hp & _).
  destruct (concluding_silent _ (started_concluding io (log_id rl))) as (Hp0 & _).
  rewrite !pings_app, !loop_pings, Hp, Hp0, app_nil_r. split; reflexivity.
Qed.

(** C9. When the restart of a host fails (its pre-flight, the reboot
    command, or the timeout), the failure is recorded for that host in
    [details.errors], and after the failure has been logged every later
    host of the batch still gets its pre-flight, in batch order; every
    host of the batch ends with one entry, a success or an error. *)
Theorem failure_does_not_stop_batch
    (env : Env) (l : list Server) (rl : RestartLog) (io : bool)
    (k : nat) (s : Server) (m : string) :
  let order := sort compare_restartOrder l in
  let st := snd (run env (Array l) rl io) in
  nth_error order k = Some s ->
  host_failure env k s = Some m ->
  In {| serverId := id s; serverName := name s; error := m |} (errors (details st))
  /\ (exists pre post,
        trace st = pre ++ Log (Error ("Failed to restart " +++ name s +++ ":") m) :: post
        /\ pings pre = map ipAddress (firstn (S k) order)
        /\ pings post = map ipAddress (skipn (S k) order))
  /\ (List.length (servers (details st)) + List.length (errors (details st)))%nat
     = List.length order.
Proof.
  cbv zeta. intros Hk Hfail.
  destruct (run_shape env l rl io) as (tail & _ & _ & Hd).
  split; [| split].
  - rewrite Hd. unfold loop_result. rewrite loop_errors. cbn [fst errors app].
    apply in_flat_map. exists (k, s). split.
    + apply (nth_error_numbered _ 0%nat k s Hk).
    + unfold error_of. cbn [fst snd]. rewrite Hfail. now left.
  - destruct (run_around env l rl io k s Hk) as (before & after & Ht & Hb & Ha).
    destruct (iteration_failure_split env io (log_id rl) k s m Hfail)
      as (a & b & Hi & Hpa & Hpb).
    exists (before ++ a), (b ++ after). split; [| split].
    + rewrite Ht, Hi. repeat rewrite <- app_assoc. reflexivity.
    + rewrite pings_app, Hb, Hpa, (firstn_succ _ k s Hk), map_app. reflexivity.
    + rewrite pings_app, Hpb, Ha. reflexivity.
  - rewrite Hd. unfold loop_result. rewrite loop_entries. reflexivity.
Qed.

(** C3, as the code has it.  The pauses of a batch, whatever its hosts,
    are exactly those of the hosts that were restarted, in order, so a
    host whose restart failed is followed by none; and a host with a
    positive [restartDelay] whose restart went through is followed by a
    pause of exactly [restartDelay] seconds (a timer of
    [restartDelay * 1000] ms), placed after its own pre-flight and before
    the pre-flight of every later host. *)
Theorem pause_follows_successful_restart
    (env : Env) (l : list Server) (rl : RestartLog) (io : bool) :
  let order := sort compare_restartOrder l in
  let st := snd (run env (Array l) rl io) in
  sleeps (trace st) = flat_map (pause_of env) (numbered 0 order)
  /\ forall (k : nat) (s : Server),
       nth_error order k = Some s ->
       0 < restartDelay s ->
       host_failure env k s = None ->
       exists pre post,
         trace st = pre ++ Sleep (restartDelay s * 1000) :: post
         /\ pings pre = map ipAddress (firstn (S k) order)
         /\ pings post = map ipAddress (skipn (S k) order).
Proof.
  cbv zeta. split.
  - destruct (run_shape env l rl io) as (tail & -> & Htail & _).
    destruct (concluding_silent _ Htail) as (_ & _ & Hz).
    destruct (concluding_silent _ (started_concluding io (log_id rl))) as (_ & _ & Hz0).
    rewrite !sleeps_app, loop_sleeps, Hz, Hz0, app_nil_r. reflexivity.
  - intros k s Hk Hdelay Hok.
    destruct (run_around env l rl io k s Hk) as (before & after & Ht & Hb & Ha).
    destruct (iteration_success_split env io (log_id rl) k s Hok Hdelay)
      as (a & Hi & Hpa).
    exists (before ++ a), after. split; [| split].
    + rewrite Ht, Hi. repeat rewrite <- app_assoc. reflexivity.
    + rewrite pings_app, Hb, Hpa, (firstn_succ _ k s Hk), map_app. reflexivity.
    + exact Ha.
Qed.

(** ** How a batch ends *)

Lemma iteration_no_uncaught (env : Env) (io : bool) (logId : Z) (k : nat) (s : Server)
    (m : string) :
  ~ In (uncaught m) (iteration_events env io logId k s).
Proof.
  unfold iteration_events, success_events, failure_events, uncaught.
  destruct (pingServer (ping_run env k)), (host_failure env k s), io,
    (0 <? restartDelay s); simpl; intuition discriminate.
Qed.

Lemma loop_no_uncaught (env : Env) (io : bool) (logId : Z) (l : list Server) (m : string) :
  forall k, ~ In (uncaught m) (loop_events env io logId k l).
Proof.
  induction l as [| s l IH]; intros k H; [exact H |].
  cbn [loop_events] in H. apply in_app_or in H as [H | H].
  - now apply iteration_no_uncaught in H.
  - now apply IH in H.
Qed.

Lemma run_not_array (env : Env) (typeError : string) (rl : RestartLog) (io : bool) :
  run env (NotArray typeError) rl io
  = restart_failed env io (log_id rl) typeError (initial rl).
Proof. reflexivity. Qed.

Lemma final_status_completed (d : Details) :
  final_status d = Completed <-> List.length (errors d) = 0%nat.
Proof.
  unfold final_status. destruct (List.length (errors d)); simpl; split;
    intros H; (reflexivity || discriminate).
Qed.

Lemma final_status_failed (d : Details) :
  final_status d = Failed <-> List.length (errors d) <> 0%nat.
Proof.
  unfold final_status. destruct (List.length (errors d)); simpl; split;
    intros H; try reflexivity; try discriminate; try congruence.
Qed.

Lemma updates_app (a b : list event) : updates (a ++ b) = updates a ++ updates b.
Proof. unfold updates. apply flat_map_app. Qed.

Lemma iteration_updates (env : Env) (io : bool) (logId : Z) (k : nat) (s : Server) :
  updates (iteration_events env io logId k s) = [].
Proof.
  unfold iteration_events, success_events, failure_events.
  destruct (pingServer (ping_run env k)); destruct (host_failure env k s);
    destruct io; destruct (0 <? restartDelay s); reflexivity.
Qed.

Lemma loop_updates (env : Env) (io : bool) (logId : Z) (l : list Server) :
  forall k, updates (loop_events env io logId k l) = [].
Proof.
  induction l as [| s l IH]; intros k; [reflexivity |].
  cbn [loop_events]. now rewrite updates_app, iteration_updates, IH.
Qed.

Lemma started_updates (io : bool) (logId : Z) : updates (started_events io logId) = [].
Proof. now destruct io. Qed.

Lemma failed_updates (io : bool) (logId : Z) (m : string) :
  updates (failed_events io logId m) = [].
Proof. now destruct io. Qed.

Lemma completed_updates (io : bool) (logId : Z) (d : Details) :
  updates (completed_events io logId d) = [].
Proof. now destruct io. Qed.

(** The handler of the outer [try], from a state in which the record is
    untouched. *)
Lemma handler_concludes (env : Env) (io : bool) (rl : RestartLog) (m : string)
    (st0 : State) :
  restartLog st0 = rl ->
  concluded_by_handler env rl
    (fst (restart_failed env io (log_id rl) m st0))
    (snd (restart_failed env io (log_id rl) m st0))
    m (updates (trace st0)).
Proof.
  intros Hrl. unfold concluded_by_handler. rewrite restart_failed_run.
  destruct (store_update env (failure_patch env (clock_reads st0) m)) as [m' |] eqn:E;
    cbn [fst snd trace restartLog clock_reads].
  - split; [apply in_or_app; right; now left |].
    exists (failure_patch env (clock_reads st0) m). rewrite E.
    rewrite updates_app. cbn [updates flat_map app].
    repeat split; try assumption. now exists (clock_reads st0).
  - split; [apply in_or_app; right; now left |].
    exists (failure_patch env (clock_reads st0) m). rewrite E.
    rewrite updates_app. cbn [updates flat_map app]. rewrite failed_updates.
    repeat split. now exists (clock_reads st0).
Qed.

(** C1, as the code has it.  How a run ends is decided by what it is
    given and by the answers of the store.  For an array whose update
    after the loop the store accepts there is no uncaught error:
    [executeRestart] returns, that update is the only one issued, the
    batch record gets the per-host details and as end time the last
    reading of the clock, the errors among the details are those of the
    hosts that failed, and the outcome is [completed] exactly when there
    is none, [failed] otherwise.  When the store rejects that update, or
    when the argument is not an array, the error is uncaught by the
    loop: the handler logs it and asks the store to mark the batch
    [failed] with the error as detail and the current time as end time;
    when the store accepts, the record is so marked and [executeRestart]
    returns; when the store rejects this request as well,
    [executeRestart] itself fails and the record stays as it was. *)
Theorem batch_record_concluded
    (env : Env) (servers : Argument) (rl : RestartLog) (io : bool) :
  let res := fst (run env servers rl io) in
  let st := snd (run env servers rl io) in
  let final := restartLog st in
  match servers with
  | Array l =>
      let order := sort compare_restartOrder l in
      match store_update env (completion_patch env order) with
      | None =>
          (forall m, ~ In (uncaught m) (trace st))
          /\ updates (trace st) = [completion_patch env order]
          /\ res = Returned tt
          /\ errors (details st) = flat_map (error_of env) (numbered 0 order)
          /\ log_details final = Some (HostDetails (details st))
          /\ (exists n, clock_reads st = S n /\ endTime final = Some (now env n))
          /\ (log_status final = Completed <-> List.length (errors (details st)) = 0%nat)
          /\ (log_status final = Failed <-> List.length (errors (details st)) <> 0%nat)
      | Some m =>
          concluded_by_handler env rl res st m [completion_patch env order]
      end
  | NotArray typeError =>
      concluded_by_handler env rl res st typeError []
  end.
Proof.
  cbv zeta. destruct servers as [l | typeError].
  - rewrite run_array, restart_all_run. cbv zeta.
    destruct (store_update env (completion_patch env (sort compare_restartOrder l)))
      as [m |] eqn:E.
    + match goal with
      | |- concluded_by_handler _ _ (fst (restart_failed _ _ _ _ ?s)) _ _ _ =>
          pose proof (handler_concludes env io rl m s eq_refl) as H
      end.
      cbn [trace] in H.
      rewrite !updates_app, started_updates, loop_updates in H. exact H.
    + cbn [fst snd trace details restartLog clock_reads].
      split.
      { intros m H. repeat (apply in_app_or in H as [H | H]).
        - unfold started_events in H. destruct io; simpl in H; intuition discriminate.
        - now apply loop_no_uncaught in H.
        - simpl in H. intuition discriminate.
        - unfold completed_events in H. destruct io; simpl in H; intuition discriminate. }
      split.
      { rewrite !updates_app, started_updates, loop_updates, completed_updates.
        reflexivity. }
      split; [reflexivity |].
      split; [unfold loop_result; now rewrite loop_errors |].
      split; [reflexivity |].
      split; [eexists; split; reflexivity |].
      cbn [apply_patch completion_patch log_status patch_status].
      split; [apply final_status_completed | apply final_status_failed].
  - rewrite run_not_array.
    apply (handler_concludes env io rl typeError (initial rl) eq_refl).
Qed.

End RestartFacts.


(* ================================================================== *)
(** * Facts about the health monitor *)
(* ================================================================== *)

Section MonitoringFacts.

Import Monitoring.

(** ** The probes always answer *)

Lemma mon_ping_handler_keeps (l : list (tick proc_event)) (b : bool) :
  fold_left ping_handler l (Some b) = Some b.
Proof.
  induction l as [| e l IH]; simpl; [reflexivity |].
  destruct e as [[ | | | ] |]; simpl; exact IH.
Qed.

Lemma mon_pingServer_settles (p : process) : pingServer_promise p <> None.
Proof.
  unfold pingServer_promise.
  destruct (in_split _ _ (timeline_has_timer 10000 p)) as (l1 & l2 & ->).
  rewrite fold_left_app. simpl.
  destruct (settle (fold_left ping_handler l1 None) false) eqn:E.
  - rewrite mon_ping_handler_keeps. discriminate.
  - now apply settle_some in E.
Qed.

Lemma telnet_handler_keeps (l : list (tick sock_event)) (b : bool) :
  fold_left telnet_handler l (Some b) = Some b.
Proof.
  induction l as [| e l IH]; simpl; [reflexivity |].
  destruct e as [[ | ] |]; simpl; exact IH.
Qed.

Lemma telnetServer_settles (p : socket_run) : telnetServer_promise p <> None.
Proof.
  unfold telnetServer_promise.
  destruct (in_split _ _ (timeline_has_timer 5000 p)) as (l1 & l2 & ->).
  rewrite fold_left_app. simpl.
  destruct (settle (fold_left telnet_handler l1 None) false) eqn:E.
  - rewrite telnet_handler_keeps. discriminate.
  - now apply settle_some in E.
Qed.

(** ** One host in one sweep *)

Lemma monitor_one_run (env : Env) (io : bool) (s : Server) (st : State) :
  exists seg,
    db (snd (monitor_one env io s st))
    = (if update_ok env s
       then update_where (id s) (patch_at env s (clock_reads st)) (db st)
       else db st)
    /\ (if writes_ok env s then fst (monitor_one env io s st) = Returned tt
        else exists m, fst (monitor_one env io s st) = Thrown m)
    /\ trace (snd (monitor_one env io s st)) = trace st ++ seg
    /\ pings seg = [ipAddress s]
    /\ updated_keys seg = [id s]
    /\ forall key,
         alerts_for key seg
         = if writes_ok env s && status_eqb (status s) Online
              && status_eqb (new_status env s) Offline && (id s =? key)
           then 1%nat else 0%nat.
Proof.
  unfold monitor_one, patch_at, new_status, reachable, portOpen, writes_ok,
    update_ok, create_ok, server_update, MonitorLog_create, sendAlertEmail,
    new_Date, record, when, bind, ret, throw, modify, gets.
  destruct (pingServer (ping_run env (id s))) eqn:Hping;
  destruct (telnetServer (telnet_run env (id s))) eqn:Htelnet;
  destruct (update_error env (id s)) as [mu |] eqn:Hupdate;
  cbn [andb accepted fst snd db trace id apply_patch log_serverId clock_reads];
  try (destruct (create_error env (id s)) as [mc |] eqn:Hcreate);
  cbn [andb accepted fst snd db trace id apply_patch log_serverId clock_reads];
  destruct (status s) eqn:Hstatus;
  cbn [status_eqb andb negb fst snd db trace clock_reads];
  try (destruct (mail_delivered env (id s)) eqn:Hmail);
  destruct io;
  cbn [status_eqb andb negb fst snd db trace clock_reads];
  (eexists;
   split; [reflexivity |];
   split; [try (eexists; reflexivity); reflexivity |];
   split; [repeat rewrite <- app_assoc; reflexivity |];
   split; [reflexivity |];
   split; [reflexivity |];
   intros key; unfold alerts_for; simpl;
   try reflexivity; destruct (id s =? key); reflexivity).
Qed.

(** ** Rows and their primary key *)

Lemma row_update_where (key k : Z) (p : Patch) (rows : list Server) :
  row key (update_where k p rows)
  = option_map (fun r => if id r =? k then apply_patch p r else r) (row key rows).
Proof.
  unfold row, update_where.
  induction rows as [| a rows IH]; [reflexivity |].
  cbn [map find].
  assert (E : id (if id a =? k then apply_patch p a else a) = id a)
    by (destruct (id a =? k); reflexivity).
  rewrite E. destruct (id a =? key); [reflexivity | exact IH].
Qed.

Lemma ids_update_where (k : Z) (p : Patch) (rows : list Server) :
  map id (update_where k p rows) = map id rows.
Proof.
  unfold update_where. rewrite map_map. apply map_ext.
  intros a. destruct (id a =? k); reflexivity.
Qed.

Lemma row_some (key : Z) (rows : list Server) (r : Server) :
  row key rows = Some r -> In r rows /\ id r = key.
Proof.
  unfold row. intros H. apply find_some in H as [Hin Hid].
  split; [exact Hin | now apply Z.eqb_eq].
Qed.

Lemma row_of_member (rows : list Server) (r : Server) :
  NoDup (map id rows) -> In r rows -> row (id r) rows = Some r.
Proof.
  unfold row. induction rows as [| a rows IH]; intros Hnd Hin; [contradiction |].
  cbn [map] in Hnd. apply NoDup_cons_iff in Hnd as [Ha Hnd].
  cbn [find]. destruct Hin as [-> | Hin].
  - now rewrite Z.eqb_refl.
  - destruct (id a =? id r) eqn:E.
    + apply Z.eqb_eq in E. exfalso. apply Ha. rewrite E. now apply in_map.
    + now apply IH.
Qed.

Lemma written_incl (env : Env) (l : list Server) (r : Server) :
  In r (written env l) -> In r l.
Proof.
  induction l as [| s l IH]; simpl; [tauto |].
  destruct (update_ok env s); [| contradiction].
  intros [H | H]; [now left | right].
  destruct (create_ok env s); [now apply IH | contradiction].
Qed.

Lemma rewritten_by_patch (env : Env) (s : Server) (n : nat) :
  rewritten env s (apply_patch (patch_at env s n) s).
Proof.
  unfold rewritten, patch_at. cbn.
  repeat split.
  - destruct (reachable env s); [eexists |]; reflexivity.
  - destruct (portOpen env s); [eexists |]; reflexivity.
Qed.

Lemma monitor_loop_cons (env : Env) (io : bool) (s : Server) (rest : list Server)
    (st : State) :
  monitor_loop env io (s :: rest) st
  = match monitor_one env io s st with
    | (Returned _, st1) => monitor_loop env io rest st1
    | (Thrown m, st1) => (Thrown m, st1)
    end.
Proof. reflexivity. Qed.

Lemma fresh_after_update (s : Server) (rest rows : list Server) (p : Patch) :
  fresh (s :: rest) rows ->
  NoDup (map id (s :: rest)) ->
  fresh rest (update_where (id s) p rows).
Proof.
  intros Hf Hnd x Hx. rewrite row_update_where, (Hf x (or_intror Hx)).
  cbn [option_map]. cbn [map] in Hnd. apply NoDup_cons_iff in Hnd as [Hs _].
  destruct (id x =? id s) eqn:E; [| reflexivity].
  apply Z.eqb_eq in E. exfalso. apply Hs. rewrite <- E. now apply in_map.
Qed.

(** ** The rows after the loop *)

Lemma monitor_loop_rows (env : Env) (io : bool) (l : list Server) :
  forall st,
    fresh l (db st) ->
    NoDup (map id l) ->
    forall key,
      match row key (db st) with
      | None => row key (db (snd (monitor_loop env io l st))) = None
      | Some r =>
          exists r',
            row key (db (snd (monitor_loop env io l st))) = Some r'
            /\ ((In r (written env l) /\ rewritten env r r')
                \/ (~ In r (written env l) /\ r' = r))
      end.
Proof.
  induction l as [| s rest IH]; intros st Hf Hnd key.
  - cbn [monitor_loop ret snd written].
    destruct (row key (db st)) as [r |]; [| reflexivity].
    exists r. split; [reflexivity | right; split; [tauto | reflexivity]].
  - rewrite monitor_loop_cons.
    destruct (monitor_one_run env io s st) as (seg & Hdb & Hres & _).
    destruct (monitor_one env io s st) as [res st1]. cbn [fst snd] in Hdb, Hres.
    assert (Hs : row (id s) (db st) = Some s) by (apply Hf; now left).
    assert (Hrest : forall x, In x rest -> id x <> id s).
    { intros x Hx E. cbn [map] in Hnd. apply NoDup_cons_iff in Hnd as [Hn _].
      apply Hn. rewrite <- E. now apply in_map. }
    cbn [written]. unfold writes_ok in Hres.
    destruct (update_ok env s) eqn:Hu.
    + (* the row of [s] is updated *)
      assert (Hrow : row key (db st1)
                     = option_map (fun r => if id r =? id s
                                            then apply_patch (patch_at env s (clock_reads st)) r
                                            else r) (row key (db st)))
        by (rewrite Hdb; apply row_update_where).
      destruct (create_ok env s) eqn:Hc; cbn [andb] in Hres.
      * (* both writes accepted: the loop goes on *)
        rewrite Hres.
        assert (Hf1 : fresh rest (db st1))
          by (rewrite Hdb; now apply fresh_after_update).
        assert (Hnd1 : NoDup (map id rest))
          by (cbn [map] in Hnd; now apply NoDup_cons_iff in Hnd).
        specialize (IH st1 Hf1 Hnd1 key). rewrite Hrow in IH.
        destruct (row key (db st)) as [r |] eqn:Hr; cbn [option_map] in IH;
          [| exact IH].
        destruct (row_some _ _ _ Hr) as [_ Hkey].
        destruct (id r =? id s) eqn:E.
        -- apply Z.eqb_eq in E.
           assert (r = s) by (rewrite <- Hkey, E in Hr; congruence). subst r.
           destruct IH as (r' & Hr' & [[Hin _] | [_ ->]]).
           ++ exfalso. apply written_incl in Hin. now apply (Hrest _ Hin).
           ++ exists (apply_patch (patch_at env s (clock_reads st)) s).
              split; [exact Hr' |]. left. split; [now left |].
              apply rewritten_by_patch.
        -- apply Z.eqb_neq in E.
           destruct IH as (r' & Hr' & [[Hin Hrw] | [Hnin ->]]).
           ++ exists r'. split; [exact Hr' |]. left. split; [now right | exact Hrw].
           ++ exists r. split; [exact Hr' |]. right. split; [| reflexivity].
              intros [-> | Hin]; [now apply E | now apply Hnin].
      * (* the observation is rejected: the loop stops *)
        destruct Hres as [m ->]. cbn [snd]. rewrite Hrow.
        destruct (row key (db st)) as [r |] eqn:Hr; cbn [option_map];
          [| reflexivity].
        destruct (row_some _ _ _ Hr) as [_ Hkey].
        destruct (id r =? id s) eqn:E.
        -- apply Z.eqb_eq in E.
           assert (r = s) by (rewrite <- Hkey, E in Hr; congruence). subst r.
           eexists. split; [reflexivity |]. left. split; [now left |].
           apply rewritten_by_patch.
        -- apply Z.eqb_neq in E. exists r. split; [reflexivity |].
           right. split; [| reflexivity].
           intros [-> | []]. now apply E.
    + (* the update is rejected: the loop stops *)
      cbn [andb] in Hres. destruct Hres as [m ->]. cbn [snd]. rewrite Hdb.
      destruct (row key (db st)) as [r |]; [| reflexivity].
      exists r. split; [reflexivity |]. right. split; [tauto | reflexivity].
Qed.

Lemma monitor_loop_ids (env : Env) (io : bool) (l : list Server) :
  forall st, map id (db (snd (monitor_loop env io l st))) = map id (db st).
Proof.
  induction l as [| s rest IH]; intros st; [reflexivity |].
  rewrite monitor_loop_cons.
  destruct (monitor_one_run env io s st) as (seg & Hdb & _).
  destruct (monitor_one env io s st) as [[a | m] st1]; cbn [fst snd] in *.
  - rewrite IH, Hdb. destruct (update_ok env s); [apply ids_update_where | reflexivity].
  - rewrite Hdb. destruct (update_ok env s); [apply ids_update_where | reflexivity].
Qed.

(** ** The trace of the loop *)

Lemma mon_pings_app (a b : list event) : pings (a ++ b) = pings a ++ pings b.
Proof. apply flat_map_app. Qed.

Lemma updated_keys_app (a b : list event) :
  updated_keys (a ++ b) = updated_keys a ++ updated_keys b.
Proof. apply flat_map_app. Qed.


Lemma monitor_loop_trace (env : Env) (io : bool) (l : list Server) :
  forall st,
    exists seg,
      trace (snd (monitor_loop env io l st)) = trace st ++ seg
      /\ pings seg = map ipAddress (attempted env l)
      /\ updated_keys seg = map id (attempted env l).
Proof.
  induction l as [| s rest IH]; intros st.
  - exists []. cbn. now rewrite app_nil_r.
  - rewrite monitor_loop_cons.
    destruct (monitor_one_run env io s st) as (seg & _ & Hres & Ht & Hp & Hk & _).
    destruct (monitor_one env io s st) as [res st1]. cbn [fst snd] in *.
    cbn [attempted map]. destruct (writes_ok env s).
    + rewrite Hres. destruct (IH st1) as (seg' & Ht' & Hp' & Hk').
      exists (seg ++ seg'). rewrite Ht', Ht, mon_pings_app, updated_keys_app, Hp, Hk, Hp', Hk'.
      now rewrite app_assoc.
    + destruct Hres as [m ->]. exists seg. cbn [snd]. now rewrite Ht, Hp, Hk.
Qed.

Lemma all_attempted (env : Env) (l : list Server) :
  (forall s, In s l -> writes_ok env s = true) ->
  attempted env l = l /\ written env l = l.
Proof.
  induction l as [| s rest IH]; intros H; [split; reflexivity |].
  assert (Hs := H s (or_introl eq_refl)).
  destruct IH as [Ha Hw]; [intros x Hx; apply H; now right |].
  cbn [attempted written]. rewrite Hs.
  unfold writes_ok in Hs. apply andb_prop in Hs as [-> ->].
  now rewrite Ha, Hw.
Qed.

(** ** Alerts and status changes *)




(** ** A whole sweep *)

Lemma monitorAllServers_run (env : Env) (io : bool) (st : State) :
  monitorAllServers env io st
  = match findAll_error env with
    | Some m => record (LogError "Monitoring error:" m) st
    | None =>
        match monitor_loop env io (filter isActive (db st)) st with
        | (Returned a, st') => (Returned a, st')
        | (Thrown m, st') => record (LogError "Monitoring error:" m) st'
        end
    end.
Proof.
  unfold monitorAllServers, try_catch, bind, findAll, gets, throw.
  destruct (findAll_error env); reflexivity.
Qed.


Lemma sweep_db (env : Env) (io : bool) (st : State) :
  db (sweep env io st)
  = match findAll_error env with
    | Some _ => db st
    | None => db (snd (monitor_loop env io (filter isActive (db st)) st))
    end.
Proof.
  unfold sweep. rewrite monitorAllServers_run.
  destruct (findAll_error env); [reflexivity |].
  destruct (monitor_loop env io (filter isActive (db st)) st) as [[a | m] st'];
    reflexivity.
Qed.

Lemma sweep_trace (env : Env) (io : bool) (st : State) :
  exists tail,
    trace (sweep env io st)
    = match findAll_error env with
      | Some _ => trace st
      | None => trace (snd (monitor_loop env io (filter isActive (db st)) st))
      end ++ tail
    /\ pings tail = [] /\ updated_keys tail = []
    /\ forall key, alerts_for key tail = 0%nat.
Proof.
  unfold sweep. rewrite monitorAllServers_run.
  destruct (findAll_error env).
  - eexists. split; [reflexivity |]. repeat split.
  - destruct (monitor_loop env io (filter isActive (db st)) st) as [[a | m] st'];
      cbn [snd].
    + exists []. rewrite app_nil_r. repeat split.
    + eexists. split; [reflexivity |]. repeat split.
Qed.

Lemma sweep_ids (env : Env) (io : bool) (st : State) :
  map id (db (sweep env io st)) = map id (db st).
Proof.
  rewrite sweep_db. destruct (findAll_error env); [reflexivity |].
  apply monitor_loop_ids.
Qed.

Lemma NoDup_ids_filter (f : Server -> bool) (rows : list Server) :
  NoDup (map id rows) -> NoDup (map id (filter f rows)).
Proof.
  induction rows as [| a rows IH]; intros H; [constructor |].
  cbn [map] in H. apply NoDup_cons_iff in H as [Ha H].
  cbn [filter]. destruct (f a); [| now apply IH].
  cbn [map]. constructor; [| now apply IH].
  intros Hin. apply Ha. apply in_map_iff in Hin as (x & Hx & Hin).
  apply filter_In in Hin as [Hin _]. rewrite <- Hx. now apply in_map.
Qed.

Lemma fresh_snapshot (rows : list Server) :
  NoDup (map id rows) -> fresh (filter isActive rows) rows.
Proof.
  intros Hnd s Hs. apply filter_In in Hs as [Hs _]. now apply row_of_member.
Qed.

Lemma sweep_rows (env : Env) (io : bool) (st : State) (r : Server) :
  NoDup (map id (db st)) ->
  In r (db st) ->
  exists r',
    row (id r) (db (sweep env io st)) = Some r'
    /\ ((findAll_error env = None
         /\ In r (written env (filter isActive (db st)))
         /\ rewritten env r r')
        \/ r' = r).
Proof.
  intros Hnd Hin. rewrite sweep_db.
  assert (Hr := row_of_member _ _ Hnd Hin).
  destruct (findAll_error env) as [m |].
  - exists r. split; [exact Hr | now right].
  - assert (H := monitor_loop_rows env io (filter isActive (db st)) st
                   (fresh_snapshot _ Hnd) (NoDup_ids_filter _ _ Hnd) (id r)).
    rewrite Hr in H. destruct H as (r' & Hr' & [[Hw Hrw] | [_ ->]]).
    + exists r'. split; [exact Hr' |]. left.
      split; [reflexivity | split; assumption].
    + exists r. split; [exact Hr' | now right].
Qed.

(** ** The observations and the broadcasts of the loop *)

Lemma emits_app (a b : list event) : emits (a ++ b) = emits a ++ emits b.
Proof. unfold emits. apply flat_map_app. Qed.

(** One iteration, seen from the observations and the broadcasts. *)
Lemma monitor_one_reports (env : Env) (io : bool) (s : Server) (st : State) :
  exists seg,
    logs (snd (monitor_one env io s st))
    = logs st ++ (if writes_ok env s then [observation_at env s (clock_reads st)] else [])
    /\ trace (snd (monitor_one env io s st)) = trace st ++ seg
    /\ emits seg
       = (if writes_ok env s && io then [broadcast_at env s (clock_reads st)] else []).
Proof.
  unfold monitor_one, observation_at, broadcast_at, new_status, reachable, portOpen,
    writes_ok, update_ok, create_ok, server_update, MonitorLog_create, sendAlertEmail,
    new_Date, record, when, bind, ret, throw, modify, gets.
  destruct (pingServer (ping_run env (id s))) eqn:Hping;
  destruct (telnetServer (telnet_run env (id s))) eqn:Htelnet;
  destruct (update_error env (id s)) as [mu |] eqn:Hupdate;
  cbn [andb accepted fst snd db logs trace id apply_patch log_serverId clock_reads];
  try (destruct (create_error env (id s)) as [mc |] eqn:Hcreate);
  cbn [andb accepted fst snd db logs trace id apply_patch log_serverId clock_reads];
  destruct (status s) eqn:Hstatus;
  cbn [status_eqb andb negb fst snd db logs trace clock_reads];
  try (destruct (mail_delivered env (id s)) eqn:Hmail);
  destruct io;
  cbn [status_eqb andb negb fst snd db logs trace clock_reads];
  (eexists;
   split; [try reflexivity; now rewrite app_nil_r |];
   split; [repeat rewrite <- app_assoc; reflexivity |];
   reflexivity).
Qed.

Lemma observation_observes (env : Env) (s : Server) (n : nat) :
  observes env s (observation_at env s n).
Proof. repeat split. Qed.

Lemma observation_consistent (env : Env) (s : Server) (n : nat) :
  consistent (observation_at env s n).
Proof.
  unfold consistent, observation_at. cbn.
  destruct (reachable env s && portOpen env s); cbn; split; intros; try reflexivity;
    discriminate.
Qed.

Lemma broadcast_announces (env : Env) (s : Server) (n : nat) :
  announces env s (broadcast_at env s n).
Proof. repeat split. Qed.

Lemma monitor_loop_reports (env : Env) (io : bool) (l : list Server) :
  forall st,
    exists ls seg,
      logs (snd (monitor_loop env io l st)) = logs st ++ ls
      /\ Forall2 (observes env) (completed env l) ls
      /\ Forall consistent ls
      /\ trace (snd (monitor_loop env io l st)) = trace st ++ seg
      /\ (if io then Forall2 (announces env) (completed env l) (emits seg)
          else emits seg = []).
Proof.
  induction l as [| s rest IH]; intros st.
  - exists [], []. cbn. rewrite !app_nil_r.
    repeat split; try constructor. destruct io; [constructor | reflexivity].
  - rewrite monitor_loop_cons.
    destruct (monitor_one_run env io s st) as (seg0 & _ & Hres & _).
    destruct (monitor_one_reports env io s st) as (seg & Hl & Ht & He).
    destruct (monitor_one env io s st) as [res st1]. cbn [fst snd] in *.
    cbn [completed]. destruct (writes_ok env s).
    + rewrite Hres. destruct (IH st1) as (ls' & seg' & Hl' & Ho' & Hc' & Ht' & He').
      exists (observation_at env s (clock_reads st) :: ls'), (seg ++ seg').
      rewrite Hl', Hl, Ht', Ht, emits_app, He, <- !app_assoc. cbn [andb app].
      split; [reflexivity |].
      split; [constructor; [apply observation_observes | exact Ho'] |].
      split; [constructor; [apply observation_consistent | exact Hc'] |].
      split; [reflexivity |].
      destruct io; cbn [app]; [| exact He'].
      constructor; [apply broadcast_announces | exact He'].
    + destruct Hres as [m ->]. exists [], seg. cbn [snd andb] in *.
      rewrite Hl, Ht, He.
      repeat split; try constructor. destruct io; [constructor | reflexivity].
Qed.

(** ** The clock *)

Lemma monitor_one_clock (env : Env) (io : bool) (s : Server) (st : State) :
  writes_ok env s = true ->
  clock_reads (snd (monitor_one env io s st)) = (readings env io s + clock_reads st)%nat.
Proof.
  unfold monitor_one, readings, reachable, portOpen,
    writes_ok, update_ok, create_ok, server_update, MonitorLog_create, sendAlertEmail,
    new_Date, record, when, bind, ret, throw, modify, gets.
  destruct (pingServer (ping_run env (id s))) eqn:Hping;
  destruct (telnetServer (telnet_run env (id s))) eqn:Htelnet;
  destruct (update_error env (id s)) as [mu |] eqn:Hupdate;
  cbn [andb accepted fst snd db logs trace id apply_patch log_serverId clock_reads];
  try discriminate;
  destruct (create_error env (id s)) as [mc |] eqn:Hcreate;
  cbn [andb accepted fst snd db logs trace id apply_patch log_serverId clock_reads];
  try discriminate;
  intros _;
  destruct (status s) eqn:Hstatus;
  cbn [status_eqb andb negb fst snd db logs trace clock_reads];
  try (destruct (mail_delivered env (id s)) eqn:Hmail);
  destruct io;
  cbn [status_eqb andb negb fst snd db logs trace clock_reads];
  reflexivity.
Qed.

Lemma logs_kept (env : Env) (io : bool) (l : list Server) (st : State) (x : MonitorLog) :
  In x (logs st) -> In x (logs (snd (monitor_loop env io l st))).
Proof.
  intros I. destruct (monitor_loop_reports env io l st) as (ls & seg & -> & _).
  apply in_or_app. now left.
Qed.

Lemma row_kept (env : Env) (io : bool) (l : list Server) (st : State) (r0 : Server) :
  fresh l (db st) ->
  NoDup (map id l) ->
  ~ In (id r0) (map id l) ->
  row (id r0) (db st) = Some r0 ->
  row (id r0) (db (snd (monitor_loop env io l st))) = Some r0.
Proof.
  intros Hf Hnd Out Hr.
  assert (H := monitor_loop_rows env io l st Hf Hnd (id r0)).
  rewrite Hr in H. destruct H as (r' & Hr' & [[Hin _] | [_ ->]]); [| exact Hr'].
  exfalso. apply Out. apply written_incl in Hin. now apply in_map.
Qed.

(** The row of a host that the loop has written, and its observation. *)
Lemma monitor_loop_stamps (env : Env) (io : bool) (l : list Server) :
  forall st,
    fresh l (db st) ->
    NoDup (map id l) ->
    forall r,
      In r (written env l) ->
      exists n,
        started_at env io (clock_reads st) l (id r) = Some n
        /\ row (id r) (db (snd (monitor_loop env io l st)))
           = Some (apply_patch (patch_at env r n) r)
        /\ (create_ok env r = true ->
            In (observation_at env r n) (logs (snd (monitor_loop env io l st)))).
Proof.
  induction l as [| s rest IH]; intros st Hf Hnd r Hw; [destruct Hw |].
  rewrite monitor_loop_cons.
  destruct (monitor_one_run env io s st) as (seg & Hdb & Hres & _).
  destruct (monitor_one_reports env io s st) as (seg' & Hlogs & _).
  pose proof (monitor_one_clock env io s st) as Hclock.
  destruct (monitor_one env io s st) as [res st1]. cbn [fst snd] in Hdb, Hres, Hlogs, Hclock.
  assert (Hs : row (id s) (db st) = Some s) by (apply Hf; now left).
  assert (Hnd' := Hnd). cbn [map] in Hnd'. apply NoDup_cons_iff in Hnd' as [Hn Hnd1].
  cbn [written] in Hw. cbn [started_at].
  destruct (update_ok env s) eqn:Hu; [| destruct Hw].
  assert (Hrow : row (id s) (db st1) = Some (apply_patch (patch_at env s (clock_reads st)) s)).
  { rewrite Hdb, row_update_where, Hs. cbn [option_map]. now rewrite Z.eqb_refl. }
  destruct Hw as [<- | Hw].
  - (* the host of this iteration *)
    rewrite Z.eqb_refl. exists (clock_reads st). split; [reflexivity |].
    unfold writes_ok in *. rewrite Hu in *. cbn [andb] in *.
    destruct (create_ok env s) eqn:Hc.
    + rewrite Hres.
      assert (Hf1 : fresh rest (db st1)) by (rewrite Hdb; now apply fresh_after_update).
      split.
      * apply (row_kept env io rest st1 (apply_patch (patch_at env s (clock_reads st)) s)
                 Hf1 Hnd1 Hn Hrow).
      * intros _. apply logs_kept. rewrite Hlogs. apply in_or_app. right. now left.
    + destruct Hres as [m ->]. cbn [snd]. split; [exact Hrow | discriminate].
  - (* a later host *)
    destruct (create_ok env s) eqn:Hc; [| destruct Hw].
    unfold writes_ok in *. rewrite Hu, Hc in *. cbn [andb] in *.
    rewrite Hres, <- (Hclock eq_refl).
    assert (Hf1 : fresh rest (db st1)) by (rewrite Hdb; now apply fresh_after_update).
    assert (E : (id s =? id r) = false).
    { apply Z.eqb_neq. intros E. apply Hn. rewrite E. apply in_map.
      now apply written_incl in Hw. }
    rewrite E. apply (IH st1 Hf1 Hnd1 r Hw).
Qed.

(** C10.  A sweep neither adds nor removes rows, and of each row it
    leaves every column but [status], [lastPing] and [lastTelnet] as it
    was.  A row that the sweep does not write (its host is not active,
    the list of hosts could not be read, or the loop stopped before the
    update of the host was accepted) is as it was in every column.  A
    row that the sweep writes gets the status the two probes give;
    [lastPing] keeps its value when the ping failed and otherwise
    becomes the current time, that is the reading of the clock made
    next after the two readings that time the probes of the host (the
    readings [n] and [n + 1] of which the host's observation holds the
    difference); likewise [lastTelnet] and the port check, whose stamp
    is read next.  So a stamp changes only when its probe succeeded. *)
Theorem sweep_writes_three_columns (env : Env) (io : bool) (st : State) (r : Server) :
  NoDup (map id (db st)) ->
  In r (db st) ->
  map id (db (sweep env io st)) = map id (db st)
  /\ exists r',
       row (id r) (db (sweep env io st)) = Some r'
       /\ frame r' = frame r
       /\ (reachable env r = false -> lastPing r' = lastPing r)
       /\ (lastPing r' <> lastPing r -> reachable env r = true)
       /\ (portOpen env r = false -> lastTelnet r' = lastTelnet r)
       /\ (lastTelnet r' <> lastTelnet r -> portOpen env r = true)
       /\ (~ (findAll_error env = None /\ In r (written env (filter isActive (db st)))) ->
           r' = r)
       /\ (findAll_error env = None ->
           In r (written env (filter isActive (db st))) ->
           exists n,
             started_at env io (clock_reads st) (filter isActive (db st)) (id r) = Some n
             /\ status r' = new_status env r
             /\ lastPing r'
                = (if reachable env r then Some (now env (2 + n)) else lastPing r)
             /\ lastTelnet r'
                = (if portOpen env r
                   then Some (now env ((if reachable env r then 3 else 2) + n))
                   else lastTelnet r)
             /\ (create_ok env r = true ->
                 In {| log_serverId := id r;
                       pingStatus := reachable env r;
                       telnetStatus := portOpen env r;
                       responseTime := now env (S n) - now env n;
                       errorMessage :=
                         if negb (reachable env r && portOpen env r)
                         then Some ("Ping: " +++ OK_or_FAIL (reachable env r)
                                    +++ ", Telnet: " +++ OK_or_FAIL (portOpen env r))
                         else None |}
                    (logs (sweep env io st)))).
Proof.
  intros Hnd Hin. split; [apply sweep_ids |].
  assert (Hrow := row_of_member _ _ Hnd Hin).
  assert (Hsnap := fresh_snapshot _ Hnd).
  assert (Hids := NoDup_ids_filter isActive _ Hnd).
  destruct (findAll_error env) as [m |] eqn:Hf.
  - (* the list of hosts could not be read *)
    exists r. rewrite sweep_db, Hf. split; [exact Hrow |].
    split; [reflexivity |].
    split; [reflexivity |].
    split; [intros N; now contradiction N |].
    split; [reflexivity |].
    split; [intros N; now contradiction N |].
    split; [reflexivity | discriminate].
  - assert (H := monitor_loop_rows env io (filter isActive (db st)) st Hsnap Hids (id r)).
    rewrite Hrow in H. destruct H as (r' & Hr' & [[Hw Hrw] | [Hn ->]]).
    + (* the row is written *)
      destruct (monitor_loop_stamps env io (filter isActive (db st)) st Hsnap Hids r Hw)
        as (n & Hstart & Hr'' & Hlog).
      rewrite Hr' in Hr''. injection Hr'' as ->.
      eexists. rewrite sweep_db, Hf. split; [exact Hr' |].
      split; [reflexivity |].
      split; [cbn; now intros -> |].
      split.
      { cbn. destruct (reachable env r); [reflexivity |]. intros N. now contradiction N. }
      split; [cbn; now intros -> |].
      split.
      { cbn. destruct (portOpen env r); [reflexivity |]. intros N. now contradiction N. }
      split; [intros N; exfalso; apply N; now split |].
      intros _ _. exists n. split; [exact Hstart |].
      split; [reflexivity |]. split; [reflexivity |]. split; [reflexivity |].
      intros Hc. unfold sweep. rewrite monitorAllServers_run, Hf.
      specialize (Hlog Hc).
      destruct (monitor_loop env io (filter isActive (db st)) st) as [[a | m] st'];
        exact Hlog.
    + (* the row is not written *)
      exists r. rewrite sweep_db, Hf. split; [exact Hr' |].
      split; [reflexivity |].
      split; [reflexivity |].
      split; [intros N; now contradiction N |].
      split; [reflexivity |].
      split; [intros N; now contradiction N |].
      split; [reflexivity |].
      intros _ Hw. contradiction.
Qed.






End MonitoringFacts.


(* ================================================================== *)
(** * Facts about the scheduling form *)
(* ================================================================== *)

Section SchedulerFacts.

Import Scheduler.

Lemma handleSubmit_no_host (tz now : Z) (f : FormData) :
  serverIds f = [] ->
  handleSubmit tz now f = Refused "Please select at least one server".
Proof. intros H. unfold handleSubmit. now rewrite H. Qed.

Lemma handleSubmit_not_later (tz now t : Z) (f : FormData) :
  serverIds f <> [] ->
  new_Date tz (scheduledTime f) = Some t ->
  t <= now ->
  handleSubmit tz now f = Refused "Scheduled time must be in the future".
Proof.
  intros Hs Hd Ht. unfold handleSubmit.
  destruct (serverIds f); [contradiction |]. cbn [List.length Nat.eqb].
  rewrite Hd. cbn [date_le]. apply Z.leb_le in Ht. now rewrite Ht.
Qed.

(** What the handler lets through: any request with a host and an
    instant later than now. *)
Lemma handleSubmit_sends (tz now t : Z) (f : FormData) :
  serverIds f <> [] ->
  new_Date tz (scheduledTime f) = Some t ->
  now < t ->
  is_sent (handleSubmit tz now f) = true.
Proof.
  intros Hs Hd Ht. unfold handleSubmit.
  destruct (serverIds f); [contradiction |]. cbn [List.length Nat.eqb].
  rewrite Hd. cbn [date_le]. apply Z.leb_gt in Ht. now rewrite Ht.
Qed.

(** C4.  In a browser one hour east of UTC, a request with two hosts
    and an instant 30 minutes ahead passes the form's [min] constraint
    and [handleSubmit] passes it on to [createTask]; the one-hour lead
    time that the form announces is not respected. *)
Theorem lead_time_not_enforced :
  serverIds Samples.request <> []
  /\ new_Date Samples.zone (scheduledTime Samples.request)
     = Some (Samples.clock + 30 * 60000)
  /\ respects_lead_time Samples.zone Samples.clock Samples.request = false
  /\ input_valid Samples.clock Samples.request = true
  /\ is_sent (handleSubmit Samples.zone Samples.clock Samples.request) = true
  /\ (exists taskData,
        submit_form Samples.zone Samples.clock Samples.clock Samples.request
        = Some (Sent taskData)).
Proof.
  split; [discriminate |].
  split; [reflexivity |].
  split; [reflexivity |].
  split; [reflexivity |].
  split; [reflexivity |].
  eexists. reflexivity.
Qed.

End SchedulerFacts.

(* ================================================================== *)
(** * The statements at work on the sample data *)
(* ================================================================== *)

Section Worked.

Import Samples.

(** C1 as stated does not hold: with the store unreachable both updates
    are rejected, [executeRestart] fails, and the batch record is still
    [running] with no end time. *)
Lemma batch_left_running :
  fst (Restart.run store_down (Restart.Array batch) running_log true)
  = Thrown "connect ECONNREFUSED"
  /\ Restart.log_status
       (Restart.restartLog (snd (Restart.run store_down (Restart.Array batch) running_log true)))
     = Restart.Running
  /\ Restart.endTime
       (Restart.restartLog (snd (Restart.run store_down (Restart.Array batch) running_log true)))
     = None.
Proof. repeat split; reflexivity. Qed.

(** C3 as stated does not hold: the host [cache] declares a pause of 5
    seconds, its pre-flight fails, and the batch goes on to the next
    host without any pause of 5000 ms. *)
Lemma no_pause_after_failed_restart :
  nth_error (Restart.sort Restart.compare_restartOrder batch) 1 = Some cache
  /\ 0 < restartDelay cache
  /\ Restart.host_failure restart_env 1 cache
     = Some "Server 192.168.1.13 is not reachable via ping"
  /\ ~ In (restartDelay cache * 1000)
         (Restart.sleeps
            (Restart.trace (snd (Restart.run restart_env (Restart.Array batch) running_log true)))).
Proof.
  split; [reflexivity |]. split; [reflexivity |]. split; [reflexivity |].
  vm_compute. intros [H | []]. discriminate.
Qed.



Ltac distinct_ids :=
  repeat constructor; cbn; intuition discriminate.

(** C6 on a session whose output is "Permission denied". *)
Lemma ssh_completion_policy_witness :
  forallb (Restart.quiet Restart.ssh_ceiling) [(300, Stderr "Permission denied")] = true
  /\ 310 < 15000
  /\ (@None Z = None \/ @None Z = Some 255)
  /\ Restart.starts_late Restart.ssh_ceiling [(15000, Close None)] = true
  /\ 1 <> 0
  /\ 1 <> 255
  /\ Restart.executeSSHReboot front
       ([(300, Stderr "Permission denied")] ++ [(310, Close None)])
     = Returned true
  /\ Restart.executeSSHReboot front
       ([(300, Stderr "Permission denied")] ++ [(15000, Close None)])
     = Thrown "SSH command timeout"
  /\ Restart.executeSSHReboot front
       ([(300, Stderr "Permission denied")] ++ [(310, Close (Some 1))])
     = Thrown "Permission denied".
Proof.
  assert (H1 : forallb (Restart.quiet Restart.ssh_ceiling)
                 [(300, Stderr "Permission denied")] = true) by reflexivity.
  assert (H2 : 310 < 15000) by lia.
  assert (H3 : @None Z = None \/ @None Z = Some 255) by (left; reflexivity).
  assert (H4 : Restart.starts_late Restart.ssh_ceiling [(15000, Close None)] = true)
    by reflexivity.
  assert (H5 : 1 <> 0) by lia.
  assert (H6 : 1 <> 255) by lia.
  repeat (split; [assumption |]).
  exact (ssh_completion_policy front [(300, Stderr "Permission denied")] []
           [(15000, Close None)] 310 None 1 H1 H2 H3 H4 H5 H6).
Defined.

(** C5 on the sample batch: [cache] fails its pre-flight. *)
Lemma preflight_guards_reboot_witness :
  nth_error order 1 = Some cache
  /\ Restart.pingServer (Restart.ping_run restart_env 1) = false
  /\ Restart.pings (Restart.trace finished) = map ipAddress order
  /\ Restart.ssh_calls (Restart.trace finished) = [database; middleware; front]
  /\ Restart.preflight_first (Restart.trace finished)
  /\ In {| Restart.serverId := 3; Restart.serverName := "srv3";
           Restart.error := "Server 192.168.1.13 is not reachable via ping" |}
        (Restart.errors (Restart.details finished)).
Proof.
  assert (H1 : nth_error order 1 = Some cache) by reflexivity.
  assert (H2 : Restart.pingServer (Restart.ping_run restart_env 1) = false)
    by reflexivity.
  destruct (preflight_guards_reboot restart_env batch running_log true)
    as (Hp & Hs & Hf & He).
  split; [exact H1 |]. split; [exact H2 |]. split; [exact Hp |].
  split; [exact Hs |]. split; [exact Hf |].
  exact (He 1%nat cache H1 H2).
Defined.

(** C9 on the sample batch: [cache] fails, [middleware] and [front]
    are still attempted. *)
Lemma failure_does_not_stop_batch_witness :
  nth_error order 1 = Some cache
  /\ Restart.host_failure restart_env 1 cache
     = Some "Server 192.168.1.13 is not reachable via ping"
  /\ In {| Restart.serverId := id cache; Restart.serverName := name cache;
           Restart.error := "Server 192.168.1.13 is not reachable via ping" |}
        (Restart.errors (Restart.details finished))
  /\ (exists pre post,
        Restart.trace finished
        = pre ++ Restart.Log
                   (Restart.Error ("Failed to restart " +++ name cache +++ ":")
                      "Server 192.168.1.13 is not reachable via ping") :: post
        /\ Restart.pings pre = map ipAddress (firstn 2 order)
        /\ Restart.pings post = map ipAddress (skipn 2 order))
  /\ (List.length (Restart.servers (Restart.details finished))
      + List.length (Restart.errors (Restart.details finished)))%nat
     = List.length order.
Proof.
  assert (H1 : nth_error order 1 = Some cache) by reflexivity.
  assert (H2 : Restart.host_failure restart_env 1 cache
               = Some "Server 192.168.1.13 is not reachable via ping") by reflexivity.
  split; [exact H1 |]. split; [exact H2 |].
  exact (failure_does_not_stop_batch restart_env batch running_log true 1 cache
           "Server 192.168.1.13 is not reachable via ping" H1 H2).
Defined.

(** C3 on the sample batch: [database] is restarted and followed by a
    pause of 30 seconds. *)
Lemma pause_follows_successful_restart_witness :
  nth_error order 0 = Some database
  /\ 0 < restartDelay database
  /\ Restart.host_failure restart_env 0 database = None
  /\ Restart.sleeps (Restart.trace finished)
     = flat_map (Restart.pause_of restart_env) (Restart.numbered 0 order)
  /\ exists pre post,
       Restart.trace finished = pre ++ Restart.Sleep (restartDelay database * 1000) :: post
       /\ Restart.pings pre = map ipAddress (firstn 1 order)
       /\ Restart.pings post = map ipAddress (skipn 1 order).
Proof.
  assert (H1 : nth_error order 0 = Some database) by reflexivity.
  assert (H2 : 0 < restartDelay database) by reflexivity.
  assert (H3 : Restart.host_failure restart_env 0 database = None) by reflexivity.
  destruct (pause_follows_successful_restart restart_env batch running_log true)
    as [A B].
  split; [exact H1 |]. split; [exact H2 |]. split; [exact H3 |].
  split; [exact A | exact (B 0%nat database H1 H2 H3)].
Defined.

(** C10 on the sample table: the ping of host 1 succeeds, its port
    check fails; the sweep starts with host 1, at the first reading of
    the clock, and stamps [lastPing] with the third. *)
Lemma sweep_writes_three_columns_witness :
  NoDup (map id (Monitoring.db (Monitoring.start table)))
  /\ In (host 1 1 0 Online true) (Monitoring.db (Monitoring.start table))
  /\ Monitoring.findAll_error one_down = None
  /\ In (host 1 1 0 Online true)
        (Monitoring.written one_down (filter isActive (Monitoring.db (Monitoring.start table))))
  /\ map id (Monitoring.db swept) = map id (Monitoring.db (Monitoring.start table))
  /\ exists r',
       Monitoring.row 1 (Monitoring.db swept) = Some r'
       /\ Monitoring.frame r' = Monitoring.frame (host 1 1 0 Online true)
       /\ status r' = Offline
       /\ lastPing r' = Some (Monitoring.now one_down 2)
       /\ lastTelnet r' = None.
Proof.
  assert (H1 : NoDup (map id (Monitoring.db (Monitoring.start table))))
    by distinct_ids.
  assert (H2 : In (host 1 1 0 Online true) (Monitoring.db (Monitoring.start table)))
    by (left; reflexivity).
  assert (H3 : Monitoring.findAll_error one_down = None) by reflexivity.
  assert (H4 : In (host 1 1 0 Online true)
                 (Monitoring.written one_down
                    (filter isActive (Monitoring.db (Monitoring.start table)))))
    by (left; reflexivity).
  destruct (sweep_writes_three_columns one_down true (Monitoring.start table)
              (host 1 1 0 Online true) H1 H2)
    as (A & r' & Hrow & Hframe & _ & _ & _ & _ & _ & Hwritten).
  destruct (Hwritten H3 H4) as (n & Hn & Hs & Hp & Ht & _).
  injection Hn as <-.
  split; [exact H1 |]. split; [exact H2 |]. split; [exact H3 |]. split; [exact H4 |].
  split; [exact A |].
  exists r'. split; [exact Hrow |]. split; [exact Hframe |].
  split; [exact Hs |]. split; [exact Hp | exact Ht].
Defined.



End Worked.

(* ================================================================== *)
(** * Further facts: the probes *)
(* ================================================================== *)

Section ProbeFacts.

Lemma code_is_zero (code : option Z) : code_is 0 code = true -> code = Some 0.
Proof.
  destruct code as [c |]; simpl; [| discriminate].
  intros H. apply Z.eqb_eq in H. now subst.
Qed.

(** The pre-flight ping answers [true] only through a [close] with code
    0 that arrives before the watchdog and before any error. *)
Lemma preflight_promise_true (p : process) :
  fold_left Restart.ping_handler (timeline 5000 p) None = Some true ->
  exists pre t post,
    p = pre ++ (t, Close (Some 0)) :: post
    /\ forallb (Restart.quiet 5000) pre = true /\ t < 5000.
Proof.
  induction p as [| [t e] rest IH]; simpl.
  - discriminate.
  - destruct (t <? 5000) eqn:Ht.
    + apply Z.ltb_lt in Ht. simpl.
      destruct e as [data | data | code | message]; simpl.
      * intros H. destruct (IH H) as (pre & t' & post & -> & Q & Lt).
        exists ((t, Stdout data) :: pre), t', post. simpl.
        repeat split; try assumption.
        rewrite Q. unfold Restart.quiet at 1. simpl.
        apply Z.ltb_lt in Ht. now rewrite Ht.
      * intros H. destruct (IH H) as (pre & t' & post & -> & Q & Lt).
        exists ((t, Stderr data) :: pre), t', post. simpl.
        repeat split; try assumption.
        rewrite Q. unfold Restart.quiet at 1. simpl.
        apply Z.ltb_lt in Ht. now rewrite Ht.
      * intros H. rewrite ping_handler_keeps in H. injection H as H.
        apply code_is_zero in H. subst code.
        exists [], t, rest. repeat split; assumption.
      * intros H. rewrite ping_handler_keeps in H. discriminate.
    + intros H. destruct e; simpl in H; rewrite ping_handler_keeps in H; discriminate.
Qed.

(** X1.  The pre-flight ping of the restart service answers [true]
    exactly when the ping process exits with code 0 less than 5000 ms
    after the call, with nothing but output before that: an exit with
    another code, a spawn error, or the watchdog coming first all give
    [false]. *)
Theorem preflight_ping_true_iff (p : process) :
  Restart.pingServer p = true
  <-> exists pre t post,
        p = pre ++ (t, Close (Some 0)) :: post
        /\ forallb (Restart.quiet 5000) pre = true /\ t < 5000.
Proof.
  split.
  - unfold Restart.pingServer, Restart.pingServer_promise.
    destruct (fold_left Restart.ping_handler (timeline 5000 p) None) as [[|] |] eqn:E;
      try discriminate.
    intros _. now apply preflight_promise_true.
  - intros (pre & t & post & -> & Q & Lt).
    now rewrite pingServer_exit.
Qed.

Lemma mon_ping_quiet (pre : process) (promise : option bool) :
  forallb (Restart.quiet 10000) pre = true ->
  fold_left Monitoring.ping_handler (map (fun te => Fired (snd te)) pre) promise = promise.
Proof.
  revert promise. induction pre as [| [t e] pre IH]; intros promise Q; [reflexivity |].
  simpl in Q. apply andb_true_iff in Q as [Qe Q].
  unfold Restart.quiet in Qe. simpl in Qe. apply andb_true_iff in Qe as [_ Qe].
  destruct e; try discriminate; simpl; now apply IH.
Qed.

Lemma mon_pingServer_exit (pre post : process) (t : Z) (code : option Z) :
  forallb (Restart.quiet 10000) pre = true ->
  t < 10000 ->
  Monitoring.pingServer (pre ++ (t, Close code) :: post) = code_is 0 code.
Proof.
  intros Q Lt. unfold Monitoring.pingServer, Monitoring.pingServer_promise.
  rewrite (timeline_quiet 10000 pre ((t, Close code) :: post) Q).
  rewrite fold_left_app, (mon_ping_quiet pre None Q).
  simpl. apply Z.ltb_lt in Lt. rewrite Lt. simpl.
  now rewrite mon_ping_handler_keeps.
Qed.

Lemma monitor_promise_true (p : process) :
  fold_left Monitoring.ping_handler (timeline 10000 p) None = Some true ->
  exists pre t post,
    p = pre ++ (t, Close (Some 0)) :: post
    /\ forallb (Restart.quiet 10000) pre = true /\ t < 10000.
Proof.
  induction p as [| [t e] rest IH]; simpl.
  - discriminate.
  - destruct (t <? 10000) eqn:Ht.
    + apply Z.ltb_lt in Ht. simpl.
      destruct e as [data | data | code | message]; simpl.
      * intros H. destruct (IH H) as (pre & t' & post & -> & Q & Lt).
        exists ((t, Stdout data) :: pre), t', post. simpl.
        repeat split; try assumption.
        rewrite Q. unfold Restart.quiet at 1. simpl.
        apply Z.ltb_lt in Ht. now rewrite Ht.
      * intros H. destruct (IH H) as (pre & t' & post & -> & Q & Lt).
        exists ((t, Stderr data) :: pre), t', post. simpl.
        repeat split; try assumption.
        rewrite Q. unfold Restart.quiet at 1. simpl.
        apply Z.ltb_lt in Ht. now rewrite Ht.
      * intros H. rewrite mon_ping_handler_keeps in H. injection H as H.
        apply code_is_zero in H. subst code.
        exists [], t, rest. repeat split; assumption.
      * intros H. rewrite mon_ping_handler_keeps in H. discriminate.
    + intros H. destruct e; simpl in H; rewrite mon_ping_handler_keeps in H; discriminate.
Qed.

(** X2.  The monitor's ping answers [true] exactly when the ping process
    exits with code 0 less than 10000 ms after the call, with nothing but
    output before that. *)
Theorem monitor_ping_true_iff (p : process) :
  Monitoring.pingServer p = true
  <-> exists pre t post,
        p = pre ++ (t, Close (Some 0)) :: post
        /\ forallb (Restart.quiet 10000) pre = true /\ t < 10000.
Proof.
  split.
  - unfold Monitoring.pingServer, Monitoring.pingServer_promise.
    destruct (fold_left Monitoring.ping_handler (timeline 10000 p) None) as [[|] |] eqn:E;
      try discriminate.
    intros _. now apply monitor_promise_true.
  - intros (pre & t & post & -> & Q & Lt).
    now rewrite mon_pingServer_exit.
Qed.

(** X3.  The port check answers [true] exactly when the first thing the
    socket does is to connect, less than 5000 ms after the call; an
    error or the timer coming first gives [false], whatever follows. *)
Theorem telnet_true_iff (p : socket_run) :
  Monitoring.telnetServer p = true
  <-> exists t post, p = (t, Connected) :: post /\ t < 5000.
Proof.
  unfold Monitoring.telnetServer, Monitoring.telnetServer_promise.
  split.
  - destruct p as [| [t e] rest]; simpl; [discriminate |].
    destruct (t <? 5000) eqn:Ht.
    + destruct e as [| message]; simpl; rewrite telnet_handler_keeps.
      * intros _. exists t, rest. split; [reflexivity | now apply Z.ltb_lt].
      * discriminate.
    + destruct e; simpl; rewrite telnet_handler_keeps; discriminate.
  - intros (t & post & -> & Lt). simpl.
    apply Z.ltb_lt in Lt. rewrite Lt. simpl.
    now rewrite telnet_handler_keeps.
Qed.

(** *** [executeSSHReboot] *)

Lemma accepted_code (code : option Z) :
  code_is 0 code || code_is_null code || code_is 255 code = true
  <-> Restart.reboot_accepted code.
Proof.
  unfold Restart.reboot_accepted. split.
  - destruct code as [c |]; simpl; [| now right; left].
    rewrite orb_false_r. intros H. apply orb_true_iff in H as [H | H];
      apply Z.eqb_eq in H; subst; [now left | now right; right].
  - intros [-> | [-> | ->]]; reflexivity.
Qed.

Lemma ssh_session_true (p : process) :
  forall s,
    Restart.promise s = None ->
    Restart.promise (fold_left Restart.ssh_handler (timeline Restart.ssh_ceiling p) s)
    = Some (Returned true) ->
    exists pre t code post,
      p = pre ++ (t, Close code) :: post
      /\ forallb (Restart.quiet Restart.ssh_ceiling) pre = true
      /\ t < Restart.ssh_ceiling
      /\ Restart.reboot_accepted code.
Proof.
  induction p as [| [t e] rest IH]; intros s N.
  - simpl. rewrite N. discriminate.
  - cbn [timeline]. destruct (t <? Restart.ssh_ceiling) eqn:Ht.
    + cbn [fold_left].
      destruct e as [data | data | code | message].
      * intros H. apply IH in H; [| exact N].
        destruct H as (pre & t' & code & post & -> & Q & Lt & A).
        exists ((t, Stdout data) :: pre), t', code, post.
        repeat split; try assumption.
        cbn [forallb]. rewrite Q. unfold Restart.quiet at 1. cbn [fst snd].
        now rewrite Ht.
      * intros H. apply IH in H; [| exact N].
        destruct H as (pre & t' & code & post & -> & Q & Lt & A).
        exists ((t, Stderr data) :: pre), t', code, post.
        repeat split; try assumption.
        cbn [forallb]. rewrite Q. unfold Restart.quiet at 1. cbn [fst snd].
        now rewrite Ht.
      * cbn [Restart.ssh_handler].
        destruct (code_is 0 code || code_is_null code || code_is 255 code) eqn:A.
        -- intros _. exists [], t, code, rest.
           repeat split; [now apply Z.ltb_lt | now apply accepted_code].
        -- intros H.
           rewrite (ssh_handler_keeps _ _
                      (Thrown (if String.eqb (Restart.stderr s) EmptyString
                               then "SSH command failed with exit code "
                                    +++ code_to_string code
                               else Restart.stderr s))) in H.
           ++ discriminate.
           ++ cbn [Restart.promise]. now rewrite N.
      * intros H.
        rewrite (ssh_handler_keeps _ _ (Thrown ("SSH connection failed: " +++ message))) in H.
        -- discriminate.
        -- cbn [Restart.ssh_handler Restart.promise]. now rewrite N.
    + cbn [fold_left]. intros H.
      rewrite (ssh_handler_keeps _ _ (Thrown "SSH command timeout")) in H.
      * discriminate.
      * cbn [Restart.ssh_handler Restart.promise]. now rewrite N.
Qed.

Lemma ssh_close_accepted (server : Server) (pre post : process) (t : Z) (code : option Z) :
  forallb (Restart.quiet Restart.ssh_ceiling) pre = true ->
  t < Restart.ssh_ceiling ->
  Restart.reboot_accepted code ->
  Restart.executeSSHReboot server (pre ++ (t, Close code) :: post) = Returned true.
Proof.
  intros Q Lt A. unfold Restart.executeSSHReboot.
  destruct (session_after_quiet pre ((t, Close code) :: post) Q) as (s & -> & N & _).
  cbn [timeline]. apply Z.ltb_lt in Lt. rewrite Lt. cbn [fold_left Restart.ssh_handler].
  apply accepted_code in A. rewrite A.
  rewrite (ssh_handler_keeps _ _ (Returned true)); [reflexivity |].
  cbn [Restart.promise]. now rewrite N.
Qed.

Lemma ssh_never_false (l : list (tick proc_event)) :
  forall s,
    Restart.promise s <> Some (Returned false) ->
    Restart.promise (fold_left Restart.ssh_handler l s) <> Some (Returned false).
Proof.
  induction l as [| e l IH]; intros s N; [exact N |].
  cbn [fold_left]. apply IH.
  destruct e as [[data | data | code | message] |]; cbn [Restart.ssh_handler]; try exact N.
  - destruct (code_is 0 code || code_is_null code || code_is 255 code);
      cbn [Restart.promise]; destruct (Restart.promise s) as [r |]; simpl;
      try exact N; discriminate.
  - cbn [Restart.promise]; destruct (Restart.promise s) as [r |]; simpl;
      try exact N; discriminate.
  - cbn [Restart.promise]; destruct (Restart.promise s) as [r |]; simpl;
      try exact N; discriminate.
Qed.

(** X4.  [executeSSHReboot] never resolves with [false]: it resolves
    with [true] or rejects.  It resolves exactly when the session's
    first completion is a [close] with code 0, null or 255, delivered
    less than 15000 ms after the call and before any spawn error. *)
Theorem ssh_reboot_true_iff (server : Server) (p : process) :
  Restart.executeSSHReboot server p <> Returned false
  /\ (Restart.executeSSHReboot server p = Returned true
      <-> exists pre t code post,
            p = pre ++ (t, Close code) :: post
            /\ forallb (Restart.quiet Restart.ssh_ceiling) pre = true
            /\ t < Restart.ssh_ceiling
            /\ Restart.reboot_accepted code).
Proof.
  split; [| split].
  - unfold Restart.executeSSHReboot.
    pose proof (ssh_never_false (timeline Restart.ssh_ceiling p) Restart.ssh_start) as N.
    fold (Restart.executeSSHReboot_session p) in N.
    destruct (Restart.promise (Restart.executeSSHReboot_session p)) as [r |];
      [| discriminate].
    intros ->. apply N; [discriminate | reflexivity].
  - unfold Restart.executeSSHReboot.
    destruct (Restart.promise (Restart.executeSSHReboot_session p)) as [r |] eqn:E;
      [| discriminate].
    intros ->. unfold Restart.executeSSHReboot_session in E.
    now apply (ssh_session_true p Restart.ssh_start).
  - intros (pre & t & code & post & -> & Q & Lt & A).
    now apply ssh_close_accepted.
Qed.

End ProbeFacts.

(* ================================================================== *)
(** * Further facts: the restart batch *)
(* ================================================================== *)

Section BatchFacts.

Import Restart.

Lemma ssh_spawn_error (server : Server) (pre post : process) (t : Z) (message : string) :
  forallb (quiet ssh_ceiling) pre = true ->
  t < ssh_ceiling ->
  executeSSHReboot server (pre ++ (t, ProcError message) :: post)
  = Thrown ("SSH connection failed: " +++ message).
Proof.
  intros Q Lt. unfold executeSSHReboot.
  destruct (session_after_quiet pre ((t, ProcError message) :: post) Q) as (s & -> & N & _).
  cbn [timeline]. apply Z.ltb_lt in Lt. rewrite Lt. cbn [fold_left ssh_handler].
  rewrite (ssh_handler_keeps _ _ (Thrown ("SSH connection failed: " +++ message)));
    [reflexivity |].
  cbn [promise]. now rewrite N.
Qed.

Lemma run_details (env : Env) (l : list Server) (rl : RestartLog) (io : bool) :
  details (snd (run env (Array l) rl io))
  = fst (loop_result env (sort compare_restartOrder l)).
Proof.
  destruct (run_shape env l rl io) as (tail & _ & _ & D). exact D.
Qed.

Lemma run_errors (env : Env) (l : list Server) (rl : RestartLog) (io : bool) :
  errors (details (snd (run env (Array l) rl io)))
  = flat_map (error_of env) (numbered 0 (sort compare_restartOrder l)).
Proof.
  rewrite run_details. unfold loop_result. now rewrite loop_errors.
Qed.

(** X5.  When the reboot session of a host cannot be started (the
    'error' event of the child process comes before any completion and
    before the 15 s timer), the host is entered in [details.errors] with
    the message "SSH connection failed: ..." and the batch cannot end as
    [completed]. *)
Theorem ssh_spawn_error_recorded
    (env : Env) (l : list Server) (rl : RestartLog) (io : bool)
    (k : nat) (s : Server) (pre post : process) (t : Z) (message : string) :
  let order := sort compare_restartOrder l in
  let st := snd (run env (Array l) rl io) in
  nth_error order k = Some s ->
  pingServer (ping_run env k) = true ->
  ssh_run env k = pre ++ (t, ProcError message) :: post ->
  forallb (quiet ssh_ceiling) pre = true ->
  t < ssh_ceiling ->
  In {| serverId := id s; serverName := name s;
        error := "SSH connection failed: " +++ message |} (errors (details st))
  /\ final_status (details st) = Failed.
Proof.
  intros order st Hk Hp Hs Q Lt.
  assert (F : host_failure env k s = Some ("SSH connection failed: " +++ message)).
  { unfold host_failure. rewrite Hp, Hs. now rewrite ssh_spawn_error. }
  assert (I : In {| serverId := id s; serverName := name s;
                    error := "SSH connection failed: " +++ message |}
                 (errors (details st))).
  { subst st. rewrite run_errors. apply in_flat_map.
    exists (k, s). split.
    - apply (nth_error_numbered _ 0 k s Hk).
    - unfold error_of. cbn [fst snd]. rewrite F. now left. }
  split; [exact I |].
  apply final_status_failed. destruct (errors (details st)); [destruct I | discriminate].
Qed.

(** *** The broadcasts *)

Lemma without_emits_app (a b : list event) :
  without_emits (a ++ b) = without_emits a ++ without_emits b.
Proof. unfold without_emits. apply filter_app. Qed.

Lemma iteration_without_emits (env : Env) (io : bool) (logId : Z) (k : nat) (s : Server) :
  without_emits (iteration_events env io logId k s) = iteration_events env false logId k s.
Proof.
  unfold iteration_events, success_events, failure_events.
  destruct (pingServer (ping_run env k)); destruct (host_failure env k s);
    destruct io; destruct (0 <? restartDelay s); reflexivity.
Qed.

Lemma loop_without_emits (env : Env) (io : bool) (logId : Z) (l : list Server) :
  forall k,
    without_emits (loop_events env io logId k l) = loop_events env false logId k l.
Proof.
  induction l as [| s l IH]; intros k; [reflexivity |].
  cbn [loop_events]. now rewrite without_emits_app, iteration_without_emits, IH.
Qed.

(** X6.  Whether [executeRestart] is given a socket server or not makes
    no difference to what it does to the hosts and to the batch record:
    the two runs end the same way, leave the same record and the same
    details, and make the same calls in the same order, the broadcasts
    apart. *)
Theorem broadcast_does_not_interfere (env : Env) (servers : Argument) (rl : RestartLog) :
  fst (run env servers rl true) = fst (run env servers rl false)
  /\ restartLog (snd (run env servers rl true)) = restartLog (snd (run env servers rl false))
  /\ details (snd (run env servers rl true)) = details (snd (run env servers rl false))
  /\ without_emits (trace (snd (run env servers rl true)))
     = trace (snd (run env servers rl false)).
Proof.
  destruct servers as [l | typeError].
  - rewrite !run_array, !restart_all_run. cbv zeta.
    destruct (store_update env (completion_patch env (sort compare_restartOrder l)))
      as [m |] eqn:U.
    + rewrite !restart_failed_run. cbn [clock_reads trace details restartLog].
      destruct (store_update env
                  (failure_patch env (S (snd (loop_result env (sort compare_restartOrder l)))) m));
        cbn [fst snd trace details restartLog]; repeat split;
        rewrite !without_emits_app, loop_without_emits; reflexivity.
    + cbn [fst snd trace details restartLog]. repeat split.
      rewrite !without_emits_app, loop_without_emits. reflexivity.
  - rewrite !run_not_array, !restart_failed_run.
    cbn [initial clock_reads trace details restartLog].
    destruct (store_update env (failure_patch env 0 typeError));
      cbn [fst snd trace details restartLog]; repeat split.
Qed.

Lemma snoc3 {A : Type} (a : list A) (x y z : A) :
  a ++ [x; y; z] = (a ++ [x; y]) ++ [z].
Proof. now rewrite <- app_assoc. Qed.

Lemma final_broadcast_app (a b : list event) :
  existsb final_broadcast (a ++ b) = existsb final_broadcast a || existsb final_broadcast b.
Proof. apply existsb_app. Qed.

Lemma iteration_no_final (env : Env) (io : bool) (logId : Z) (k : nat) (s : Server) :
  existsb final_broadcast (iteration_events env io logId k s) = false.
Proof.
  unfold iteration_events, success_events, failure_events.
  destruct (pingServer (ping_run env k)); destruct (host_failure env k s);
    destruct io; destruct (0 <? restartDelay s); reflexivity.
Qed.

Lemma loop_no_final (env : Env) (io : bool) (logId : Z) (l : list Server) :
  forall k, existsb final_broadcast (loop_events env io logId k l) = false.
Proof.
  induction l as [| s l IH]; intros k; [reflexivity |].
  cbn [loop_events]. now rewrite final_broadcast_app, iteration_no_final, IH.
Qed.

(** X7.  With a socket server, a run that returns ends with one
    broadcast that announces the end of the batch, and the status it
    announces is the status stored in the batch record; a run that
    fails (the store rejected both updates) announces no end at all. *)
Theorem final_broadcast_matches_record (env : Env) (servers : Argument) (rl : RestartLog) :
  let res := fst (run env servers rl true) in
  let st := snd (run env servers rl true) in
  (res = Returned tt
   /\ exists pre m,
        trace st = pre ++ [Emit m]
        /\ existsb final_broadcast pre = false
        /\ rs_logId m = log_id rl
        /\ rs_status m = PhaseFinal (log_status (restartLog st)))
  \/ ((exists message, res = Thrown message)
      /\ existsb final_broadcast (trace st) = false
      /\ restartLog st = rl).
Proof.
  destruct servers as [l | typeError]; cbv zeta.
  - rewrite !run_array, !restart_all_run. cbv zeta.
    destruct (store_update env (completion_patch env (sort compare_restartOrder l)))
      as [m |] eqn:U.
    + rewrite !restart_failed_run. cbn [clock_reads trace details restartLog].
      destruct (store_update env
                  (failure_patch env (S (snd (loop_result env (sort compare_restartOrder l)))) m))
        as [m' |] eqn:U'; cbn [fst snd trace details restartLog].
      * right. split; [now exists m' |]. split; [| reflexivity].
        rewrite !final_broadcast_app, loop_no_final. reflexivity.
      * left. split; [reflexivity |].
        eexists. eexists. split; [cbn [failed_events]; apply snoc3 |].
        split; [| split; reflexivity].
        rewrite !final_broadcast_app, loop_no_final. reflexivity.
    + left. cbn [fst snd trace details restartLog]. split; [reflexivity |].
      eexists. eexists. split; [cbn [completed_events]; reflexivity |].
      split; [| split; reflexivity].
      rewrite !final_broadcast_app, loop_no_final. reflexivity.
  - rewrite !run_not_array, !restart_failed_run.
    cbn [initial clock_reads trace details restartLog].
    destruct (store_update env (failure_patch env 0 typeError)) as [m' |];
      cbn [fst snd trace details restartLog].
    + right. split; [now exists m' |]. split; reflexivity.
    + left. split; [reflexivity |].
      eexists. eexists. split; [cbn [failed_events]; apply (snoc3 []) |].
      split; [reflexivity | split; reflexivity].
Qed.

(** *** The details of a batch *)

Lemma loop_servers (env : Env) (l : list Server) :
  forall k dn,
    map entry_id (servers (fst (loop_details env k l dn)))
    = map entry_id (servers (fst dn))
      ++ map (fun ks => id (snd ks)) (filter (went_through env) (numbered k l)).
Proof.
  induction l as [| s l IH]; intros k dn.
  - cbn. now rewrite app_nil_r.
  - cbn [loop_details]. rewrite IH, numbered_cons. cbn [filter].
    unfold iteration_details, went_through at 2. cbn [fst snd].
    destruct (host_failure env k s); cbn [fst snd servers map].
    + reflexivity.
    + rewrite map_app, <- app_assoc. reflexivity.
Qed.

Lemma error_ids (env : Env) (hosts : list (nat * Server)) :
  map serverId (flat_map (error_of env) hosts)
  = map (fun ks => id (snd ks)) (filter (fun ks => negb (went_through env ks)) hosts).
Proof.
  induction hosts as [| ks hosts IH]; [reflexivity |].
  cbn [flat_map filter]. rewrite map_app, IH.
  unfold error_of at 1, went_through at 2.
  destruct (host_failure env (fst ks) (snd ks)); reflexivity.
Qed.

Lemma no_error_all_through (env : Env) (hosts : list (nat * Server)) :
  flat_map (error_of env) hosts = [] <-> forallb (went_through env) hosts = true.
Proof.
  induction hosts as [| ks hosts IH]; [now split |].
  cbn [flat_map forallb]. unfold error_of at 1, went_through at 1.
  destruct (host_failure env (fst ks) (snd ks)); cbn.
  - split; discriminate.
  - exact IH.
Qed.

(** X8.  The details of a batch list every host once, in batch order:
    the hosts whose restart command went through in [details.servers],
    the others in [details.errors]; the outcome computed from them is
    [completed] exactly when every restart went through. *)
Theorem details_list_each_host_once
    (env : Env) (l : list Server) (rl : RestartLog) (io : bool) :
  let hosts := numbered 0 (sort compare_restartOrder l) in
  let st := snd (run env (Array l) rl io) in
  map entry_id (servers (details st))
  = map (fun ks => id (snd ks)) (filter (went_through env) hosts)
  /\ map serverId (errors (details st))
     = map (fun ks => id (snd ks)) (filter (fun ks => negb (went_through env ks)) hosts)
  /\ (final_status (details st) = Completed
      <-> forallb (went_through env) hosts = true).
Proof.
  intros hosts st. subst hosts st. split; [| split].
  - rewrite run_details. unfold loop_result. now rewrite loop_servers.
  - rewrite run_errors. apply error_ids.
  - rewrite final_status_completed, run_errors, <- no_error_all_through.
    apply length_zero_iff_nil.
Qed.

(** *** The order of the input *)

Lemma filter_perm {A : Type} (f : A -> bool) (l l' : list A) :
  Permutation l l' -> Permutation (filter f l) (filter f l').
Proof.
  induction 1 as [| x l l' _ IH | x y l | l l' l'' _ IH1 _ IH2]; cbn [filter].
  - constructor.
  - destruct (f x); [now constructor | exact IH].
  - destruct (f x), (f y); try reflexivity. apply perm_swap.
  - now transitivity (filter f l').
Qed.

Lemma one_per_restartOrder (p : Z) (l : list Server) :
  NoDup (map restartOrder l) ->
  (List.length (filter (has_restartOrder p) l) <= 1)%nat.
Proof.
  induction l as [| x l IH]; intros N; [cbn; lia |].
  cbn [map] in N. inversion N as [| ? ? Hx Hl]; subst.
  cbn [filter]. destruct (has_restartOrder p x) eqn:E; [| now apply IH].
  assert (Z : filter (has_restartOrder p) l = []).
  { destruct (filter (has_restartOrder p) l) as [| y rest] eqn:F; [reflexivity |].
    exfalso. apply Hx.
    assert (I : In y (filter (has_restartOrder p) l)) by (rewrite F; now left).
    apply filter_In in I as [I Ey].
    unfold has_restartOrder in E, Ey. apply Z.eqb_eq in E, Ey.
    rewrite E, <- Ey. now apply in_map. }
  rewrite Z. cbn. lia.
Qed.

Lemma sort_of_permutation (l l' : list Server) :
  NoDup (map restartOrder l) ->
  Permutation l l' ->
  sort compare_restartOrder l = sort compare_restartOrder l'.
Proof.
  intros N P. apply stable_sorted_unique; try apply sort_sorted.
  intros p. rewrite !sort_stable.
  pose proof (one_per_restartOrder p l N) as L.
  pose proof (filter_perm (has_restartOrder p) l l' P) as F.
  destruct (filter (has_restartOrder p) l) as [| x [| y rest]].
  - apply Permutation_nil in F. now rewrite F.
  - apply Permutation_length_1_inv in F. now rewrite F.
  - cbn in L. lia.
Qed.

(** X9.  When the hosts of a batch have pairwise different restart
    priorities, the order in which the caller lists them does not
    matter: two arrays with the same hosts give the same run. *)
Theorem input_order_is_irrelevant
    (env : Env) (l l' : list Server) (rl : RestartLog) (io : bool) :
  NoDup (map restartOrder l) ->
  Permutation l l' ->
  run env (Array l) rl io = run env (Array l') rl io.
Proof.
  intros N P. rewrite !run_array, !restart_all_run. cbv zeta.
  now rewrite (sort_of_permutation l l' N P).
Qed.

End BatchFacts.


(* ================================================================== *)
(** * Further facts: the monitor *)
(* ================================================================== *)

Section SweepFacts.

Import Monitoring.

Lemma news_segment (env : Env) (io : bool) (st : State) (seg : list event) :
  trace (sweep env io st) = trace st ++ seg -> news env io st = seg.
Proof.
  intros H. unfold news. rewrite H.
  rewrite skipn_app, skipn_all, Nat.sub_diag. reflexivity.
Qed.

Lemma sweep_reports (env : Env) (io : bool) (st : State) :
  exists ls seg,
    logs (sweep env io st) = logs st ++ ls
    /\ Forall2 (observes env) (finished env st) ls
    /\ Forall consistent ls
    /\ trace (sweep env io st) = trace st ++ seg
    /\ (if io then Forall2 (announces env) (finished env st) (emits seg)
        else emits seg = []).
Proof.
  unfold sweep, finished. rewrite monitorAllServers_run.
  destruct (findAll_error env) as [m |].
  - exists [], [LogError "Monitoring error:" m]. cbn. rewrite app_nil_r.
    repeat split; try constructor. destruct io; [constructor | reflexivity].
  - destruct (monitor_loop_reports env io (filter isActive (db st)) st)
      as (ls & seg & Hl & Ho & Hc & Ht & He).
    destruct (monitor_loop env io (filter isActive (db st)) st) as [[a | m] st'];
      cbn [snd] in *.
    + exists ls, seg. repeat split; assumption.
    + exists ls, (seg ++ [LogError "Monitoring error:" m]). cbn.
      rewrite Ht, <- app_assoc, emits_app. cbn [emits flat_map app]. rewrite app_nil_r.
      repeat split; assumption.
Qed.

(** X10.  A sweep appends one observation for each host whose iteration
    it runs to its end, in the order of the sweep, and keeps the
    observations made before; each one reports the two probe results of
    its host, and its error message is missing exactly when both probes
    succeeded. *)
Theorem sweep_observations (env : Env) (io : bool) (st : State) :
  exists ls,
    logs (sweep env io st) = logs st ++ ls
    /\ Forall2 (observes env) (finished env st) ls
    /\ Forall consistent ls.
Proof.
  destruct (sweep_reports env io st) as (ls & seg & Hl & Ho & Hc & _).
  exists ls. repeat split; assumption.
Qed.

(** X11.  Given a socket server, a sweep broadcasts one 'server-status'
    event for each host whose iteration it runs to its end, in the order
    of the sweep, carrying the host's key, the status just computed and
    the two probe results; given none, it broadcasts nothing. *)
Theorem sweep_broadcasts (env : Env) (st : State) :
  Forall2 (announces env) (finished env st) (emits (news env true st))
  /\ emits (news env false st) = [].
Proof.
  split.
  - destruct (sweep_reports env true st) as (ls & seg & _ & _ & _ & Ht & He).
    now rewrite (news_segment env true st seg Ht).
  - destruct (sweep_reports env false st) as (ls & seg & _ & _ & _ & Ht & He).
    now rewrite (news_segment env false st seg Ht).
Qed.

(** *** Hosts that are not active *)

Lemma attempted_incl (env : Env) (l : list Server) (r : Server) :
  In r (attempted env l) -> In r l.
Proof.
  induction l as [| s l IH]; [intros [] |].
  cbn [attempted]. intros [-> | H]; [now left |].
  right. destruct (writes_ok env s); [now apply IH | destruct H].
Qed.

Lemma same_key_same_row (rows : list Server) (r s : Server) :
  NoDup (map id rows) -> In r rows -> In s rows -> id r = id s -> r = s.
Proof.
  intros N Hr Hs E.
  pose proof (row_of_member rows r N Hr) as R1.
  pose proof (row_of_member rows s N Hs) as R2.
  rewrite E in R1. rewrite R1 in R2. now injection R2.
Qed.

(** X12.  A sweep leaves the hosts that are not active alone: it issues
    no update for such a host and its row is afterwards what it was. *)
Theorem inactive_hosts_left_alone (env : Env) (io : bool) (st : State) (r : Server) :
  NoDup (map id (db st)) ->
  In r (db st) ->
  isActive r = false ->
  row (id r) (db (sweep env io st)) = Some r
  /\ ~ In (id r) (updated_keys (news env io st)).
Proof.
  intros N Hr Ha.
  assert (Out : forall s, In s (filter isActive (db st)) -> id s <> id r).
  { intros s Hs E. apply filter_In in Hs as [Hs As].
    rewrite (same_key_same_row (db st) s r N Hs Hr E) in As. congruence. }
  split.
  - destruct (sweep_rows env io st r N Hr) as (r' & Hrow & [(_ & W & _) | ->]);
      [| exact Hrow].
    apply written_incl in W. now destruct (Out r W).
  - destruct (sweep_trace env io st) as (tail & Ht & _ & Hk & _).
    destruct (findAll_error env).
    + rewrite (news_segment env io st tail Ht), Hk. intros [].
    + destruct (monitor_loop_trace env io (filter isActive (db st)) st)
        as (seg & Hs & _ & Hks).
      rewrite Hs, <- app_assoc in Ht.
      rewrite (news_segment env io st (seg ++ tail) Ht), updated_keys_app, Hk, Hks,
        app_nil_r.
      intros I. apply in_map_iff in I as (s & E & I).
      apply attempted_incl in I. now destruct (Out s I).
Qed.

End SweepFacts.

(* ================================================================== *)
(** * Further facts: the dashboard *)
(* ================================================================== *)

Section DashboardFacts.

Import Monitoring Dashboard.

Lemma keys_on_server_status (data : ServerStatus) (board : list Entry) :
  keys (on_server_status data board) = keys board.
Proof.
  unfold keys, on_server_status. rewrite map_map. apply map_ext.
  intros e. destruct (id (server e) =? ss_serverId data); reflexivity.
Qed.

Lemma keys_listen (events : list ServerStatus) :
  forall board, keys (listen events board) = keys board.
Proof.
  induction events as [| data events IH]; intros board; [reflexivity |].
  cbn [listen fold_left]. fold (listen events (on_server_status data board)).
  now rewrite IH, keys_on_server_status.
Qed.

Lemma shown_on_server_status (key : Z) (data : ServerStatus) (board : list Entry) :
  shown key (on_server_status data board)
  = option_map (fun old => if key =? ss_serverId data then ss_status data else old)
      (shown key board).
Proof.
  unfold shown, on_server_status.
  induction board as [| e board IH]; [reflexivity |].
  cbn [map find].
  destruct (id (server e) =? ss_serverId data) eqn:E; cbn [server set_status id].
  - destruct (id (server e) =? key) eqn:K; [| exact IH].
    cbn [option_map server set_status status].
    apply Z.eqb_eq in E, K. rewrite <- K, E, Z.eqb_refl. reflexivity.
  - destruct (id (server e) =? key) eqn:K; [| exact IH].
    cbn [option_map]. apply Z.eqb_eq in K. rewrite <- K, E. reflexivity.
Qed.

Lemma shown_listen (key : Z) (events : list ServerStatus) :
  forall board,
    shown key (listen events board) = option_map (latest key events) (shown key board).
Proof.
  induction events as [| data events IH]; intros board.
  - cbn. now destruct (shown key board).
  - cbn [listen fold_left]. fold (listen events (on_server_status data board)).
    rewrite IH, shown_on_server_status.
    destruct (shown key board); reflexivity.
Qed.

Lemma shown_some (key : Z) (board : list Entry) :
  In key (keys board) -> exists old, shown key board = Some old.
Proof.
  unfold keys, shown. induction board as [| e board IH]; [intros [] |].
  cbn [map find]. intros [E | I].
  - rewrite E, Z.eqb_refl. now eexists.
  - destruct (id (server e) =? key); [now eexists | now apply IH].
Qed.

Lemma latest_absent (key : Z) (events : list ServerStatus) :
  forall old, ~ In key (map ss_serverId events) -> latest key events old = old.
Proof.
  induction events as [| data events IH]; intros old N; [reflexivity |].
  cbn [latest fold_left]. fold (latest key events).
  destruct (key =? ss_serverId data) eqn:E.
  - apply Z.eqb_eq in E. exfalso. apply N. now left.
  - apply IH. intros I. apply N. now right.
Qed.

Lemma announced_keys (env : Env) (hosts : list Server) (events : list ServerStatus) :
  Forall2 (announces env) hosts events -> map ss_serverId events = map id hosts.
Proof.
  induction 1 as [| s m hosts events (E & _) _ IH]; [reflexivity |].
  cbn [map]. now rewrite E, IH.
Qed.

Lemma latest_announced (env : Env) (hosts : list Server) (events : list ServerStatus) :
  Forall2 (announces env) hosts events ->
  NoDup (map id hosts) ->
  forall s old, In s hosts -> latest (id s) events old = new_status env s.
Proof.
  induction 1 as [| h m hosts events A F IH]; intros N s old I; [destruct I |].
  cbn [map] in N. apply NoDup_cons_iff in N as [Nh N].
  cbn [latest fold_left]. fold (latest (id s) events).
  destruct A as (Ak & As & _).
  destruct I as [-> | I].
  - rewrite Ak, Z.eqb_refl, As. apply latest_absent.
    now rewrite (announced_keys env hosts events F).
  - now apply IH.
Qed.

Lemma completed_incl (env : Env) (l : list Server) (r : Server) :
  In r (completed env l) -> In r (written env l).
Proof.
  induction l as [| s l IH]; [intros [] |].
  cbn [completed written]. unfold writes_ok.
  destruct (update_ok env s), (create_ok env s); cbn [andb In];
    try (intros F; now destruct F).
  intros [-> | I]; [now left | right; now apply IH].
Qed.

Lemma completed_NoDup (env : Env) (l : list Server) :
  NoDup (map id l) -> NoDup (map id (completed env l)).
Proof.
  induction l as [| s l IH]; intros N; [constructor |].
  cbn [map] in N. apply NoDup_cons_iff in N as [Ns N].
  cbn [completed]. destruct (writes_ok env s); [| constructor].
  cbn [map]. constructor; [| now apply IH].
  intros I. apply Ns. apply in_map_iff in I as (x & E & I).
  apply completed_incl, written_incl in I. rewrite <- E. now apply in_map.
Qed.

Lemma finished_written (env : Env) (st : State) (s : Server) :
  In s (finished env st) ->
  findAll_error env = None /\ In s (written env (filter isActive (db st))).
Proof.
  unfold finished. destruct (findAll_error env); [intros [] |].
  intros I. split; [reflexivity | now apply completed_incl].
Qed.

Lemma finished_NoDup (env : Env) (st : State) :
  NoDup (map id (db st)) -> NoDup (map id (finished env st)).
Proof.
  intros N. unfold finished. destruct (findAll_error env); [constructor |].
  now apply completed_NoDup, NoDup_ids_filter.
Qed.

(** The row of a host that the sweep has written carries the status the
    probes gave. *)
Lemma written_status (env : Env) (io : bool) (st : State) (s : Server) :
  NoDup (map id (db st)) ->
  findAll_error env = None ->
  In s (written env (filter isActive (db st))) ->
  status_of (id s) (db (sweep env io st)) = Some (new_status env s).
Proof.
  intros N F W. rewrite sweep_db, F.
  assert (Hs : In s (db st)).
  { apply written_incl in W. now apply filter_In in W as [W _]. }
  assert (H := monitor_loop_rows env io (filter isActive (db st)) st
                 (fresh_snapshot _ N) (NoDup_ids_filter _ _ N) (id s)).
  rewrite (row_of_member _ _ N Hs) in H.
  destruct H as (r' & Hr' & [[_ (_ & S & _)] | [NW _]]); [| now destruct NW].
  unfold status_of. rewrite Hr'. cbn. now rewrite S.
Qed.

(** X13.  A dashboard that listens to the broadcasts of a sweep shows,
    for every host on it whose iteration the sweep ran to its end, the
    status that the sweep stored for that host; the board keeps its
    entries. *)
Theorem dashboard_follows_sweep
    (env : Env) (st : State) (board : list Entry) (s : Server) :
  NoDup (map id (db st)) ->
  In s (finished env st) ->
  In (id s) (keys board) ->
  shown (id s) (listen (emits (news env true st)) board)
  = status_of (id s) (db (sweep env true st))
  /\ keys (listen (emits (news env true st)) board) = keys board.
Proof.
  intros N Fin K. split; [| apply keys_listen].
  destruct (finished_written env st s Fin) as [F W].
  rewrite (written_status env true st s N F W), shown_listen.
  destruct (shown_some (id s) board K) as [old ->]. cbn [option_map].
  destruct (sweep_reports env true st) as (ls & seg & _ & _ & _ & Ht & He).
  rewrite (news_segment env true st seg Ht).
  now rewrite (latest_announced env (finished env st) (emits seg) He
                 (finished_NoDup env st N) s old Fin).
Qed.

(** *** The counters of GET /stats *)

Lemma counters_add_up (rows : list Server) :
  (forall r, In r rows -> isActive r = true -> status r <> Unknown) ->
  (onlineServers rows + offlineServers rows = totalServers rows)%nat.
Proof.
  unfold onlineServers, offlineServers, totalServers.
  induction rows as [| r rows IH]; intros H; [reflexivity |].
  cbn [filter].
  assert (IH' := IH (fun x I => H x (or_intror I))).
  specialize (H r (or_introl eq_refl)).
  destruct (isActive r); cbn [andb]; [| exact IH'].
  destruct (status r); cbn [status_eqb List.length]; try lia.
  now destruct H.
Qed.

Lemma active_update_where (k : Z) (p : Patch) (rows : list Server) :
  map isActive (update_where k p rows) = map isActive rows.
Proof.
  unfold update_where. rewrite map_map. apply map_ext.
  intros a. destruct (id a =? k); reflexivity.
Qed.

Lemma monitor_loop_active (env : Env) (io : bool) (l : list Server) :
  forall st, map isActive (db (snd (monitor_loop env io l st))) = map isActive (db st).
Proof.
  induction l as [| s rest IH]; intros st; [reflexivity |].
  rewrite monitor_loop_cons.
  destruct (monitor_one_run env io s st) as (seg & Hdb & _).
  destruct (monitor_one env io s st) as [[a | m] st1]; cbn [fst snd] in *.
  - rewrite IH, Hdb. destruct (update_ok env s); [apply active_update_where | reflexivity].
  - rewrite Hdb. destruct (update_ok env s); [apply active_update_where | reflexivity].
Qed.

Lemma totalServers_flags (rows : list Server) :
  totalServers rows = List.length (filter (fun b : bool => b) (map isActive rows)).
Proof.
  unfold totalServers. induction rows as [| r rows IH]; [reflexivity |].
  cbn [filter map]. destruct (isActive r); cbn [List.length]; now rewrite IH.
Qed.

(** X14.  A sweep, whatever happens in it, does not change the number
    of active hosts that GET /stats counts; and after a sweep in which
    the store accepted every write, every active host counts either as
    online or as offline: the two counters add up to the total. *)
Theorem stats_after_full_sweep (env : Env) (io : bool) (st : State) :
  totalServers (db (sweep env io st)) = totalServers (db st)
  /\ (NoDup (map id (db st)) ->
      findAll_error env = None ->
      (forall s, In s (db st) -> isActive s = true -> writes_ok env s = true) ->
      (onlineServers (db (sweep env io st)) + offlineServers (db (sweep env io st))
       = totalServers (db (sweep env io st)))%nat).
Proof.
  split.
  - rewrite !totalServers_flags, sweep_db.
    destruct (findAll_error env); [reflexivity | now rewrite monitor_loop_active].
  - intros N F W.
    apply counters_add_up. intros r' I A.
    assert (N' : NoDup (map id (db (sweep env io st)))) by now rewrite sweep_ids.
    assert (K : In (id r') (map id (db st))).
    { rewrite <- (sweep_ids env io st). now apply in_map. }
    apply in_map_iff in K as (r & E & Hr).
    assert (All : forall s, In s (filter isActive (db st)) -> writes_ok env s = true).
    { intros s Hs. apply filter_In in Hs as [Hs As]. now apply W. }
    destruct (all_attempted env (filter isActive (db st)) All) as [_ Wr].
    assert (H := monitor_loop_rows env io (filter isActive (db st)) st
                   (fresh_snapshot _ N) (NoDup_ids_filter _ _ N) (id r)).
    rewrite (row_of_member _ _ N Hr) in H.
    destruct H as (r'' & Hr'' & H).
    assert (R : row (id r') (db (sweep env io st)) = Some r') by now apply row_of_member.
    rewrite sweep_db, F, <- E, Hr'' in R. injection R as ->.
    destruct H as [[_ (_ & S & _)] | [NW ->]].
    + rewrite S. unfold new_status. destruct (reachable env r && portOpen env r); discriminate.
    + exfalso. apply NW. rewrite Wr. now apply filter_In.
Qed.

End DashboardFacts.

Section TimestampFacts.

Import Dashboard.

(** X15.  What [formatTimestamp] prints for a valid timestamp: 'Just
    now' when less than a minute has passed (also for a timestamp in
    the future), the whole minutes from 1 to 59, the whole hours from 1
    to 23, and the date once a day or more has passed. *)
Theorem formatTimestamp_ranges (date now : Z) :
  match formatTimestamp (Some date) now with
  | JustNow => now - date < 60000
  | MinutesAgo m => 1 <= m < 60 /\ m * 60000 <= now - date < (m + 1) * 60000
  | HoursAgo h => 1 <= h < 24 /\ h * 3600000 <= now - date < (h + 1) * 3600000
  | OnDate d => d = Some date /\ 86400000 <= now - date
  end.
Proof.
  unfold formatTimestamp. cbv zeta.
  change (1000 * 60) with 60000.
  pose proof (Z.mul_div_le (now - date) 60000 eq_refl) as L.
  pose proof (Z.mul_succ_div_gt (now - date) 60000 eq_refl) as U.
  remember ((now - date) / 60000) as q eqn:Q. clear Q.
  destruct (q <? 1) eqn:E1; [apply Z.ltb_lt in E1; lia |].
  apply Z.ltb_ge in E1.
  destruct (q <? 60) eqn:E2; [apply Z.ltb_lt in E2; lia |].
  apply Z.ltb_ge in E2.
  pose proof (Z.mul_div_le q 60 eq_refl) as L'.
  pose proof (Z.mul_succ_div_gt q 60 eq_refl) as U'.
  destruct (q <? 1440) eqn:E3.
  - apply Z.ltb_lt in E3. remember (q / 60) as h eqn:H. clear H. lia.
  - apply Z.ltb_ge in E3. split; [reflexivity | lia].
Qed.

End TimestampFacts.

(* ================================================================== *)
(** * Further facts: starting and stopping the monitor *)
(* ================================================================== *)

Section ServiceFacts.

Import Service.

Variable world : nat -> Monitoring.Env.
Variable io : bool.

Lemma run_sweeps (k : nat) (st : State) :
  intervals (Nat.iter k (run_sweep world io) st) = intervals st
  /\ monitoringInterval (Nat.iter k (run_sweep world io) st) = monitoringInterval st
  /\ next_handle (Nat.iter k (run_sweep world io) st) = next_handle st
  /\ sweeps_run (Nat.iter k (run_sweep world io) st) = (k + sweeps_run st)%nat.
Proof.
  induction k as [| k (I & M & H & R)]; [repeat split |].
  rewrite !Nat.iter_succ. remember (Nat.iter k (run_sweep world io) st) as x eqn:X in *. clear X.
  unfold run_sweep. cbn [intervals monitoringInterval next_handle sweeps_run].
  rewrite I, M, H, R. repeat split.
Qed.

Lemma tick_idle (st : State) : intervals st = [] -> tick world io st = st.
Proof. unfold tick. now intros ->. Qed.

Lemma ticks_idle (n : nat) (st : State) : intervals st = [] -> ticks n world io st = st.
Proof.
  intros E. unfold ticks. induction n as [| n IH]; [reflexivity |].
  rewrite !Nat.iter_succ. rewrite IH. now apply tick_idle.
Qed.

Lemma tick_single (h : nat) (st : State) :
  intervals st = [h] -> tick world io st = run_sweep world io st.
Proof. unfold tick. now intros ->. Qed.

Lemma ticks_single (h : nat) (n : nat) (st : State) :
  intervals st = [h] ->
  ticks n world io st = Nat.iter n (run_sweep world io) st.
Proof.
  intros E. unfold ticks. induction n as [| n IH]; [reflexivity |].
  rewrite !Nat.iter_succ. rewrite IH. apply (tick_single h).
  destruct (run_sweeps n st) as (I & _). now rewrite I.
Qed.

Lemma monitor_run_sweeps (k : nat) (st : State) :
  monitor (Nat.iter k (run_sweep world io) st)
  = Monitoring.sweeps (map world (seq (sweeps_run st) k)) io (monitor st).
Proof.
  induction k as [| k IH]; [reflexivity |].
  rewrite !Nat.iter_succ. unfold run_sweep at 1. cbn [monitor].
  destruct (run_sweeps k st) as (_ & _ & _ & R).
  rewrite R, IH, seq_S, map_app. unfold Monitoring.sweeps.
  rewrite fold_left_app. cbn [map fold_left].
  now rewrite Nat.add_comm.
Qed.

Lemma clear_newest (l : list nat) (h : nat) :
  Forall (fun x => (x < h)%nat) l ->
  filter (fun x => negb (Nat.eqb x h)) (l ++ [h]) = l.
Proof.
  intros F. rewrite filter_app. cbn [filter]. rewrite Nat.eqb_refl. cbn [negb].
  rewrite app_nil_r. induction F as [| x l Lt _ IH]; [reflexivity |].
  cbn [filter]. destruct (Nat.eqb x h) eqn:E.
  - apply Nat.eqb_eq in E. lia.
  - cbn [negb]. now rewrite IH.
Qed.

Lemma start_intervals (st : State) :
  intervals (startMonitoring world io st) = intervals st ++ [next_handle st].
Proof. reflexivity. Qed.

Lemma start_handle (st : State) :
  monitoringInterval (startMonitoring world io st) = Some (next_handle st).
Proof. reflexivity. Qed.

Lemma start_next_handle (st : State) :
  next_handle (startMonitoring world io st) = S (next_handle st).
Proof. reflexivity. Qed.

Lemma start_as_sweep (st : State) :
  startMonitoring world io st
  = run_sweep world io
      {| monitoringInterval := Some (next_handle st);
         intervals := intervals st ++ [next_handle st];
         next_handle := S (next_handle st);
         messages := messages st ++ ["Starting server monitoring service"];
         sweeps_run := sweeps_run st; monitor := monitor st |}.
Proof. reflexivity. Qed.

Lemma stop_intervals (st : State) (h : nat) :
  monitoringInterval st = Some h ->
  intervals (stopMonitoring st) = filter (fun x => negb (Nat.eqb x h)) (intervals st)
  /\ monitoringInterval (stopMonitoring st) = Some h
  /\ sweeps_run (stopMonitoring st) = sweeps_run st.
Proof. unfold stopMonitoring. intros ->. repeat split. Qed.

(** X16.  From a process in which no timer is set, [startMonitoring]
    runs a first sweep at once and then one sweep per minute: after [n]
    minutes the monitor is where [n + 1] consecutive sweeps take it. *)
Theorem start_runs_a_sweep_per_minute (st : State) (n : nat) :
  intervals st = [] ->
  monitor (ticks n world io (startMonitoring world io st))
  = Monitoring.sweeps (map world (seq (sweeps_run st) (S n))) io (monitor st)
  /\ sweeps_run (ticks n world io (startMonitoring world io st))
     = (sweeps_run st + S n)%nat.
Proof.
  intros E.
  assert (I : intervals (startMonitoring world io st) = [next_handle st])
    by now rewrite start_intervals, E.
  rewrite (ticks_single _ n _ I), start_as_sweep, <- Nat.iter_succ_r.
  split.
  - now rewrite monitor_run_sweeps.
  - destruct (run_sweeps (S n)
                {| monitoringInterval := Some (next_handle st);
                   intervals := intervals st ++ [next_handle st];
                   next_handle := S (next_handle st);
                   messages := messages st ++ ["Starting server monitoring service"];
                   sweeps_run := sweeps_run st; monitor := monitor st |})
      as (_ & _ & _ & R).
    rewrite R. cbn [sweeps_run]. lia.
Qed.

(** X17.  [stopMonitoring] after [startMonitoring] clears the timer that
    the start has set: the timers that were set before are the only ones
    left, and if there were none the monitor runs no further sweep,
    however long one waits. *)
Theorem stop_clears_the_timer (st : State) (n : nat) :
  handles_ok st ->
  intervals (stopMonitoring (startMonitoring world io st)) = intervals st
  /\ (intervals st = [] ->
      ticks n world io (stopMonitoring (startMonitoring world io st))
      = stopMonitoring (startMonitoring world io st)).
Proof.
  intros H.
  destruct (stop_intervals _ _ (start_handle st)) as (I & _).
  rewrite start_intervals, (clear_newest _ _ H) in I.
  split; [exact I |].
  intros E. apply ticks_idle. now rewrite I.
Qed.

(** X18.  A second [startMonitoring] overwrites the handle of the first
    timer: [stopMonitoring] then clears the second timer only, calling
    it again changes nothing, and the monitor goes on running a sweep
    every minute. *)
Theorem second_start_leaks_a_timer (st : State) (n : nat) :
  handles_ok st ->
  let twice := startMonitoring world io (startMonitoring world io st) in
  intervals (stopMonitoring twice) = intervals st ++ [next_handle st]
  /\ intervals (stopMonitoring (stopMonitoring twice)) = intervals st ++ [next_handle st]
  /\ (intervals st = [] ->
      sweeps_run (ticks n world io (stopMonitoring twice))
      = (sweeps_run (stopMonitoring twice) + n)%nat).
Proof.
  intros H twice.
  assert (F : Forall (fun x => (x < S (next_handle st))%nat)
                (intervals st ++ [next_handle st])).
  { apply Forall_app. split.
    - eapply Forall_impl; [| exact H]. cbn. intros; lia.
    - repeat constructor. }
  destruct (stop_intervals twice _ (start_handle (startMonitoring world io st)))
    as (I & M & _).
  unfold twice in I at 2. rewrite !start_intervals, start_next_handle in I.
  rewrite start_next_handle in M.
  rewrite (clear_newest _ _ F) in I.
  destruct (stop_intervals _ _ M) as (I2 & _).
  split; [exact I |]. split.
  - rewrite I2, I. apply forallb_filter_id. apply forallb_forall. intros x Hx.
    rewrite Forall_forall in F. specialize (F x Hx).
    destruct (Nat.eqb x (S (next_handle st))) eqn:E; [| reflexivity].
    apply Nat.eqb_eq in E. lia.
  - intros E. rewrite E in I. cbn [app] in I.
    rewrite (ticks_single _ n _ I).
    destruct (run_sweeps n (stopMonitoring twice)) as (_ & _ & _ & R).
    rewrite R. lia.
Qed.

End ServiceFacts.

(* ================================================================== *)
(** * Further facts: the scheduling page *)
(* ================================================================== *)

Section PageFacts.

Import Scheduler.

(** X19.  What the submit handler itself decides: the request is sent
    exactly when a host is selected and the date is not a valid instant
    at or before now.  An empty date is not refused by the handler. *)
Theorem handleSubmit_sends_iff (tz now : Z) (f : FormData) :
  is_sent (handleSubmit tz now f) = true
  <-> serverIds f <> []
      /\ forall t, new_Date tz (scheduledTime f) = Some t -> now < t.
Proof.
  unfold handleSubmit, new_Date, date_le.
  destruct (serverIds f) as [| key rest]; cbn [List.length Nat.eqb].
  - split; [discriminate | now intros [H _]].
  - destruct (scheduledTime f) as [v |]; cbn [option_map].
    + destruct ((v - tz) * 60000 <=? now) eqn:E; cbn [is_sent].
      * apply Z.leb_le in E. split; [discriminate |].
        intros [_ H]. specialize (H _ eq_refl). lia.
      * apply Z.leb_gt in E. split; [| reflexivity].
        intros _. split; [discriminate |]. intros t [= <-]. exact E.
    + cbn [is_sent]. split; [| reflexivity].
      intros _. split; [discriminate | discriminate].
Qed.

Lemma not_blank_empty : not_blank EmptyString = false.
Proof. reflexivity. Qed.

(** X20.  What is sent: the form as it is, except that the list of
    addresses is empty when notifications are off, and otherwise holds
    the addresses of the form that are not blank (not made only of the
    white space that [trim] removes, ASCII or not), as they were typed.
    Empty fields added to the form do not change the request. *)
Theorem request_has_no_blank_address (tz now : Z) (f taskData : FormData) :
  handleSubmit tz now f = Sent taskData ->
  task_name taskData = task_name f
  /\ serverIds taskData = serverIds f
  /\ scheduledTime taskData = scheduledTime f
  /\ emailNotification taskData = emailNotification f
  /\ (forall e, In e (notificationEmails taskData)
                <-> emailNotification f = true
                    /\ In e (notificationEmails f) /\ blank e = false)
  /\ handleSubmit tz now (addEmailField f) = Sent taskData.
Proof.
  unfold handleSubmit.
  destruct (List.length (serverIds f) =? 0)%nat eqn:L; [discriminate |].
  destruct (date_le (new_Date tz (scheduledTime f)) now) eqn:D; [discriminate |].
  intros [= <-]. cbn [task_name serverIds scheduledTime emailNotification
                       notificationEmails addEmailField].
  rewrite L, D.
  repeat (split; [reflexivity |]). split.
  - intros e. destruct (emailNotification f).
    + rewrite filter_In. unfold not_blank. rewrite negb_true_iff. tauto.
    + split; [intros [] | now intros [? _]].
  - rewrite filter_app. cbn [filter]. rewrite not_blank_empty, app_nil_r. reflexivity.
Qed.

(** X21.  What the zone-less [min] attribute does enforce: a value that
    the browser lets through is read, on the UTC wall clock, less than
    a minute short of one hour after the form was rendered; read in a
    zone [tz] minutes east of UTC it denotes an instant [tz] minutes
    earlier. *)
Theorem min_attribute_bound (tz rendered : Z) (f : FormData) :
  input_valid rendered f = true ->
  exists t,
    new_Date tz (scheduledTime f) = Some t
    /\ rendered + hour - 60000 < t + tz * 60000.
Proof.
  unfold input_valid, getMinDateTime, new_Date, hour.
  destruct (scheduledTime f) as [v |]; [| discriminate].
  intros H. apply Z.leb_le in H. eexists. split; [reflexivity |].
  pose proof (Z.mul_succ_div_gt (rendered + 3600000) 60000 eq_refl). lia.
Qed.

(** *** The fields of the address list *)

Lemma filter_index_drop {A : Type} (l : list A) :
  forall i index,
    filter_index (fun j => negb (Nat.eqb j (i + index))) i l
    = firstn index l ++ skipn (S index) l.
Proof.
  induction l as [| x l IH]; intros i index.
  - cbn. now destruct index.
  - cbn [filter_index]. destruct index as [| index].
    + rewrite Nat.add_0_r, Nat.eqb_refl. cbn [negb firstn skipn app].
      clear IH. revert i. induction l as [| y l IH]; intros i; [reflexivity |].
      cbn [filter_index].
      replace (Nat.eqb (S i) i) with false by (symmetry; apply Nat.eqb_neq; lia).
      cbn [negb]. f_equal.
      specialize (IH (S i)).
      assert (G : forall (k : nat) (m : list A),
                 (i < k)%nat ->
                 filter_index (fun j => negb (Nat.eqb j i)) k m = m).
      { intros k m. revert k. induction m as [| z m IHm]; intros k Lt; [reflexivity |].
        cbn [filter_index].
        replace (Nat.eqb k i) with false by (symmetry; apply Nat.eqb_neq; lia).
        cbn [negb]. f_equal. apply IHm. lia. }
      apply G. lia.
    + replace (Nat.eqb i (i + S index)) with false by (symmetry; apply Nat.eqb_neq; lia).
      cbn [negb firstn app]. f_equal.
      replace (i + S index)%nat with (S i + index)%nat by lia.
      rewrite IH. reflexivity.
Qed.

Lemma map_index_set {A : Type} (value : A) (l : list A) :
  forall i index,
    map_index (fun x j => if Nat.eqb j (i + index) then value else x) i l
    = if (index <? List.length l)%nat
      then firstn index l ++ value :: skipn (S index) l
      else l.
Proof.
  induction l as [| x l IH]; intros i index.
  - reflexivity.
  - cbn [map_index List.length]. destruct index as [| index].
    + rewrite Nat.add_0_r, Nat.eqb_refl. cbn [Nat.ltb Nat.leb firstn skipn app].
      f_equal.
      assert (G : forall (k : nat) (m : list A),
                 (i < k)%nat ->
                 map_index (fun x j => if Nat.eqb j i then value else x) k m = m).
      { intros k m. revert k. induction m as [| z m IHm]; intros k Lt; [reflexivity |].
        cbn [map_index].
        replace (Nat.eqb k i) with false by (symmetry; apply Nat.eqb_neq; lia).
        f_equal. apply IHm. lia. }
      apply G. lia.
    + replace (Nat.eqb i (i + S index)) with false by (symmetry; apply Nat.eqb_neq; lia).
      replace (i + S index)%nat with (S i + index)%nat by lia.
      rewrite IH.
      change (S index <? S (List.length l))%nat with (index <? List.length l)%nat.
      destruct (index <? List.length l)%nat; reflexivity.
Qed.

Lemma removeEmailField_fields (index : nat) (f : FormData) :
  notificationEmails (removeEmailField index f)
  = firstn index (notificationEmails f) ++ skipn (S index) (notificationEmails f).
Proof.
  unfold removeEmailField. cbn [notificationEmails].
  apply (filter_index_drop (notificationEmails f) 0 index).
Qed.

Lemma updateEmail_fields (index : nat) (value : string) (f : FormData) :
  notificationEmails (updateEmail index value f)
  = (if (index <? List.length (notificationEmails f))%nat
     then firstn index (notificationEmails f)
          ++ value :: skipn (S index) (notificationEmails f)
     else notificationEmails f).
Proof.
  unfold updateEmail. cbn [notificationEmails].
  apply (map_index_set value (notificationEmails f) 0 index).
Qed.

(** X22.  The handlers of the address fields do what their buttons say:
    removing field [index] takes out that field and no other, typing in
    field [index] replaces that field and no other (and nothing when
    there is no such field), and removing the field just added gives
    back the form. *)
Theorem address_fields_edit (index : nat) (value : string) (f : FormData) :
  notificationEmails (removeEmailField index f)
  = firstn index (notificationEmails f) ++ skipn (S index) (notificationEmails f)
  /\ notificationEmails (updateEmail index value f)
     = (if (index <? List.length (notificationEmails f))%nat
        then firstn index (notificationEmails f)
             ++ value :: skipn (S index) (notificationEmails f)
        else notificationEmails f)
  /\ removeEmailField (List.length (notificationEmails f)) (addEmailField f) = f.
Proof.
  split; [apply removeEmailField_fields | split; [apply updateEmail_fields |]].
  pose proof (removeEmailField_fields (List.length (notificationEmails f))
                (addEmailField f)) as E.
  destruct f as [n ids t notify emails].
  unfold removeEmailField, addEmailField in *.
  cbn [notificationEmails task_name serverIds scheduledTime emailNotification] in *.
  rewrite E, firstn_app, Nat.sub_diag, firstn_all. cbn [firstn].
  rewrite skipn_all2 by (rewrite length_app; cbn; lia).
  now rewrite !app_nil_r.
Qed.

(** *** The page *)

Lemma loadData_form (api : Api) (p : Page) :
  formData (loadData api p) = formData p /\ showModal (loadData api p) = showModal p.
Proof.
  unfold loadData. destruct (getTasks api), (getAll api); split; reflexivity.
Qed.

Lemma loadData_active (api : Api) (p : Page) :
  Forall (fun s => isActive s = true) (servers p) ->
  Forall (fun s => isActive s = true) (servers (loadData api p)).
Proof.
  intros H. unfold loadData. destruct (getTasks api), (getAll api); cbn; try exact H.
  apply Forall_forall. intros s I. now apply filter_In in I.
Qed.

(** X23.  A submission clears the form and closes the modal only when the
    request was sent and the API accepted it; a submission that is
    refused, or that the API rejects, leaves the form, the modal and the
    lists as they were and shows one error. *)
Theorem submit_keeps_form_unless_accepted (tz now : Z) (api : Api) (p : Page) :
  (exists taskData,
     handleSubmit tz now (formData p) = Sent taskData
     /\ createTask api taskData = Returned tt
     /\ formData (submit tz now api p) = empty_form
     /\ showModal (submit tz now api p) = false
     /\ loading (submit tz now api p) = false
     /\ In (ToastSuccess "Task scheduled successfully") (toasts (submit tz now api p)))
  \/ (formData (submit tz now api p) = formData p
      /\ showModal (submit tz now api p) = showModal p
      /\ tasks (submit tz now api p) = tasks p
      /\ servers (submit tz now api p) = servers p
      /\ exists message, toasts (submit tz now api p) = toasts p ++ [ToastError message]).
Proof.
  unfold submit.
  destruct (handleSubmit tz now (formData p)) as [message | taskData] eqn:H.
  - right. repeat split. now exists message.
  - destruct (createTask api taskData) as [[] | m] eqn:C.
    + left. exists taskData. repeat split; try exact C.
      unfold resetForm, loadData. cbn [toasts].
      destruct (getTasks api), (getAll api); cbn [toasts toast];
        rewrite ?in_app_iff; cbn; tauto.
    + right. repeat split. now eexists.
Qed.

Lemma remove_keeps_one {A : Type} (l : list A) (index : nat) :
  (1 < List.length l)%nat ->
  firstn index l ++ skipn (S index) l <> [].
Proof.
  intros Lt E. apply (f_equal (@List.length A)) in E.
  rewrite length_app, length_firstn, length_skipn in E. cbn in E. lia.
Qed.

Lemma email_action_keeps_one (a : EmailAction) (f : FormData) :
  notificationEmails f <> [] -> notificationEmails (email_action a f) <> [].
Proof.
  intros N. destruct a as [| index | index value]; cbn [email_action].
  - cbn. intros E. now apply app_eq_nil in E as [_ E].
  - destruct (1 <? List.length (notificationEmails f))%nat eqn:G; [| exact N].
    apply Nat.ltb_lt in G.
    rewrite removeEmailField_fields.
    now apply remove_keeps_one.
  - rewrite updateEmail_fields.
    destruct (index <? List.length (notificationEmails f))%nat; [| exact N].
    intros E. now apply app_eq_nil in E as [_ E].
Qed.

Lemma includes_In (key : Z) (l : list Z) : includes key l = true <-> In key l.
Proof.
  unfold includes. rewrite existsb_exists. split.
  - intros (x & I & E). apply Z.eqb_eq in E. now subst.
  - intros I. exists key. split; [exact I | apply Z.eqb_refl].
Qed.

Lemma includes_filter (other key : Z) (l : list Z) :
  includes other (filter (fun i => negb (i =? key)) l)
  = includes other l && negb (other =? key).
Proof.
  unfold includes. induction l as [| x l IH]; [reflexivity |].
  cbn [filter existsb]. destruct (x =? key) eqn:E; cbn [negb existsb]; rewrite IH.
  - apply Z.eqb_eq in E. subst x.
    destruct (other =? key); cbn [orb negb]; [now rewrite andb_false_r | reflexivity].
  - destruct (other =? x) eqn:O; cbn [orb andb]; [| reflexivity].
    apply Z.eqb_eq in O. subst x. rewrite E. cbn [negb].
    destruct (existsb (Z.eqb other) l); reflexivity.
Qed.

(** X24.  Clicking the checkbox of a host flips whether that host is
    selected and leaves every other host as it was. *)
Theorem toggle_flips_one_host (key other : Z) (f : FormData) :
  includes other (serverIds (toggle_server key f))
  = if other =? key then negb (includes key (serverIds f))
    else includes other (serverIds f).
Proof.
  unfold toggle_server. cbn [serverIds].
  destruct (includes key (serverIds f)) eqn:I.
  - rewrite includes_filter. destruct (other =? key) eqn:E; cbn [negb].
    + now rewrite andb_false_r.
    + now rewrite andb_true_r.
  - unfold includes in *. rewrite existsb_app. cbn [existsb]. rewrite orb_false_r.
    destruct (other =? key) eqn:E; cbn [negb].
    + now rewrite orb_true_r.
    + now rewrite orb_false_r.
Qed.

Lemma toggle_NoDup (key : Z) (f : FormData) :
  NoDup (serverIds f) -> NoDup (serverIds (toggle_server key f)).
Proof.
  intros N. unfold toggle_server. cbn [serverIds].
  destruct (includes key (serverIds f)) eqn:I.
  - now apply NoDup_filter.
  - apply NoDup_app; [exact N | repeat constructor; intros [] |].
    intros x Hx [<- | []].
    apply includes_In in Hx. congruence.
Qed.

Lemma well_formed_set_form (f : FormData) (p : Page) :
  notificationEmails f <> [] -> NoDup (serverIds f) ->
  well_formed p -> well_formed (set_form f p).
Proof. intros E N (_ & _ & A). repeat split; assumption. Qed.

Lemma well_formed_loadData (api : Api) (p : Page) :
  well_formed p -> well_formed (loadData api p).
Proof.
  intros (E & N & A). unfold well_formed.
  destruct (loadData_form api p) as [-> _].
  repeat split; try assumption. now apply loadData_active.
Qed.

Lemma well_formed_toast (t : Toast) (p : Page) : well_formed p -> well_formed (toast t p).
Proof. intros W. exact W. Qed.

Lemma well_formed_resetForm (p : Page) : well_formed p -> well_formed (resetForm p).
Proof.
  intros (_ & _ & A). repeat split; cbn; [discriminate | constructor | exact A].
Qed.

Lemma act_well_formed (a : Action) (p : Page) : well_formed p -> well_formed (act a p).
Proof.
  intros W. pose proof W as (E & N & A).
  destruct a as [api | | value | value | key | checked | a | tz now api | | confirmed api taskId];
    cbn [act].
  - now apply well_formed_loadData.
  - exact W.
  - now apply well_formed_set_form.
  - now apply well_formed_set_form.
  - destruct (includes key (map id (servers p))); [| exact W].
    apply well_formed_set_form; [exact E | now apply toggle_NoDup | exact W].
  - now apply well_formed_set_form.
  - apply well_formed_set_form; [now apply email_action_keeps_one | | exact W].
    destruct a as [| index | index value]; cbn [email_action]; try exact N.
    destruct (1 <? List.length (notificationEmails (formData p)))%nat; exact N.
  - unfold submit. destruct (handleSubmit tz now (formData p)); [exact W |].
    destruct (createTask api taskData); [| exact W].
    now apply well_formed_resetForm, well_formed_loadData.
  - now apply well_formed_resetForm.
  - destruct (existsb _ (tasks p)); [| exact W].
    unfold handleCancel. destruct confirmed; cbn [negb]; [| exact W].
    destruct (cancelTask api taskId); [| exact W].
    now apply well_formed_loadData.
Qed.

(** X25.  Whatever happens to the page, in whatever order: the form
    always has at least one address field, no host is selected twice,
    and the hosts offered for selection are all active. *)
Theorem page_stays_well_formed (actions : list Action) : well_formed (session actions).
Proof.
  unfold session.
  assert (G : forall p, well_formed p ->
                        well_formed (fold_left (fun p a => act a p) actions p)).
  { induction actions as [| a actions IH]; intros p W; [exact W |].
    cbn [fold_left]. apply IH. now apply act_well_formed. }
  apply G. repeat split; cbn; [discriminate | constructor | constructor].
Qed.

End PageFacts.

(* ================================================================== *)
(** * Further facts: the routes *)
(* ================================================================== *)

Section GroupFacts.

Import Groups.

Lemma nobody_refers (key : Z) (l : list Server) :
  List.length (filter (fun s => match groupId s with
                                | Some g => g =? key
                                | None => false
                                end) l) = 0%nat ->
  forall s, In s l -> groupId s <> Some key.
Proof.
  intros L s I E. apply length_zero_iff_nil in L.
  assert (In s (filter (fun s => match groupId s with
                                 | Some g => g =? key
                                 | None => false
                                 end) l)).
  { apply filter_In. split; [exact I |]. rewrite E. apply Z.eqb_refl. }
  rewrite L in H. destruct H.
Qed.

Lemma nothing_to_destroy (key : Z) (l : list Group) :
  List.length (filter (fun g => g_id g =? key) l) = 0%nat ->
  filter (fun g => negb (g_id g =? key)) l = l.
Proof.
  induction l as [| g l IH]; [reflexivity |].
  cbn [filter]. destruct (g_id g =? key); cbn [negb List.length]; [discriminate |].
  intros L. now rewrite IH.
Qed.

Lemma something_destroyed (key : Z) (l : list Group) :
  List.length (filter (fun g => g_id g =? key) l) <> 0%nat ->
  In key (map g_id l).
Proof.
  intros L. destruct (filter (fun g => g_id g =? key) l) as [| g rest] eqn:F;
    [now destruct L |].
  assert (I : In g (filter (fun g => g_id g =? key) l)) by (rewrite F; now left).
  apply filter_In in I as [I E]. apply Z.eqb_eq in E. rewrite <- E. now apply in_map.
Qed.

(** X26.  DELETE /groups/:id always answers and never touches the
    servers.  If no server pointed to a group that does not exist
    before the request, none does afterwards.  The route answers 200
    only after deleting a group that existed and that no server belonged
    to; with any other answer the tables are as they were. *)
Theorem delete_group_keeps_references (env : Env) (key : Z) (db : Db) :
  exists r,
    fst (delete env key db) = Returned r
    /\ servers (snd (delete env key db)) = servers db
    /\ (references_ok db -> references_ok (snd (delete env key db)))
    /\ (code r = 200 ->
        group_exists key db
        /\ ~ group_exists key (snd (delete env key db))
        /\ (forall s, In s (servers db) -> groupId s <> Some key)
        /\ forall g, g_id g <> key ->
                     (In g (groups (snd (delete env key db))) <-> In g (groups db)))
    /\ (code r <> 200 -> snd (delete env key db) = db).
Proof.
  unfold delete, try_catch, bind, Server_count, Group_destroy, gets, ret, throw.
  destruct (count_error env) as [mc |].
  { eexists. cbn [fst snd code]. split; [reflexivity |]. split; [reflexivity |].
    split; [now intros R |]. split; [discriminate | reflexivity]. }
  cbn [fst snd].
  destruct (0 <? List.length _)%nat eqn:C.
  { eexists. cbn [fst snd code]. split; [reflexivity |]. split; [reflexivity |].
    split; [now intros R |]. split; [discriminate | reflexivity]. }
  apply Nat.ltb_ge in C. assert (C0 := proj1 (Nat.le_0_r _) C). clear C.
  destruct (destroy_error env) as [md |].
  { eexists. cbn [fst snd code]. split; [reflexivity |]. split; [reflexivity |].
    split; [now intros R |]. split; [discriminate | reflexivity]. }
  cbn [fst snd].
  destruct (Nat.eqb (List.length (filter (fun g => g_id g =? key) (groups db))) 0) eqn:D.
  - apply Nat.eqb_eq in D. rewrite (nothing_to_destroy key (groups db) D).
    eexists. cbn [fst snd code servers]. split; [reflexivity |].
    split; [reflexivity |]. split; [intros R; now destruct db |].
    split; [discriminate |]. intros _. now destruct db.
  - apply Nat.eqb_neq in D.
    eexists. cbn [fst snd code servers groups]. split; [reflexivity |].
    split; [reflexivity |]. split; [| split; [| now intros H; destruct H]].
    + intros R s g I E. unfold group_exists. cbn [groups].
      apply in_map_iff. specialize (R s g I E). unfold group_exists in R.
      apply in_map_iff in R as (x & Ex & Ix). exists x. split; [exact Ex |].
      apply filter_In. split; [exact Ix |].
      apply negb_true_iff, Z.eqb_neq. intros K.
      apply (nobody_refers key (servers db) C0 s I). congruence.
    + intros _. split; [now apply something_destroyed |]. split; [| split].
      * unfold group_exists. cbn [groups]. intros I.
        apply in_map_iff in I as (x & Ex & Ix). apply filter_In in Ix as [_ Ix].
        apply negb_true_iff, Z.eqb_neq in Ix. contradiction.
      * apply (nobody_refers key (servers db) C0).
      * intros g G. rewrite filter_In, negb_true_iff, Z.eqb_neq. tauto.
Qed.

End GroupFacts.

Section AuthFacts.

Import Auth.

(** X27.  POST /register always answers.  It answers 201 only for a
    request that passed validation, for a user that [findOne] did not
    find, and either into an empty table or with a token that verifies
    as an administrator's; it then adds one user, with the hashed
    password, and the first user is an administrator with every
    permission whatever the body asks for.  With any other answer the
    table is as it was. *)
Theorem register_needs_admin (env : Env) (req : Request) (users : list User) :
  exists r,
    fst (register env req users) = Returned r
    /\ ((code r = 201
         /\ valid req = true
         /\ (users = [] \/ admin_token env req)
         /\ findOne env (req_username req) (req_email req) = Returned false
         /\ exists u,
              snd (register env req users) = users ++ [u]
              /\ body r = Created (u_id u) (match users with [] => true | _ => false end)
              /\ username u = req_username req
              /\ email u = req_email req
              /\ password u = bcrypt_hash env (req_password req)
              /\ (users = [] -> role u = "admin" /\ permissions u = all_permissions)
              /\ (users <> [] -> role u = or_string (req_role req) "user"))
        \/ (code r <> 201 /\ snd (register env req users) = users)).
Proof.
  unfold register, try_catch, bind, gets, ret, throw.
  destruct (valid req) eqn:V; cbn [negb].
  2: { eexists. split; [reflexivity |]. right. split; [discriminate | reflexivity]. }
  destruct (count_error env) as [mc |].
  { eexists. split; [reflexivity |]. right. split; [discriminate | reflexivity]. }
  cbn [fst snd].
  destruct users as [| u0 rest] eqn:U; cbn [List.length Nat.eqb].
  - destruct (findOne env (req_username req) (req_email req)) as [[|] | mf] eqn:F;
      cbn [fst snd].
    + eexists. split; [reflexivity |]. right. split; [discriminate | reflexivity].
    + destruct (create_error env) as [me |]; cbn [fst snd].
      * eexists. split; [reflexivity |]. right. split; [discriminate | reflexivity].
      * eexists. split; [reflexivity |]. left.
        split; [reflexivity |]. split; [reflexivity |]. split; [now left |].
        split; [reflexivity |].
        eexists. split; [reflexivity |]. cbn.
        repeat split; try reflexivity. intros H. now destruct H.
    + eexists. split; [reflexivity |]. right. split; [discriminate | reflexivity].
  - destruct (token_of (authorization req)) as [token |] eqn:T.
    2: { eexists. split; [reflexivity |]. right. split; [discriminate | reflexivity]. }
    destruct (jwt_verify env token) as [decoded |] eqn:J.
    2: { eexists. split; [reflexivity |]. right. split; [discriminate | reflexivity]. }
    destruct (role_is "admin" decoded) eqn:D.
    2: { eexists. split; [reflexivity |]. right. split; [discriminate | reflexivity]. }
    assert (A : admin_token env req).
    { exists token. split; [exact T |]. rewrite J.
      destruct decoded as [r |]; [| discriminate].
      cbn in D. apply String.eqb_eq in D. now subst. }
    destruct (findOne env (req_username req) (req_email req)) as [[|] | mf] eqn:F;
      cbn [fst snd].
    + eexists. split; [reflexivity |]. right. split; [discriminate | reflexivity].
    + destruct (create_error env) as [me |]; cbn [fst snd].
      * eexists. split; [reflexivity |]. right. split; [discriminate | reflexivity].
      * eexists. split; [reflexivity |]. left.
        split; [reflexivity |]. split; [reflexivity |].
        split; [now right |].
        split; [reflexivity |].
        eexists. split; [reflexivity |]. cbn.
        repeat split; try reflexivity; congruence.
    + eexists. split; [reflexivity |]. right. split; [discriminate | reflexivity].
Qed.

End AuthFacts.

(* ================================================================== *)
(** * The further facts on the sample data *)
(* ================================================================== *)

Section WorkedMore.

Import Samples.

Ltac distinct_keys :=
  repeat constructor; cbn; intuition discriminate.

(** X5 on the sample batch, run where the [ssh] binary is missing: the
    first host of the run is entered with the spawn error. *)
Lemma ssh_spawn_error_recorded_witness :
  nth_error (Restart.sort Restart.compare_restartOrder batch) 0 = Some database
  /\ Restart.pingServer (Restart.ping_run ssh_missing 0) = true
  /\ Restart.ssh_run ssh_missing 0 = [] ++ (5, ProcError "spawn ssh ENOENT") :: []
  /\ forallb (Restart.quiet Restart.ssh_ceiling) [] = true
  /\ 5 < Restart.ssh_ceiling
  /\ In {| Restart.serverId := 2; Restart.serverName := "srv2";
           Restart.error := "SSH connection failed: spawn ssh ENOENT" |}
        (Restart.errors (Restart.details
           (snd (Restart.run ssh_missing (Restart.Array batch) running_log true))))
  /\ Restart.final_status (Restart.details
        (snd (Restart.run ssh_missing (Restart.Array batch) running_log true)))
     = Restart.Failed.
Proof.
  assert (H1 : nth_error (Restart.sort Restart.compare_restartOrder batch) 0 = Some database)
    by reflexivity.
  assert (H2 : Restart.pingServer (Restart.ping_run ssh_missing 0) = true) by reflexivity.
  assert (H3 : Restart.ssh_run ssh_missing 0 = [] ++ (5, ProcError "spawn ssh ENOENT") :: [])
    by reflexivity.
  assert (H4 : forallb (Restart.quiet Restart.ssh_ceiling) [] = true) by reflexivity.
  assert (H5 : 5 < Restart.ssh_ceiling) by reflexivity.
  split; [exact H1 |]. split; [exact H2 |]. split; [exact H3 |].
  split; [exact H4 |]. split; [exact H5 |].
  exact (ssh_spawn_error_recorded ssh_missing batch running_log true 0 database
           [] [] 5 "spawn ssh ENOENT" H1 H2 H3 H4 H5).
Defined.

(** X9 on the sample table, whose hosts have the priorities 1, 2, 3,
    listed forwards and backwards. *)
Lemma input_order_is_irrelevant_witness :
  NoDup (map restartOrder table)
  /\ Permutation table (rev table)
  /\ Restart.run restart_env (Restart.Array table) running_log true
     = Restart.run restart_env (Restart.Array (rev table)) running_log true.
Proof.
  assert (H1 : NoDup (map restartOrder table)) by distinct_keys.
  assert (H2 : Permutation table (rev table)) by apply Permutation_rev.
  split; [exact H1 |]. split; [exact H2 |].
  exact (input_order_is_irrelevant restart_env table (rev table) running_log true H1 H2).
Defined.

(** X12 on the sample table: host 3 is not active. *)
Lemma inactive_hosts_left_alone_witness :
  NoDup (map id (Monitoring.db (Monitoring.start table)))
  /\ In (host 3 3 0 Online false) (Monitoring.db (Monitoring.start table))
  /\ isActive (host 3 3 0 Online false) = false
  /\ Monitoring.row 3 (Monitoring.db (Monitoring.sweep one_down true (Monitoring.start table)))
     = Some (host 3 3 0 Online false)
  /\ ~ In 3 (Monitoring.updated_keys
               (Monitoring.news one_down true (Monitoring.start table))).
Proof.
  assert (H1 : NoDup (map id (Monitoring.db (Monitoring.start table))))
    by distinct_keys.
  assert (H2 : In (host 3 3 0 Online false) (Monitoring.db (Monitoring.start table)))
    by (right; right; left; reflexivity).
  assert (H3 : isActive (host 3 3 0 Online false) = false) by reflexivity.
  split; [exact H1 |]. split; [exact H2 |]. split; [exact H3 |].
  exact (inactive_hosts_left_alone one_down true (Monitoring.start table)
           (host 3 3 0 Online false) H1 H2 H3).
Defined.

(** X13 on the sample table: the board hears that host 1 is down. *)
Lemma dashboard_follows_sweep_witness :
  NoDup (map id (Monitoring.db (Monitoring.start table)))
  /\ In (host 1 1 0 Online true) (Monitoring.finished one_down (Monitoring.start table))
  /\ In 1 (Dashboard.keys board)
  /\ Dashboard.shown 1
       (Dashboard.listen
          (Monitoring.emits (Monitoring.news one_down true (Monitoring.start table))) board)
     = Monitoring.status_of 1
         (Monitoring.db (Monitoring.sweep one_down true (Monitoring.start table)))
  /\ Dashboard.keys
       (Dashboard.listen
          (Monitoring.emits (Monitoring.news one_down true (Monitoring.start table))) board)
     = Dashboard.keys board.
Proof.
  assert (H1 : NoDup (map id (Monitoring.db (Monitoring.start table))))
    by distinct_keys.
  assert (H2 : In (host 1 1 0 Online true)
                 (Monitoring.finished one_down (Monitoring.start table)))
    by (left; reflexivity).
  assert (H3 : In 1 (Dashboard.keys board)) by (left; reflexivity).
  split; [exact H1 |]. split; [exact H2 |]. split; [exact H3 |].
  exact (dashboard_follows_sweep one_down (Monitoring.start table) board
           (host 1 1 0 Online true) H1 H2 H3).
Defined.

(** X14 on the sample table, after a sweep that finds host 1 down. *)
Lemma stats_after_full_sweep_witness :
  NoDup (map id (Monitoring.db (Monitoring.start table)))
  /\ Monitoring.findAll_error one_down = None
  /\ (forall s, In s (Monitoring.db (Monitoring.start table)) ->
                isActive s = true -> Monitoring.writes_ok one_down s = true)
  /\ Dashboard.totalServers
       (Monitoring.db (Monitoring.sweep one_down true (Monitoring.start table)))
     = Dashboard.totalServers (Monitoring.db (Monitoring.start table))
  /\ (Dashboard.onlineServers
        (Monitoring.db (Monitoring.sweep one_down true (Monitoring.start table)))
      + Dashboard.offlineServers
          (Monitoring.db (Monitoring.sweep one_down true (Monitoring.start table)))
      = Dashboard.totalServers
          (Monitoring.db (Monitoring.sweep one_down true (Monitoring.start table))))%nat.
Proof.
  assert (H1 : NoDup (map id (Monitoring.db (Monitoring.start table))))
    by distinct_keys.
  assert (H2 : Monitoring.findAll_error one_down = None) by reflexivity.
  assert (H3 : forall s, In s (Monitoring.db (Monitoring.start table)) ->
                         isActive s = true -> Monitoring.writes_ok one_down s = true)
    by (intros s _ _; reflexivity).
  destruct (stats_after_full_sweep one_down true (Monitoring.start table)) as [A B].
  split; [exact H1 |]. split; [exact H2 |]. split; [exact H3 |].
  split; [exact A | exact (B H1 H2 H3)].
Defined.

(** X16 on the sample table: two minutes after the start the monitor
    has made three sweeps. *)
Lemma start_runs_a_sweep_per_minute_witness :
  Service.intervals (Service.boot table) = []
  /\ Service.monitor
       (Service.ticks 2 weather true (Service.startMonitoring weather true (Service.boot table)))
     = Monitoring.sweeps (map weather (seq (Service.sweeps_run (Service.boot table)) 3)) true
         (Service.monitor (Service.boot table))
  /\ Service.sweeps_run
       (Service.ticks 2 weather true (Service.startMonitoring weather true (Service.boot table)))
     = (Service.sweeps_run (Service.boot table) + 3)%nat.
Proof.
  assert (H1 : Service.intervals (Service.boot table) = []) by reflexivity.
  split; [exact H1 |].
  exact (start_runs_a_sweep_per_minute weather true (Service.boot table) 2 H1).
Defined.

(** X17 on the sample table: started, stopped, and left for an hour. *)
Lemma stop_clears_the_timer_witness :
  Service.handles_ok (Service.boot table)
  /\ Service.intervals
       (Service.stopMonitoring (Service.startMonitoring weather true (Service.boot table)))
     = []
  /\ Service.ticks 60 weather true
       (Service.stopMonitoring (Service.startMonitoring weather true (Service.boot table)))
     = Service.stopMonitoring (Service.startMonitoring weather true (Service.boot table)).
Proof.
  assert (H1 : Service.handles_ok (Service.boot table)) by constructor.
  destruct (stop_clears_the_timer weather true (Service.boot table) 60 H1) as [A B].
  split; [exact H1 |]. split; [exact A | exact (B eq_refl)].
Defined.

(** X18 on the sample table: started twice, stopped twice, and the
    first timer still fires. *)
Lemma second_start_leaks_a_timer_witness :
  Service.handles_ok (Service.boot table)
  /\ Service.intervals
       (Service.stopMonitoring
          (Service.stopMonitoring
             (Service.startMonitoring weather true
                (Service.startMonitoring weather true (Service.boot table)))))
     = [0%nat]
  /\ Service.sweeps_run
       (Service.ticks 60 weather true
          (Service.stopMonitoring
             (Service.startMonitoring weather true
                (Service.startMonitoring weather true (Service.boot table)))))
     = (Service.sweeps_run
          (Service.stopMonitoring
             (Service.startMonitoring weather true
                (Service.startMonitoring weather true (Service.boot table)))) + 60)%nat.
Proof.
  assert (H1 : Service.handles_ok (Service.boot table)) by constructor.
  destruct (second_start_leaks_a_timer weather true (Service.boot table) 60 H1)
    as (_ & A & B).
  split; [exact H1 |]. split; [exact A | exact (B eq_refl)].
Defined.

(** X20 on a request with one address, three blank fields (a space, a
    no-break space, a mix with an ideographic space) and one empty
    field. *)
Lemma request_has_no_blank_address_witness :
  Scheduler.handleSubmit zone clock request_with_mail = Scheduler.Sent mail_sent
  /\ Scheduler.notificationEmails mail_sent = ["ops@example.org"]
  /\ Scheduler.handleSubmit zone clock (Scheduler.addEmailField request_with_mail)
     = Scheduler.Sent mail_sent.
Proof.
  assert (H1 : Scheduler.handleSubmit zone clock request_with_mail = Scheduler.Sent mail_sent)
    by reflexivity.
  destruct (request_has_no_blank_address zone clock request_with_mail mail_sent H1)
    as (_ & _ & _ & _ & _ & A).
  split; [exact H1 |]. split; [reflexivity | exact A].
Defined.

(** X21 on the sample request, which the browser lets through. *)
Lemma min_attribute_bound_witness :
  Scheduler.input_valid clock request = true
  /\ exists t,
       Scheduler.new_Date zone (Scheduler.scheduledTime request) = Some t
       /\ clock + Scheduler.hour - 60000 < t + zone * 60000.
Proof.
  assert (H1 : Scheduler.input_valid clock request = true) by reflexivity.
  split; [exact H1 |].
  exact (min_attribute_bound zone clock request H1).
Defined.

(** X26 on the sample inventory: the empty group can be deleted, the
    other one cannot. *)
Lemma delete_group_keeps_references_witness :
  Groups.references_ok inventory
  /\ Groups.code
       (match fst (Groups.delete store_up 2 inventory) with
        | Returned r => r
        | Thrown _ => {| Groups.code := 0; Groups.body := Groups.ErrorBody EmptyString |}
        end) = 200
  /\ Groups.code
       (match fst (Groups.delete store_up 1 inventory) with
        | Returned r => r
        | Thrown _ => {| Groups.code := 0; Groups.body := Groups.ErrorBody EmptyString |}
        end) = 400
  /\ Groups.references_ok (snd (Groups.delete store_up 2 inventory))
  /\ Groups.references_ok (snd (Groups.delete store_up 1 inventory)).
Proof.
  assert (H1 : Groups.references_ok inventory).
  { intros s g [<- | []] E. injection E as <-. left. reflexivity. }
  destruct (delete_group_keeps_references store_up 2 inventory) as (r2 & _ & _ & A & _).
  destruct (delete_group_keeps_references store_up 1 inventory) as (r1 & _ & _ & B & _).
  split; [exact H1 |]. split; [reflexivity |]. split; [reflexivity |].
  split; [exact (A H1) | exact (B H1)].
Defined.

End WorkedMore.
